(** * Heat Exchanger Performance Calculator: a model of [src/app.py]

    The script is a Streamlit page that is re-run from top to bottom on
    every interaction.  One run reads three unit selectors and nine text
    fields, normalises the fields that parse, and, when all nine are
    present, evaluates the energy balance, the log-mean temperature
    difference and the effectiveness, prints three result lines and draws
    a two-point temperature profile.

    Numbers are Python [float]s, that is IEEE 754 binary64 values; they are
    modelled by Rocq's primitive floats, whose operations are the same
    binary64 operations.  What Python adds on top of IEEE 754 is modelled
    explicitly: true division of two [float]s raises [ZeroDivisionError]
    on a zero divisor, whereas a division whose right operand is a
    [numpy.float64] follows IEEE 754 and returns an infinity or a NaN.

    Three functions that the script takes from outside, the builtin
    [float()] on strings, [numpy.log] and the drawing of the chart by
    [st.pyplot], which can raise, are parameters of the model.  Reference
    versions of them ([PyFloat.of_string], [PyFloat.ln], [PyPlot.draw])
    are defined here so that the script can be evaluated on concrete
    forms.

    The last part relates the floats to the real numbers they stand for
    and bounds the rounding errors of the unit conversions and of the
    heat duties. *)

From Stdlib Require Import ZArith List String Ascii Bool Floats Lia.
From Stdlib Require Import DecimalString QArith Qabs Reals Lra.
Import ListNotations.

Set Implicit Arguments.

(** Decimal literals denote the nearest binary64 value, as in Python. *)
Set Warnings "-inexact-float".

(** ** Python results: values and exceptions *)

Inductive exn : Type :=
  | ZeroDivisionError
  | ValueError
  | TypeError.

Inductive result (A : Type) : Type :=
  | Value (a : A)
  | Raise (e : exn).

Arguments Value {A} a.
Arguments Raise {A} e.

Definition is_value {A} (r : result A) : bool :=
  match r with Value _ => true | Raise _ => false end.

Definition result_bind {A B} (r : result A) (k : A -> result B) : result B :=
  match r with
  | Value a => k a
  | Raise e => Raise e
  end.

(** ** Python floats *)

Module PyFloat.

Local Open Scope float_scope.

(** [a / b] on two Python floats (float_div in floatobject.c): a zero
    divisor, of either sign, raises. *)
Definition truediv (a b : float) : result float :=
  if b =? 0 then Raise ZeroDivisionError else Value (a / b).

(** [a / b] where [b] is a [numpy.float64]: the reflected numpy operator
    runs, which follows IEEE 754 (it warns on a zero divisor and returns
    an infinity or a NaN). *)
Definition np_truediv (a b : float) : float := a / b.

(** [a != b] on floats: true as soon as one side is a NaN. *)
Definition ne (a b : float) : bool := negb (a =? b).

(** The builtin [min(a, b)]: the first argument is kept unless the second
    compares strictly below it. *)
Definition min (a b : float) : float := if b <? a then b else a.

(** [math.isclose(a, b, rel_tol=..., abs_tol=...)], the tolerance test of
    Python's standard library. *)
Definition isclose (rel_tol abs_tol a b : float) : bool :=
  if a =? b then true
  else if is_infinity a || is_infinity b then false
  else
    let diff := abs (b - a) in
    (diff <=? abs (rel_tol * b)) || (diff <=? abs (rel_tol * a))
    || (diff <=? abs_tol).

(** *** A reference [float(str)] for ASCII text

    Surrounding white space is dropped, single underscores may separate
    digits, and the rest is [[sign] (inf | infinity | nan | number)] with
    [number = digits [. digits] [e [sign] digits]] and at least one digit
    in the mantissa.  The value is the binary64 nearest to the decimal
    (ties to even); magnitudes past the largest float give an infinity. *)

Local Open Scope Z_scope.

Definition is_space (c : ascii) : bool :=
  let n := Z.of_nat (nat_of_ascii c) in
  (n =? 32) || ((9 <=? n) && (n <=? 13)).

Definition is_digit (c : ascii) : bool :=
  let n := Z.of_nat (nat_of_ascii c) in
  (48 <=? n) && (n <=? 57).

Definition digit_val (c : ascii) : Z := Z.of_nat (nat_of_ascii c) - 48.

Definition lower (c : ascii) : ascii :=
  let n := nat_of_ascii c in
  if (65 <=? Z.of_nat n) && (Z.of_nat n <=? 90)
  then ascii_of_nat (n + 32) else c.

Fixpoint lstrip (s : list ascii) : list ascii :=
  match s with
  | c :: s' => if is_space c then lstrip s' else s
  | [] => []
  end.

Definition strip (s : list ascii) : list ascii :=
  rev (lstrip (rev (lstrip s))).

(** Underscores are accepted only between two digits and are removed
    before the number is read. *)
Fixpoint drop_underscores (prev : option ascii) (s : list ascii)
  : option (list ascii) :=
  let prev_digit :=
    match prev with Some p => is_digit p | None => false end in
  let prev_underscore :=
    match prev with Some p => Ascii.eqb p "_" | None => false end in
  match s with
  | [] => if prev_underscore then None else Some []
  | c :: s' =>
      if Ascii.eqb c "_" then
        if prev_digit then drop_underscores (Some c) s' else None
      else if prev_underscore && negb (is_digit c) then None
      else option_map (cons c) (drop_underscores (Some c) s')
  end.

Fixpoint span_digits (s : list ascii) : list ascii * list ascii :=
  match s with
  | c :: s' =>
      if is_digit c
      then let (d, r) := span_digits s' in (c :: d, r)
      else ([], s)
  | [] => ([], [])
  end.

Definition digits_value (d : list ascii) : Z :=
  fold_left (fun acc c => 10 * acc + digit_val c) d 0.

Definition take_sign (s : list ascii) : bool * list ascii :=
  match s with
  | "-"%char :: s' => (true, s')
  | "+"%char :: s' => (false, s')
  | _ => (false, s)
  end.

(** The exponent part; [None] when an [e] is not followed by digits, in
    which case the text has trailing characters and is refused. *)
Definition read_exponent (s : list ascii) : option Z :=
  match s with
  | [] => Some 0
  | c :: s' =>
      if Ascii.eqb (lower c) "e" then
        let (neg, s'') := take_sign s' in
        match span_digits s'' with
        | ((_ :: _) as d, []) =>
            Some (if neg then - digits_value d else digits_value d)
        | _ => None
        end
      else None
  end.

(** Number of decimal digits of a positive integer, by fuel. *)
Fixpoint decimal_length (fuel : nat) (m : Z) : Z :=
  match fuel with
  | O => 0
  | S fuel' => if m <=? 0 then 0 else 1 + decimal_length fuel' (m / 10)
  end.

(** The binary64 nearest to [(-1)^neg * m * 10^e]. *)
Definition of_decimal (neg : bool) (m e : Z) : float :=
  match m with
  | Zpos p =>
      let nd := decimal_length (S (Pos.to_nat (Pos.size p))) m in
      if 310 <? e + nd then (if neg then neg_infinity else infinity)
      else if e + nd <? -330 then (if neg then neg_zero else zero)
      else if 0 <=? e then
        SF2Prim (binary_normalize prec emax
                   (if neg then - (m * 10 ^ e) else m * 10 ^ e) 0 false)
      else
        SF2Prim (SFdiv prec emax (S754_finite neg p 0)
                   (S754_finite false (Z.to_pos (10 ^ (- e))) 0))
  | _ => if neg then neg_zero else zero
  end.

Definition read_number (neg : bool) (s : list ascii) : result float :=
  let (ip, r1) := span_digits s in
  let (fp, r2) :=
    match r1 with
    | "."%char :: r => span_digits r
    | _ => ([], r1)
    end in
  match ip ++ fp with
  | [] => Raise ValueError
  | ds =>
      match read_exponent r2 with
      | Some e =>
          Value (of_decimal neg (digits_value ds) (e - Z.of_nat (List.length fp)))
      | None => Raise ValueError
      end
  end.

Definition of_chars (s : list ascii) : result float :=
  match drop_underscores None (strip s) with
  | None => Raise ValueError
  | Some t =>
      let (neg, body) := take_sign t in
      let word := string_of_list_ascii (map lower body) in
      if String.eqb word "inf" || String.eqb word "infinity"
      then Value (if neg then neg_infinity else infinity)
      else if String.eqb word "nan" then Value nan
      else read_number neg body
  end.

Definition of_string (s : string) : result float :=
  of_chars (list_ascii_of_string s).


(** *** The format specification [.2f]

    The exact binary value is rounded to two decimals, ties to even; the
    sign of a negative zero or of a value that rounds to zero is kept;
    non-finite values print as [inf], [-inf] and [nan]. *)

Definition round_half_even (n d : Z) : Z :=
  let q := n / d in
  match 2 * (n mod d) ?= d with
  | Lt => q
  | Gt => q + 1
  | Eq => if Z.even q then q else q + 1
  end.

(** The nearest integer to [m * 2^e * 100]. *)
Definition hundredths (m : positive) (e : Z) : Z :=
  if 0 <=? e then Zpos m * 2 ^ e * 100
  else round_half_even (Zpos m * 100) (2 ^ (- e)).

Definition decimal (n : Z) : string :=
  NilZero.string_of_uint (N.to_uint (Z.to_N n)).

Definition digit_char (d : Z) : ascii := ascii_of_nat (48 + Z.to_nat d).

Definition fixed2 (neg : bool) (h : Z) : string :=
  ((if neg then "-" else "") ++ decimal (h / 100) ++ "."
   ++ String (digit_char (h mod 100 / 10))
        (String (digit_char (h mod 10)) ""))%string.

Definition format_2f (x : float) : string :=
  match Prim2SF x with
  | S754_nan => "nan"
  | S754_infinity s => if s then "-inf" else "inf"
  | S754_zero s => fixed2 s 0
  | S754_finite s m e => fixed2 s (hundredths m e)
  end.

(** *** The exact value of a float

    A finite float is the rational [(-1)^s * m * 2^e]; an infinity and a
    NaN have none. *)

Definition exact (x : float) : option Q :=
  match Prim2SF x with
  | S754_zero _ => Some 0%Q
  | S754_finite s m e =>
      Some ((if s then - 1 else 1) * (inject_Z (Zpos m) * Qpower 2 e))%Q
  | _ => None
  end.

(** [|x - c| <= tol], decided on the exact value. *)
Definition within (x : float) (c tol : Q) : bool :=
  match exact x with
  | Some q => Qle_bool (Qabs (q - c)) tol
  | None => false
  end.

(** [x < c], decided on the exact value. *)
Definition below (x : float) (c : Q) : bool :=
  match exact x with
  | Some q => match (q ?= c)%Q with Lt => true | _ => false end
  | None => false
  end.

(** *** A reference natural logarithm

    [numpy.log] calls the platform's libm and is a parameter of the
    model.  This version, used to evaluate the script on examples, has
    the same special cases (NaN below zero, minus infinity at zero) and
    is accurate to a few units in the last place elsewhere: the argument
    is split as [m * 2^e] with [m] between [sqrt 1/2] and [sqrt 2], and
    [ln m] is [2 * atanh ((m - 1) / (m + 1))] by its power series. *)

Local Open Scope float_scope.

Definition float_of_Z (z : Z) : float :=
  match z with
  | Z0 => 0
  | Zpos _ => of_uint63 (Uint63.of_Z z)
  | Zneg p => - of_uint63 (Uint63.of_Z (Zpos p))
  end.

(** [sum_{k < n} t2^k / (2 (j + k) + 1)], by Horner's rule. *)
Fixpoint atanh_tail (n : nat) (j : Z) (t2 : float) : float :=
  match n with
  | O => 0
  | S n' => 1 / float_of_Z (2 * j + 1) + t2 * atanh_tail n' (j + 1) t2
  end.

Definition ln2 : float := 0x1.62e42fefa39efp-1.

Definition ln (x : float) : float :=
  if is_nan x then nan
  else if x <? 0 then nan
  else if x =? 0 then neg_infinity
  else if x =? infinity then infinity
  else
    let (m, e) := FloatOps.Z.frexp x in
    let (m, e) := if m <? 0x1.6a09e667f3bcdp-1 then (m * 2, (e - 1)%Z)
                  else (m, e) in
    let t := (m - 1) / (m + 1) in
    2 * t * atanh_tail 16 0 (t * t) + float_of_Z e * ln2.

End PyFloat.


(** ** The thermal formulas (lines 77 to 86)

    The names are the script's.  Inside the results branch the seven
    quantities are floats; the heat-transfer coefficient and the area do
    not occur. *)

Module Solver.
Section Formulas.

Local Open Scope float_scope.

(** [numpy.log] on a float; it returns a [numpy.float64]. *)
Variable np_log : float -> float.

Variables Th_in Th_out m_hot Tc_in Tc_out m_cold Cp : float.

Definition Q_hot : float := m_hot * Cp * (Th_in - Th_out).
Definition Q_cold : float := m_cold * Cp * (Tc_out - Tc_in).
Definition Q_avg : float := (Q_hot + Q_cold) / 2.

Definition delta_T1 : float := Th_in - Tc_out.
Definition delta_T2 : float := Th_out - Tc_in.

(** Line 83.  The quotient [delta_T1 / delta_T2] divides two Python
    floats; the outer division has the [numpy.float64] returned by
    [np.log] on its right. *)
Definition LMTD : result float :=
  if PyFloat.ne delta_T1 delta_T2 then
    result_bind (PyFloat.truediv delta_T1 delta_T2) (fun ratio =>
    Value (PyFloat.np_truediv (delta_T1 - delta_T2) (np_log ratio)))
  else Value delta_T1.

Definition C_min : float := PyFloat.min (m_hot * Cp) (m_cold * Cp).

(** Line 86: a division of two Python floats. *)
Definition effectiveness : result float :=
  PyFloat.truediv Q_avg (C_min * (Th_in - Tc_in)).

End Formulas.
End Solver.

(** ** The page *)

(** The three radio selectors offer these options and no others. *)
Inductive temp_unit : Type := Celsius | Fahrenheit.
Inductive mass_unit : Type := kg_per_s | lb_per_s.
Inductive cp_unit : Type := kJ_per_kgC | J_per_kgC | BTU_per_lbF.

Definition temp_label (u : temp_unit) : string :=
  match u with Celsius => "°C" | Fahrenheit => "°F" end.

(** What the user has entered when the script runs. *)
Record form : Type := {
  unit_temp : temp_unit;
  unit_mass : mass_unit;
  unit_cp : cp_unit;
  Th_in_input : string;
  Th_out_input : string;
  m_hot_input : string;
  Tc_in_input : string;
  Tc_out_input : string;
  m_cold_input : string;
  Cp_input : string;
  U_input : string;
  A_input : string;
  download_clicked : bool
}.

(** The chart: [x], [T_hot] and [T_cold] are the three arrays of lines
    95 to 97; the hot and the cold line are drawn over [x] and the band
    between them is shaded. *)
Record figure : Type := {
  x : list Z;
  T_hot : list float;
  T_cold : list float;
  ylabel : string
}.

(** The samples the chart draws: a position with the hot and the cold
    temperature there. *)
Definition samples (fig : figure) : list (Z * (float * float)) :=
  combine (x fig) (combine (T_hot fig) (T_cold fig)).

(** *** A reference [st.pyplot]

    Matplotlib lays the chart out on a finite axis whose ticks it
    derives from the span of the finite data.  The reference takes the
    call to raise [ValueError] when that span overflows, as it does for
    1e308 against -1e308, and to draw the chart otherwise; values that
    are not finite are left out of the span. *)

Module PyPlot.

Local Open Scope float_scope.

(** The least and the greatest finite value of a list, if there is one. *)
Definition extent (vs : list float) : option (float * float) :=
  fold_left
    (fun acc v =>
       if is_finite v then
         match acc with
         | None => Some (v, v)
         | Some (lo, hi) =>
             Some (if v <? lo then v else lo, if hi <? v then v else hi)
         end
       else acc)
    vs None.

Definition draw (fig : figure) : result unit :=
  match extent (T_hot fig ++ T_cold fig) with
  | Some (lo, hi) =>
      if is_infinity (hi - lo) then Raise ValueError else Value tt
  | None => Value tt
  end.

End PyPlot.

(** What a run puts on the page below the input widgets. *)
Inductive element : Type :=
  | st_markdown (body : string)
  | st_success (body : string)
  | st_info (body : string)
  | st_pyplot (fig : figure)
  | st_png_link (fig : figure) (download : string).

(** A run writes elements in order and stops at the first exception,
    which leaves on the page what was written before it. *)
Definition script (A : Type) : Type := list element * result A.

Definition ret {A} (a : A) : script A := ([], Value a).

Definition bind {A B} (m : script A) (k : A -> script B) : script B :=
  match m with
  | (out, Value a) => let (out', r) := k a in (out ++ out', r)
  | (out, Raise e) => (out, Raise e)
  end.

Definition emit (el : element) : script unit := ([el], Value tt).

Definition lift {A} (r : result A) : script A := ([], r).

Declare Scope script_scope.
Delimit Scope script_scope with script.
Notation "x <- m ;; k" := (bind m (fun x => k))
  (at level 61, m at next level, right associativity) : script_scope.
Notation "m ;; k" := (bind m (fun _ => k))
  (at level 61, right associativity) : script_scope.

(** The nine text fields, in the order of line 71. *)
Definition text_fields (f : form) : list string :=
  [ Th_in_input f; Th_out_input f; m_hot_input f; Tc_in_input f;
    Tc_out_input f; m_cold_input f; Cp_input f; U_input f; A_input f ].

Section App.

Local Open Scope float_scope.

(** The builtin [float] applied to a [str]: a float or [ValueError]. *)
Variable float : string -> result PrimFloat.float.
Variable np_log : PrimFloat.float -> PrimFloat.float.

(** The drawing of the chart by [st.pyplot(fig)]: it returns, or raises
    inside Matplotlib. *)
Variable pyplot : figure -> result unit.

(** *** Unit conversions (lines 22 to 33)

    The script's helpers read the selectors from global variables; here
    the selector is the first argument.  The divisions have the non-zero
    constants 9 and 1000 as divisor and cannot raise. *)

Definition to_celsius (unit_temp : temp_unit) (temp : PrimFloat.float)
  : PrimFloat.float :=
  match unit_temp with
  | Fahrenheit => (temp - 32) * 5 / 9
  | Celsius => temp
  end.

Definition to_kg (unit_mass : mass_unit) (mass : PrimFloat.float)
  : PrimFloat.float :=
  match unit_mass with
  | lb_per_s => mass * 0.453592
  | kg_per_s => mass
  end.

Definition to_kj_per_kgC (unit_cp : cp_unit) (cp : PrimFloat.float)
  : PrimFloat.float :=
  match unit_cp with
  | J_per_kgC => cp / 1000
  | BTU_per_lbF => cp * 4.1868
  | kJ_per_kgC => cp
  end.

(** *** Parsing (lines 52 to 56): any exception becomes [None]. *)

Definition to_float (val : string) : option PrimFloat.float :=
  match float val with
  | Value v => Some v
  | Raise _ => None
  end.

(** A text field parses when [float] returns on it. *)
Definition parses (val : string) : bool := is_value (float val).

Definition all_parse (f : form) : bool := forallb parses (text_fields f).

(** *** The nine variables of lines 58 to 68 *)

Record variables : Type := {
  Th_in : option PrimFloat.float;
  Th_out : option PrimFloat.float;
  m_hot : option PrimFloat.float;
  Tc_in : option PrimFloat.float;
  Tc_out : option PrimFloat.float;
  m_cold : option PrimFloat.float;
  Cp : option PrimFloat.float;
  U : option PrimFloat.float;
  A : option PrimFloat.float
}.

Definition normalize (f : form) : variables := {|
  Th_in := option_map (to_celsius (unit_temp f)) (to_float (Th_in_input f));
  Th_out := option_map (to_celsius (unit_temp f)) (to_float (Th_out_input f));
  m_hot := option_map (to_kg (unit_mass f)) (to_float (m_hot_input f));
  Tc_in := option_map (to_celsius (unit_temp f)) (to_float (Tc_in_input f));
  Tc_out := option_map (to_celsius (unit_temp f)) (to_float (Tc_out_input f));
  m_cold := option_map (to_kg (unit_mass f)) (to_float (m_cold_input f));
  Cp := option_map (to_kj_per_kgC (unit_cp f)) (to_float (Cp_input f));
  U := to_float (U_input f);
  A := to_float (A_input f)
|}.

(** A complete set of variables: nine floats. *)
Definition complete (Th_in Th_out m_hot Tc_in Tc_out m_cold Cp U A
                     : PrimFloat.float) : variables :=
  {| Th_in := Some Th_in; Th_out := Some Th_out; m_hot := Some m_hot;
     Tc_in := Some Tc_in; Tc_out := Some Tc_out; m_cold := Some m_cold;
     Cp := Some Cp; U := Some U; A := Some A |}.

Definition is_not_None {T} (o : option T) : bool :=
  match o with Some _ => true | None => false end.

(** Line 71. *)
Definition inputs_filled (v : variables) : bool :=
  forallb is_not_None
    [Th_in v; Th_out v; m_hot v; Tc_in v; Tc_out v; m_cold v; Cp v; U v; A v].

(** *** The results branch (lines 74 to 118) *)

Local Open Scope script_scope.
Local Open Scope string_scope.

Definition profile (unit_temp : temp_unit)
    (Th_in Th_out Tc_in Tc_out : PrimFloat.float) : figure := {|
  x := [0%Z; 1%Z];
  T_hot := [Th_in; Th_out];
  T_cold := [Tc_in; Tc_out];
  ylabel := "Temperature (" ++ temp_label unit_temp ++ ")"
|}.

Definition results (unit_temp : temp_unit) (download_clicked : bool)
    (Th_in Th_out m_hot Tc_in Tc_out m_cold Cp : PrimFloat.float)
  : script unit :=
  emit (st_markdown "<hr>") ;;
  emit (st_markdown "### Results Summary") ;;
  let Q_avg := Solver.Q_avg Th_in Th_out m_hot Tc_in Tc_out m_cold Cp in
  LMTD <- lift (Solver.LMTD np_log Th_in Th_out Tc_in Tc_out) ;;
  effectiveness <-
    lift (Solver.effectiveness Th_in Th_out m_hot Tc_in Tc_out m_cold Cp) ;;
  emit (st_success ("Heat Duty (Avg): " ++ PyFloat.format_2f Q_avg ++ " kW")) ;;
  emit (st_success ("Log Mean Temperature Difference (LMTD): "
                    ++ PyFloat.format_2f LMTD ++ " °C")) ;;
  emit (st_success ("Effectiveness: " ++ PyFloat.format_2f effectiveness)) ;;
  emit (st_markdown "<hr>") ;;
  emit (st_markdown "### Temperature Profile Graph") ;;
  let fig := profile unit_temp Th_in Th_out Tc_in Tc_out in
  lift (pyplot fig) ;;
  emit (st_pyplot fig) ;;
  if download_clicked
  then emit (st_png_link fig "temperature_profile.png")
  else ret tt.

(** *** The whole script *)

Definition info_message : string :=
  "Please fill all input fields with valid numeric values to see results and graph.".

Definition page_top : list element :=
  [ st_markdown "<h1 style='text-align: center; color: #004080;'>Heat Exchanger Performance Calculator</h1>";
    st_markdown "<p style='text-align: center; color: gray;'>Analyze Heat Duty, LMTD, and Effectiveness of a Counter-flow Heat Exchanger</p>";
    st_markdown "<hr>";
    st_markdown "### Input Parameters" ].

Definition page_bottom : list element :=
  [ st_markdown "<hr>";
    st_markdown "<div style='text-align: center; color: gray;'>Made by Huzaifa Shahid | AI Data Engineer | Jadavpur University </div>" ].

Definition emit_all (els : list element) : script unit := (els, Value tt).

Definition app (f : form) : script unit :=
  emit_all page_top ;;
  let v := normalize f in
  (if inputs_filled v then
     match Th_in v, Th_out v, m_hot v, Tc_in v, Tc_out v, m_cold v, Cp v with
     | Some Th_in, Some Th_out, Some m_hot, Some Tc_in, Some Tc_out,
       Some m_cold, Some Cp =>
         results (unit_temp f) (download_clicked f)
           Th_in Th_out m_hot Tc_in Tc_out m_cold Cp
     | _, _, _, _, _, _, _ => lift (Raise TypeError)
     end
   else emit (st_info info_message)) ;;
  emit_all page_bottom.

End App.

(** The script with the reference [float], logarithm and chart. *)
Definition run : form -> script unit :=
  app PyFloat.of_string PyFloat.ln PyPlot.draw.

Definition scenario : form := {|
  unit_temp := Celsius; unit_mass := kg_per_s; unit_cp := kJ_per_kgC;
  Th_in_input := "80"; Th_out_input := "50"; m_hot_input := "1";
  Tc_in_input := "20"; Tc_out_input := "45"; m_cold_input := "1.2";
  Cp_input := "4.18"; U_input := "500"; A_input := "10";
  download_clicked := false |}.


(** ** What is on a page *)

Definition is_result (el : element) : bool :=
  match el with st_success _ => true | _ => false end.

Definition is_chart (el : element) : bool :=
  match el with st_pyplot _ => true | _ => false end.

Definition is_info (el : element) : bool :=
  match el with st_info _ => true | _ => false end.

(** The three result lines and the chart are on the page. *)
Definition produced (p : script unit) : bool :=
  (List.length (filter is_result (fst p)) =? 3)%nat
  && (List.length (filter is_chart (fst p)) =? 1)%nat.

(** Neither a result line nor a chart is on the page. *)
Definition withheld (p : script unit) : bool :=
  negb (existsb is_result (fst p)) && negb (existsb is_chart (fst p)).

(** The page of a run that the completeness gate stops. *)
Definition incomplete_page : list element :=
  page_top ++ [st_info info_message] ++ page_bottom.

(** The page of a run in which a formula raises: the script stops after
    the heading of the results. *)
Definition aborted_page : list element :=
  page_top ++ [st_markdown "<hr>"; st_markdown "### Results Summary"].

(** The page of a run in which the drawing of the chart raises: the
    three result lines are written and the script stops after the heading
    of the chart. *)
Definition unplotted_page (Q_avg LMTD effectiveness : float)
  : list element :=
  page_top ++
  [ st_markdown "<hr>";
    st_markdown "### Results Summary";
    st_success ("Heat Duty (Avg): " ++ PyFloat.format_2f Q_avg ++ " kW")%string;
    st_success ("Log Mean Temperature Difference (LMTD): "
                ++ PyFloat.format_2f LMTD ++ " °C")%string;
    st_success ("Effectiveness: " ++ PyFloat.format_2f effectiveness)%string;
    st_markdown "<hr>";
    st_markdown "### Temperature Profile Graph" ].

(** The page of a run that goes through. *)
Definition results_page (unit_temp : temp_unit) (download_clicked : bool)
    (Th_in Th_out Tc_in Tc_out Q_avg LMTD effectiveness : float)
  : list element :=
  page_top ++
  [ st_markdown "<hr>";
    st_markdown "### Results Summary";
    st_success ("Heat Duty (Avg): " ++ PyFloat.format_2f Q_avg ++ " kW")%string;
    st_success ("Log Mean Temperature Difference (LMTD): "
                ++ PyFloat.format_2f LMTD ++ " °C")%string;
    st_success ("Effectiveness: " ++ PyFloat.format_2f effectiveness)%string;
    st_markdown "<hr>";
    st_markdown "### Temperature Profile Graph";
    st_pyplot (profile unit_temp Th_in Th_out Tc_in Tc_out) ] ++
  (if download_clicked
   then [st_png_link (profile unit_temp Th_in Th_out Tc_in Tc_out)
           "temperature_profile.png"]
   else []) ++
  page_bottom.

(** ** Round trips

    The specification asks that each conversion be undone by its inverse
    formula within floating-point tolerance. *)

Local Open Scope float_scope.

(** The inverse formulas.  The script has none; these are the formulas
    the round-trip property of the specification refers to. *)
Definition fahrenheit_of_celsius (c : float) : float := c * 9 / 5 + 32.
Definition lb_of_kg (m : float) : float := m / 0.453592.
Definition J_of_kJ (cp : float) : float := cp * 1000.
Definition BTU_of_kJ (cp : float) : float := cp / 4.1868.

(** Convert, then convert back. *)
Definition round_trip_F (v : float) : float :=
  fahrenheit_of_celsius (to_celsius Fahrenheit v).
Definition round_trip_lb (v : float) : float :=
  lb_of_kg (to_kg lb_per_s v).
Definition round_trip_J (v : float) : float :=
  J_of_kJ (to_kj_per_kgC J_per_kgC v).
Definition round_trip_BTU (v : float) : float :=
  BTU_of_kJ (to_kj_per_kgC BTU_per_lbF v).




(** ** Forms that differ in the coefficient and the area only *)

Definition with_U_A (f : form) (u a : string) : form := {|
  unit_temp := unit_temp f; unit_mass := unit_mass f; unit_cp := unit_cp f;
  Th_in_input := Th_in_input f; Th_out_input := Th_out_input f;
  m_hot_input := m_hot_input f;
  Tc_in_input := Tc_in_input f; Tc_out_input := Tc_out_input f;
  m_cold_input := m_cold_input f;
  Cp_input := Cp_input f; U_input := u; A_input := a;
  download_clicked := download_clicked f |}.

(** ** Forms used as examples *)

(** The scenario with no flow on the hot side. *)
Definition zero_hot_flow : form := {|
  unit_temp := Celsius; unit_mass := kg_per_s; unit_cp := kJ_per_kgC;
  Th_in_input := "80"; Th_out_input := "50"; m_hot_input := "0";
  Tc_in_input := "20"; Tc_out_input := "45"; m_cold_input := "1.2";
  Cp_input := "4.18"; U_input := "500"; A_input := "10";
  download_clicked := false |}.

(** The hot fluid leaves at the temperature at which the cold one
    enters. *)
Definition pinched : form := {|
  unit_temp := Celsius; unit_mass := kg_per_s; unit_cp := kJ_per_kgC;
  Th_in_input := "80"; Th_out_input := "20"; m_hot_input := "1";
  Tc_in_input := "20"; Tc_out_input := "45"; m_cold_input := "1.2";
  Cp_input := "4.18"; U_input := "500"; A_input := "10";
  download_clicked := false |}.

(** Every field holds the text [1]. *)
Definition all_ones : form := {|
  unit_temp := Celsius; unit_mass := kg_per_s; unit_cp := kJ_per_kgC;
  Th_in_input := "1"; Th_out_input := "1"; m_hot_input := "1";
  Tc_in_input := "1"; Tc_out_input := "1"; m_cold_input := "1";
  Cp_input := "1"; U_input := "1"; A_input := "1";
  download_clicked := false |}.

(** The scenario with the area left blank. *)
Definition area_blank : form := {|
  unit_temp := Celsius; unit_mass := kg_per_s; unit_cp := kJ_per_kgC;
  Th_in_input := "80"; Th_out_input := "50"; m_hot_input := "1";
  Tc_in_input := "20"; Tc_out_input := "45"; m_cold_input := "1.2";
  Cp_input := "4.18"; U_input := "500"; A_input := "";
  download_clicked := false |}.

(** Every field holds the text [nan]. *)
Definition all_nan : form := {|
  unit_temp := Celsius; unit_mass := kg_per_s; unit_cp := kJ_per_kgC;
  Th_in_input := "nan"; Th_out_input := "nan"; m_hot_input := "nan";
  Tc_in_input := "nan"; Tc_out_input := "nan"; m_cold_input := "nan";
  Cp_input := "nan"; U_input := "nan"; A_input := "nan";
  download_clicked := false |}.

(** The scenario entered in °F, lb/s and BTU/lb°F. *)
Definition imperial : form := {|
  unit_temp := Fahrenheit; unit_mass := lb_per_s; unit_cp := BTU_per_lbF;
  Th_in_input := "176"; Th_out_input := "122"; m_hot_input := "2.2";
  Tc_in_input := "68"; Tc_out_input := "113"; m_cold_input := "2.65";
  Cp_input := "1"; U_input := "500"; A_input := "10";
  download_clicked := false |}.

(** The scenario with the hot inlet at 1e308 and the cold inlet at
    -1e308: every field parses and no divisor is zero. *)
Definition overflowing_chart : form := {|
  unit_temp := Celsius; unit_mass := kg_per_s; unit_cp := kJ_per_kgC;
  Th_in_input := "1e308"; Th_out_input := "50"; m_hot_input := "1";
  Tc_in_input := "-1e308"; Tc_out_input := "45"; m_cold_input := "1.2";
  Cp_input := "4.18"; U_input := "500"; A_input := "10";
  download_clicked := false |}.

(** No temperature difference anywhere: the exchanger is idle. *)
Definition isothermal : form := {|
  unit_temp := Celsius; unit_mass := kg_per_s; unit_cp := kJ_per_kgC;
  Th_in_input := "25"; Th_out_input := "25"; m_hot_input := "1";
  Tc_in_input := "25"; Tc_out_input := "25"; m_cold_input := "1.2";
  Cp_input := "4.18"; U_input := "500"; A_input := "10";
  download_clicked := false |}.

(** ** Divisors, the download button, blank texts and magnitudes *)

(** A divisor of line 83 or of line 86 is zero: [delta_T2], when the two
    temperature differences differ, or [C_min * (Th_in - Tc_in)]. *)
Definition zero_divisor
    (Th_in Th_out m_hot Tc_in Tc_out m_cold Cp : float) : bool :=
  (PyFloat.ne (Solver.delta_T1 Th_in Tc_out) (Solver.delta_T2 Th_out Tc_in)
   && (Solver.delta_T2 Th_out Tc_in =? 0))
  || (Solver.C_min m_hot m_cold Cp * (Th_in - Tc_in) =? 0).

(** The form with the download button pressed or not. *)
Definition with_download (f : form) (clicked : bool) : form := {|
  unit_temp := unit_temp f; unit_mass := unit_mass f; unit_cp := unit_cp f;
  Th_in_input := Th_in_input f; Th_out_input := Th_out_input f;
  m_hot_input := m_hot_input f;
  Tc_in_input := Tc_in_input f; Tc_out_input := Tc_out_input f;
  m_cold_input := m_cold_input f;
  Cp_input := Cp_input f; U_input := U_input f; A_input := A_input f;
  download_clicked := clicked |}.

Definition is_link (el : element) : bool :=
  match el with st_png_link _ _ => true | _ => false end.



(** A text of white space only. *)
Definition blank (s : string) : bool :=
  forallb PyFloat.is_space (list_ascii_of_string s).

(** Magnitudes for which the heat duties neither overflow nor underflow:
    between [2^-300] and [2^300]. *)
Definition moderate (v : float) : bool :=
  (0x1p-300 <=? abs v) && (abs v <=? 0x1p300).

Definition moderate_or_zero (v : float) : bool := (v =? 0) || moderate v.

(** The scenario with the download button pressed. *)
Definition scenario_clicked : form := with_download scenario true.

(** The scenario with tabs and spaces in the area field. *)
Definition area_spaces : form := {|
  unit_temp := Celsius; unit_mass := kg_per_s; unit_cp := kJ_per_kgC;
  Th_in_input := "80"; Th_out_input := "50"; m_hot_input := "1";
  Tc_in_input := "20"; Tc_out_input := "45"; m_cold_input := "1.2";
  Cp_input := "4.18"; U_input := "500"; A_input := "   ";
  download_clicked := false |}.

(** ** Floats as real numbers

    The accuracy of the unit conversions is stated over the real numbers
    that the floats stand for. *)

Section RealValue.

Local Open Scope R_scope.

(** Two to the power [e]. *)
Definition bpow (e : Z) : R := powerRZ 2 e.

(** The unit roundoff of binary64: half the gap between 1 and the next
    float. *)
Definition roundoff : R := bpow (-53).

Definition sg (s : bool) : R := if s then -1 else 1.

(** The real number a float stands for; the infinities and NaN stand for
    no number and are given zero. *)
Definition SF2R (x : spec_float) : R :=
  match x with
  | S754_finite s m e => sg s * IZR (Zpos m) * bpow e
  | _ => 0
  end.

Definition real (x : float) : R := SF2R (Prim2SF x).

(** A normal float: 53 significant bits. *)
Definition normal (x : float) : Prop :=
  exists s m e, Prim2SF x = S754_finite s m e
                /\ Zpos (digits2_pos m) = 53%Z /\ (-1074 <= e <= 971)%Z.

Definition signed_zero (x : float) : Prop :=
  exists s, Prim2SF x = S754_zero s.

(** Finite and not zero: normal or subnormal. *)
Definition finite_nonzero (x : float) : Prop :=
  exists s m e, Prim2SF x = S754_finite s m e.

(** The mantissa of the powers of two. *)
Definition two52 : positive := 4503599627370496.

(** Where [x] lies in [[m, m + 1)], as the round and sticky bits of a
    shifted mantissa say. *)
Definition inbetween (m : Z) (r s : bool) (x : R) : Prop :=
  match r, s with
  | false, false => x = IZR m
  | false, true => IZR m < x < IZR m + / 2
  | true, false => x = IZR m + / 2
  | true, true => IZR m + / 2 < x < IZR m + 1
  end.

Definition located (mrs : shr_record) (x : R) : Prop :=
  (0 <= shr_m mrs)%Z /\ inbetween (shr_m mrs) (shr_r mrs) (shr_s mrs) x.

(** A signed zero, or a normal float of magnitude between [2^lo] and
    [2^hi]. *)
Definition graded (lo hi : Z) (x : float) : Prop :=
  signed_zero x
  \/ (normal x /\ bpow lo <= Rabs (real x) <= bpow hi).

Fixpoint nat_iter {A} (f : A -> A) (n : nat) (x : A) : A :=
  match n with O => x | S n' => f (nat_iter f n' x) end.

End RealValue.

(** * Properties *)

(** ** The shape of a run *)

Section Runs.

Local Open Scope float_scope.

Variable float : string -> result PrimFloat.float.
Variable np_log : PrimFloat.float -> PrimFloat.float.
Variable pyplot : figure -> result unit.

Lemma to_float_parses (val : string) :
  is_not_None (to_float float val) = parses float val.
Proof. unfold to_float, parses. now destruct (float val). Qed.

Lemma to_float_None (val : string) :
  parses float val = false -> to_float float val = None.
Proof. unfold to_float, parses. now destruct (float val). Qed.

Lemma is_not_None_map {S T} (g : S -> T) (o : option S) :
  is_not_None (option_map g o) = is_not_None o.
Proof. now destruct o. Qed.

(** The gate of line 71 passes exactly when the nine fields parse. *)
Lemma inputs_filled_all_parse (f : form) :
  inputs_filled (normalize float f) = all_parse float f.
Proof.
  unfold inputs_filled, all_parse, normalize, text_fields; cbn [forallb
    Th_in Th_out m_hot Tc_in Tc_out m_cold Cp U A].
  now rewrite !is_not_None_map, !to_float_parses.
Qed.

Lemma inputs_filled_complete (v : variables) :
  inputs_filled v = true <->
  exists Th_in Th_out m_hot Tc_in Tc_out m_cold Cp U A,
    v = complete Th_in Th_out m_hot Tc_in Tc_out m_cold Cp U A.
Proof.
  split.
  - destruct v as [[a|] [b|] [c|] [d|] [e|] [g|] [h|] [i|] [j|]];
      cbn; try discriminate.
    intros _. now exists a, b, c, d, e, g, h, i, j.
  - intros (a & b & c & d & e & g & h & i & j & ->). reflexivity.
Qed.

(** Stopped by the gate: the page is fixed and carries the one message. *)
Lemma app_incomplete (f : form) :
  inputs_filled (normalize float f) = false ->
  app float np_log pyplot f = (incomplete_page, Value tt).
Proof.
  intros H. unfold app. rewrite H. reflexivity.
Qed.

Section Complete.

Variable f : form.
Variables Th_in Th_out m_hot Tc_in Tc_out m_cold Cp U A : PrimFloat.float.
Hypothesis Hv :
  normalize float f = complete Th_in Th_out m_hot Tc_in Tc_out m_cold Cp U A.

Let LMTD := Solver.LMTD np_log Th_in Th_out Tc_in Tc_out.
Let effectiveness :=
  Solver.effectiveness Th_in Th_out m_hot Tc_in Tc_out m_cold Cp.

Lemma app_complete :
  app float np_log pyplot f =
  bind (emit_all page_top) (fun _ =>
  bind (results np_log pyplot (unit_temp f) (download_clicked f)
          Th_in Th_out m_hot Tc_in Tc_out m_cold Cp) (fun _ =>
  emit_all page_bottom)).
Proof.
  unfold app. rewrite Hv. reflexivity.
Qed.

(** Both formulas return and the chart is drawn: the three lines and the
    chart are written. *)
Lemma app_results (lmtd eff : PrimFloat.float) :
  LMTD = Value lmtd -> effectiveness = Value eff ->
  pyplot (profile (unit_temp f) Th_in Th_out Tc_in Tc_out) = Value tt ->
  app float np_log pyplot f =
  (results_page (unit_temp f) (download_clicked f) Th_in Th_out Tc_in Tc_out
     (Solver.Q_avg Th_in Th_out m_hot Tc_in Tc_out m_cold Cp) lmtd eff,
   Value tt).
Proof.
  intros Hl He Hp. rewrite app_complete. unfold results.
  fold LMTD effectiveness. rewrite Hl, He. cbn [lift]. rewrite Hp.
  unfold results_page. now destruct (download_clicked f).
Qed.

(** Both formulas return and the drawing raises: the three lines are
    written and the run stops under the heading of the chart. *)
Lemma app_unplotted (lmtd eff : PrimFloat.float) (e : exn) :
  LMTD = Value lmtd -> effectiveness = Value eff ->
  pyplot (profile (unit_temp f) Th_in Th_out Tc_in Tc_out) = Raise e ->
  app float np_log pyplot f =
  (unplotted_page
     (Solver.Q_avg Th_in Th_out m_hot Tc_in Tc_out m_cold Cp) lmtd eff,
   Raise e).
Proof.
  intros Hl He Hp. rewrite app_complete. unfold results.
  fold LMTD effectiveness. rewrite Hl, He. cbn [lift]. rewrite Hp.
  reflexivity.
Qed.

(** A formula raises: the run stops under the heading of the results. *)
Lemma app_raises (e : exn) :
  LMTD = Raise e
  \/ (is_value LMTD = true /\ effectiveness = Raise e) ->
  app float np_log pyplot f = (aborted_page, Raise e).
Proof.
  intros H. rewrite app_complete. unfold results.
  fold LMTD effectiveness.
  destruct H as [Hl | [Hl He]].
  - rewrite Hl. reflexivity.
  - destruct LMTD as [l|]; [|discriminate]. rewrite He. reflexivity.
Qed.

End Complete.

End Runs.


Local Open Scope float_scope.

(** The divisions of lines 83 and 86 raise exactly on a zero divisor. *)
Lemma zero_divisor_raises_iff
    (np_log : PrimFloat.float -> PrimFloat.float)
    (Th_in Th_out m_hot Tc_in Tc_out m_cold Cp : PrimFloat.float) :
  (zero_divisor Th_in Th_out m_hot Tc_in Tc_out m_cold Cp = true ->
   Solver.LMTD np_log Th_in Th_out Tc_in Tc_out = Raise ZeroDivisionError
   \/ (is_value (Solver.LMTD np_log Th_in Th_out Tc_in Tc_out) = true
       /\ Solver.effectiveness Th_in Th_out m_hot Tc_in Tc_out m_cold Cp
          = Raise ZeroDivisionError))
  /\ (zero_divisor Th_in Th_out m_hot Tc_in Tc_out m_cold Cp = false ->
      exists l y,
        Solver.LMTD np_log Th_in Th_out Tc_in Tc_out = Value l
        /\ Solver.effectiveness Th_in Th_out m_hot Tc_in Tc_out m_cold Cp
           = Value y).
Proof.
  unfold zero_divisor, Solver.LMTD, Solver.effectiveness, PyFloat.truediv.
  destruct (PyFloat.ne (Solver.delta_T1 Th_in Tc_out)
              (Solver.delta_T2 Th_out Tc_in));
    destruct (Solver.delta_T2 Th_out Tc_in =? 0);
    destruct (Solver.C_min m_hot m_cold Cp * (Th_in - Tc_in) =? 0);
    cbn; split; intros H; try discriminate H; eauto.
Qed.

(** A run ends in one of four ways. *)
Lemma app_cases
    (float : string -> result PrimFloat.float)
    (np_log : PrimFloat.float -> PrimFloat.float)
    (pyplot : figure -> result unit) (f : form) :
  (all_parse float f = false
   /\ app float np_log pyplot f = (incomplete_page, Value tt))
  \/ exists a b c d e g h i j,
       normalize float f = complete a b c d e g h i j
       /\ ((zero_divisor a b c d e g h = true
            /\ app float np_log pyplot f
               = (aborted_page, Raise ZeroDivisionError))
           \/ (zero_divisor a b c d e g h = false
               /\ exists l y,
                    Solver.LMTD np_log a b d e = Value l
                    /\ Solver.effectiveness a b c d e g h = Value y
                    /\ ((exists x,
                           pyplot (profile (unit_temp f) a b d e) = Raise x
                           /\ app float np_log pyplot f
                              = (unplotted_page
                                   (Solver.Q_avg a b c d e g h) l y,
                                 Raise x))
                        \/ (pyplot (profile (unit_temp f) a b d e) = Value tt
                            /\ app float np_log pyplot f
                               = (results_page (unit_temp f)
                                    (download_clicked f) a b d e
                                    (Solver.Q_avg a b c d e g h) l y,
                                  Value tt))))).
Proof.
  destruct (inputs_filled (normalize float f)) eqn:Hg.
  - right. apply inputs_filled_complete in Hg.
    destruct Hg as (a & b & c & d & e & g & h & i & j & Hv).
    exists a, b, c, d, e, g, h, i, j. split; [exact Hv|].
    destruct (zero_divisor_raises_iff np_log a b c d e g h) as [Hz Hn].
    destruct (zero_divisor a b c d e g h).
    + left. split; [reflexivity|].
      apply (@app_raises float np_log pyplot f a b c d e g h i j Hv).
      exact (Hz eq_refl).
    + right. split; [reflexivity|].
      destruct (Hn eq_refl) as (l & y & Hl & Hy).
      exists l, y. split; [exact Hl|]. split; [exact Hy|].
      destruct (pyplot (profile (unit_temp f) a b d e)) as [[]|x] eqn:Hp.
      * right. split; [reflexivity|].
        exact (@app_results float np_log pyplot f a b c d e g h i j Hv
                 l y Hl Hy Hp).
      * left. exists x. split; [reflexivity|].
        exact (@app_unplotted float np_log pyplot f a b c d e g h i j Hv
                 l y x Hl Hy Hp).
  - left. split.
    + now rewrite <- inputs_filled_all_parse.
    + exact (@app_incomplete float np_log pyplot f Hg).
Qed.

Lemma complete_inj (a b c d e g h i j a' b' c' d' e' g' h' i' j'
                    : PrimFloat.float) :
  complete a b c d e g h i j = complete a' b' c' d' e' g' h' i' j' ->
  a = a' /\ b = b' /\ c = c' /\ d = d' /\ e = e' /\ g = g' /\ h = h'.
Proof. unfold complete. intros H. injection H. intros; subst. tauto. Qed.

(** ** Zero divisors (C1) *)

(** C1, as stated, fails.  With no hot flow the nine fields parse and
    [C_min * (Th_in - Tc_in)] is zero; the run does not print an infinite
    or NaN effectiveness: it ends in [ZeroDivisionError] with no result
    line and no chart on the page.  The same happens on the pinched form,
    where [delta_T2] is zero and [delta_T1] is not. *)
Lemma zero_divisor_is_not_displayed :
  normalize PyFloat.of_string zero_hot_flow
    = complete 80 50 0 20 45 1.2 4.18 500 10
  /\ (Solver.C_min 0 1.2 4.18 * (80 - 20) =? 0) = true
  /\ run zero_hot_flow = (aborted_page, Raise ZeroDivisionError)
  /\ withheld (run zero_hot_flow) = true
  /\ (Solver.delta_T2 20 20 =? 0) = true
  /\ PyFloat.ne (Solver.delta_T1 80 45) (Solver.delta_T2 20 20) = true
  /\ run pinched = (aborted_page, Raise ZeroDivisionError).
Proof. repeat split; vm_compute; reflexivity. Qed.

Lemma LMTD_raises_on_zero_only
    (np_log : PrimFloat.float -> PrimFloat.float)
    (Th_in Th_out Tc_in Tc_out : PrimFloat.float) (e : exn) :
  Solver.LMTD np_log Th_in Th_out Tc_in Tc_out = Raise e ->
  e = ZeroDivisionError.
Proof.
  unfold Solver.LMTD, PyFloat.truediv.
  destruct (PyFloat.ne _ _); [|discriminate].
  destruct (Solver.delta_T2 Th_out Tc_in =? 0); cbn; congruence.
Qed.

(** C1, amended: for every complete set of nine parsed inputs such that
    [C_min * (Th_in - Tc_in)] is zero, the effectiveness division raises
    [ZeroDivisionError]: the run stops under the results heading, before
    any result line or chart is written, so nothing non-finite is
    displayed.  The same holds when [delta_T2] is zero and differs from
    [delta_T1]. *)
Theorem zero_divisor_raises
    (float : string -> result PrimFloat.float)
    (np_log : PrimFloat.float -> PrimFloat.float)
    (pyplot : figure -> result unit) (f : form)
    (Th_in Th_out m_hot Tc_in Tc_out m_cold Cp U A : PrimFloat.float) :
  normalize float f
    = complete Th_in Th_out m_hot Tc_in Tc_out m_cold Cp U A ->
  (Solver.C_min m_hot m_cold Cp * (Th_in - Tc_in) =? 0) = true
  \/ ((Th_out - Tc_in =? 0) = true
      /\ PyFloat.ne (Th_in - Tc_out) (Th_out - Tc_in) = true) ->
  app float np_log pyplot f = (aborted_page, Raise ZeroDivisionError)
  /\ withheld (app float np_log pyplot f) = true.
Proof.
  intros Hv Hz.
  assert (Hrun : app float np_log pyplot f = (aborted_page, Raise ZeroDivisionError)).
  { apply (@app_raises float np_log pyplot f Th_in Th_out m_hot Tc_in Tc_out m_cold Cp U A Hv).
    destruct Hz as [He | [H2 Hne]].
    - destruct (Solver.LMTD np_log Th_in Th_out Tc_in Tc_out) as [l|e] eqn:Hl.
      + right. split; [reflexivity|].
        unfold Solver.effectiveness, PyFloat.truediv. now rewrite He.
      + left. now rewrite (@LMTD_raises_on_zero_only np_log Th_in Th_out Tc_in Tc_out e Hl).
    - left. unfold Solver.LMTD, Solver.delta_T1, Solver.delta_T2,
        PyFloat.truediv. now rewrite Hne, H2. }
  now rewrite Hrun.
Qed.

Lemma zero_divisor_raises_witness :
  run zero_hot_flow = (aborted_page, Raise ZeroDivisionError)
  /\ withheld (run zero_hot_flow) = true.
Proof.
  apply (@zero_divisor_raises PyFloat.of_string PyFloat.ln PyPlot.draw zero_hot_flow
           80 50 0 20 45 1.2 4.18 500 10).
  - vm_compute; reflexivity.
  - left; vm_compute; reflexivity.
Defined.

(** ** The completeness gate (C2) *)

(** C2, as stated, fails in both directions.  The nine fields of
    [all_ones] parse, the gate passes, and neither a result line nor the
    chart is produced, because the effectiveness divides by
    [1 * (1 - 1)].  And a field that holds no number is not always
    refused: with the text [nan] in every field the gate passes, there is
    no informational message and the three result lines are printed. *)
Lemma parsed_fields_without_results :
  all_parse PyFloat.of_string all_ones = true
  /\ inputs_filled (normalize PyFloat.of_string all_ones) = true
  /\ produced (run all_ones) = false
  /\ run all_ones = (aborted_page, Raise ZeroDivisionError)
  /\ all_parse PyFloat.of_string all_nan = true
  /\ inputs_filled (normalize PyFloat.of_string all_nan) = true
  /\ existsb is_info (fst (run all_nan)) = false
  /\ In (st_success "Heat Duty (Avg): nan kW") (fst (run all_nan))
  /\ In (st_success "Effectiveness: nan") (fst (run all_nan)).
Proof.
  repeat split; try (vm_compute; reflexivity); vm_compute; tauto.
Qed.

Lemma produced_incomplete : produced (incomplete_page, Value tt) = false.
Proof. reflexivity. Qed.

Lemma produced_aborted (e : exn) : produced (aborted_page, Raise e) = false.
Proof. reflexivity. Qed.

Lemma produced_unplotted (q l y : PrimFloat.float) (e : exn) :
  produced (unplotted_page q l y, Raise e) = false.
Proof. reflexivity. Qed.

Lemma produced_results (u : temp_unit) (clicked : bool)
    (a b d e q l y : PrimFloat.float) :
  produced (results_page u clicked a b d e q l y, Value tt) = true.
Proof. unfold results_page. now destruct clicked. Qed.

(** C2, amended: for every assignment of the nine text fields, the gate
    passes if and only if [float] returns on all nine fields (as it does
    on the words [nan] and [inf]); when it raises on any field the page is
    the fixed one with exactly one informational message, no result line
    and no chart, whatever the other fields hold.  When the gate passes,
    a zero divisor of line 83 or of line 86 raises [ZeroDivisionError]
    under the heading of the results, with no result line and no chart;
    the results and the chart are produced if and only if no divisor is
    zero and the chart is drawn, that is, if and only if the nine fields
    parse and the run raises nothing. *)
Theorem gate_and_results
    (float : string -> result PrimFloat.float)
    (np_log : PrimFloat.float -> PrimFloat.float)
    (pyplot : figure -> result unit) (f : form) :
  inputs_filled (normalize float f) = all_parse float f
  /\ (all_parse float f = false ->
      app float np_log pyplot f = (incomplete_page, Value tt)
      /\ List.length (filter is_info (fst (app float np_log pyplot f))) = 1%nat
      /\ withheld (app float np_log pyplot f) = true)
  /\ (forall a b c d e g h i j,
        normalize float f = complete a b c d e g h i j ->
        all_parse float f = true
        /\ (zero_divisor a b c d e g h = true ->
            app float np_log pyplot f
            = (aborted_page, Raise ZeroDivisionError)
            /\ withheld (app float np_log pyplot f) = true)
        /\ (produced (app float np_log pyplot f) = true <->
            zero_divisor a b c d e g h = false
            /\ pyplot (profile (unit_temp f) a b d e) = Value tt))
  /\ (produced (app float np_log pyplot f) = true <->
      all_parse float f = true /\ snd (app float np_log pyplot f) = Value tt).
Proof.
  split; [apply inputs_filled_all_parse|]. split; [|split].
  - intros H. rewrite <- inputs_filled_all_parse in H.
    rewrite (@app_incomplete float np_log pyplot f H). now repeat split.
  - intros a b c d e g h i j Hv.
    assert (Hp : all_parse float f = true).
    { rewrite <- inputs_filled_all_parse, Hv. reflexivity. }
    split; [exact Hp|].
    destruct (app_cases float np_log pyplot f)
      as [[Hn _] | (a' & b' & c' & d' & e' & g' & h' & i' & j' & Hv' & Hc)];
      [congruence|].
    rewrite Hv in Hv'. apply complete_inj in Hv'.
    destruct Hv' as (<- & <- & <- & <- & <- & <- & <-).
    destruct Hc as [[Hz Hrun] | (Hz & l & y & _ & _ & Hc)].
    + rewrite Hrun, Hz. split; [now split|].
      rewrite produced_aborted.
      split; [discriminate | intros [? _]; discriminate].
    + rewrite Hz. split; [discriminate|].
      destruct Hc as [(x & Hx & Hrun) | [Hx Hrun]]; rewrite Hrun, Hx.
      * rewrite produced_unplotted.
        split; [discriminate | intros [_ ?]; discriminate].
      * rewrite produced_results. now split.
  - destruct (app_cases float np_log pyplot f)
      as [[Hn Hrun] | (a & b & c & d & e & g & h & i & j & Hv & Hc)].
    + rewrite Hrun, Hn, produced_incomplete.
      split; [discriminate | intros [? _]; discriminate].
    + assert (Hp : all_parse float f = true).
      { rewrite <- inputs_filled_all_parse, Hv. reflexivity. }
      rewrite Hp.
      destruct Hc as [[Hz Hrun] | (Hz & l & y & _ & _ & Hc)].
      * rewrite Hrun, produced_aborted. cbn [snd].
        split; [discriminate | intros [_ ?]; discriminate].
      * destruct Hc as [(x & Hx & Hrun) | [Hx Hrun]]; rewrite Hrun.
        -- rewrite produced_unplotted. cbn [snd].
           split; [discriminate | intros [_ ?]; discriminate].
        -- rewrite produced_results. now split.
Qed.

Lemma gate_and_results_witness :
  (run area_blank = (incomplete_page, Value tt)
   /\ List.length (filter is_info (fst (run area_blank))) = 1%nat
   /\ withheld (run area_blank) = true)
  /\ (run all_ones = (aborted_page, Raise ZeroDivisionError)
      /\ withheld (run all_ones) = true).
Proof.
  split.
  - apply (proj1 (proj2 (gate_and_results PyFloat.of_string PyFloat.ln
                           PyPlot.draw area_blank))).
    vm_compute; reflexivity.
  - apply (proj1 (proj2 (proj1 (proj2 (proj2
             (gate_and_results PyFloat.of_string PyFloat.ln PyPlot.draw
                all_ones)))
             1 1 1 1 1 1 1 1 1 ltac:(vm_compute; reflexivity)))).
    vm_compute; reflexivity.
Defined.

(** ** The log-mean temperature difference (C3) *)

(** C3, as stated, fails where [delta_T2] is zero and [delta_T1] is not:
    on the pinched point, 35 against 0, the quotient raises and the script
    has no LMTD. *)
Lemma LMTD_of_pinched_point :
  (Solver.delta_T1 80 45 =? 35) = true
  /\ (Solver.delta_T2 20 20 =? 0) = true
  /\ Solver.LMTD PyFloat.ln 80 20 20 45 = Raise ZeroDivisionError.
Proof. repeat split; vm_compute; reflexivity. Qed.

(** C3, amended: with [dT1 = Th_in - Tc_out] and [dT2 = Th_out - Tc_in],
    the LMTD is [dT1] when [dT1 = dT2], and is
    [(dT1 - dT2) / ln (dT1 / dT2)] when [dT1 <> dT2] and [dT2] is not zero;
    when [dT2] is zero and [dT1] is not, the quotient raises
    [ZeroDivisionError] and there is no LMTD. *)
Theorem LMTD_cases
    (np_log : PrimFloat.float -> PrimFloat.float)
    (Th_in Th_out Tc_in Tc_out : PrimFloat.float) :
  ((Th_in - Tc_out =? Th_out - Tc_in) = true ->
   Solver.LMTD np_log Th_in Th_out Tc_in Tc_out = Value (Th_in - Tc_out))
  /\ ((Th_in - Tc_out =? Th_out - Tc_in) = false ->
      (Th_out - Tc_in =? 0) = false ->
      Solver.LMTD np_log Th_in Th_out Tc_in Tc_out
      = Value (((Th_in - Tc_out) - (Th_out - Tc_in))
               / np_log ((Th_in - Tc_out) / (Th_out - Tc_in))))
  /\ ((Th_in - Tc_out =? Th_out - Tc_in) = false ->
      (Th_out - Tc_in =? 0) = true ->
      Solver.LMTD np_log Th_in Th_out Tc_in Tc_out
      = Raise ZeroDivisionError).
Proof.
  unfold Solver.LMTD, Solver.delta_T1, Solver.delta_T2, PyFloat.ne,
    PyFloat.truediv, PyFloat.np_truediv.
  repeat split; intros H; try intros H0; rewrite H; cbn [negb];
    try rewrite H0; reflexivity.
Qed.

Lemma LMTD_cases_witness :
  Solver.LMTD PyFloat.ln 80 50 20 45
  = Value ((80 - 45 - (50 - 20)) / PyFloat.ln ((80 - 45) / (50 - 20))).
Proof.
  exact (proj1 (proj2 (LMTD_cases PyFloat.ln 80 50 20 45))
           eq_refl eq_refl).
Defined.


(** ** Parse failures (C4) *)

Lemma all_parse_In
    (float : string -> result PrimFloat.float) (f : form) (s : string) :
  In s (text_fields f) -> parses float s = false ->
  all_parse float f = false.
Proof.
  intros Hin Hs. unfold all_parse.
  destruct (forallb (parses float) (text_fields f)) eqn:Hall; [|reflexivity].
  rewrite forallb_forall in Hall. rewrite (Hall s Hin) in Hs. discriminate.
Qed.


(** *** Texts that the reference [float] refuses *)

Lemma lstrip_blank (s : list ascii) :
  forallb PyFloat.is_space s = true -> PyFloat.lstrip s = [].
Proof.
  induction s as [|c s IH]; [reflexivity|]. cbn [forallb PyFloat.lstrip].
  intros H. apply andb_true_iff in H. destruct H as [Hc Hs].
  rewrite Hc. exact (IH Hs).
Qed.

Lemma of_string_blank (s : string) :
  blank s = true -> PyFloat.of_string s = Raise ValueError.
Proof.
  unfold blank, PyFloat.of_string, PyFloat.of_chars, PyFloat.strip.
  intros H. rewrite (@lstrip_blank _ H). reflexivity.
Qed.













(** ** Unit conversions (C5) *)

(** C5: a Fahrenheit temperature becomes [(value - 32) * 5 / 9] and a
    Celsius one is unchanged; a mass flow in lb/s is multiplied by
    0.453592 and one in kg/s is unchanged; a specific heat in J/kg°C is
    divided by 1000, one in BTU/lb°F is multiplied by 4.1868 and one in
    kJ/kg°C is unchanged; and these are the values the nine variables
    take when the fields parse, the coefficient and the area being kept
    as parsed. *)
Theorem unit_normalizer
    (float : string -> result PrimFloat.float) (f : form)
    (a b c d e g h i j : PrimFloat.float) :
  float (Th_in_input f) = Value a -> float (Th_out_input f) = Value b ->
  float (m_hot_input f) = Value c -> float (Tc_in_input f) = Value d ->
  float (Tc_out_input f) = Value e -> float (m_cold_input f) = Value g ->
  float (Cp_input f) = Value h -> float (U_input f) = Value i ->
  float (A_input f) = Value j ->
  normalize float f
  = complete (to_celsius (unit_temp f) a) (to_celsius (unit_temp f) b)
      (to_kg (unit_mass f) c)
      (to_celsius (unit_temp f) d) (to_celsius (unit_temp f) e)
      (to_kg (unit_mass f) g)
      (to_kj_per_kgC (unit_cp f) h) i j
  /\ (forall v, to_celsius Fahrenheit v = (v - 32) * 5 / 9)
  /\ (forall v, to_celsius Celsius v = v)
  /\ (forall v, to_kg lb_per_s v = v * 0.453592)
  /\ (forall v, to_kg kg_per_s v = v)
  /\ (forall v, to_kj_per_kgC J_per_kgC v = v / 1000)
  /\ (forall v, to_kj_per_kgC BTU_per_lbF v = v * 4.1868)
  /\ (forall v, to_kj_per_kgC kJ_per_kgC v = v).
Proof.
  intros Ha Hb Hc Hd He Hg Hh Hi Hj.
  split; [|now repeat split].
  unfold normalize, to_float.
  now rewrite Ha, Hb, Hc, Hd, He, Hg, Hh, Hi, Hj.
Qed.

Lemma unit_normalizer_witness :
  normalize PyFloat.of_string imperial
  = complete (to_celsius Fahrenheit 176) (to_celsius Fahrenheit 122)
      (to_kg lb_per_s 2.2)
      (to_celsius Fahrenheit 68) (to_celsius Fahrenheit 113)
      (to_kg lb_per_s 2.65)
      (to_kj_per_kgC BTU_per_lbF 1) 500 10
  /\ (forall v, to_celsius Fahrenheit v = (v - 32) * 5 / 9)
  /\ (forall v, to_celsius Celsius v = v)
  /\ (forall v, to_kg lb_per_s v = v * 0.453592)
  /\ (forall v, to_kg kg_per_s v = v)
  /\ (forall v, to_kj_per_kgC J_per_kgC v = v / 1000)
  /\ (forall v, to_kj_per_kgC BTU_per_lbF v = v * 4.1868)
  /\ (forall v, to_kj_per_kgC kJ_per_kgC v = v).
Proof.
  apply (@unit_normalizer PyFloat.of_string imperial
           176 122 2.2 68 113 2.65 1 500 10);
    vm_compute; reflexivity.
Defined.

(** ** Effectiveness (C6) *)

(** C6, as stated, fails on the idle exchanger: the input is complete,
    the LMTD is computed (it is zero), and the effectiveness has no value
    because its divisor [C_min * (Th_in - Tc_in)] is zero. *)
Lemma effectiveness_of_idle_exchanger :
  normalize PyFloat.of_string isothermal
    = complete 25 25 1 25 25 1.2 4.18 500 10
  /\ Solver.LMTD PyFloat.ln 25 25 25 25 = Value 0
  /\ Solver.effectiveness 25 25 1 25 25 1.2 4.18 = Raise ZeroDivisionError
  /\ run isothermal = (aborted_page, Raise ZeroDivisionError).
Proof. repeat split; vm_compute; reflexivity. Qed.

(** C6, amended: for every complete normalized input on which
    [C_min * (Th_in - Tc_in)] is not zero, the effectiveness is
    [Q_avg / (C_min * (Th_in - Tc_in))] with
    [C_min = min (m_hot * Cp) (m_cold * Cp)]; when that product is zero
    the division raises [ZeroDivisionError] and there is no
    effectiveness; on the scenario [C_min] is 4.18, the effectiveness is
    within 0.01 of 0.50 and is displayed as [0.50]. *)
Theorem effectiveness_formula :
  (forall Th_in Th_out m_hot Tc_in Tc_out m_cold Cp : PrimFloat.float,
     (PyFloat.min (m_hot * Cp) (m_cold * Cp) * (Th_in - Tc_in) =? 0) = false ->
     Solver.effectiveness Th_in Th_out m_hot Tc_in Tc_out m_cold Cp
     = Value ((m_hot * Cp * (Th_in - Th_out)
               + m_cold * Cp * (Tc_out - Tc_in)) / 2
              / (PyFloat.min (m_hot * Cp) (m_cold * Cp) * (Th_in - Tc_in))))
  /\ (forall Th_in Th_out m_hot Tc_in Tc_out m_cold Cp : PrimFloat.float,
        (PyFloat.min (m_hot * Cp) (m_cold * Cp) * (Th_in - Tc_in) =? 0) = true ->
        Solver.effectiveness Th_in Th_out m_hot Tc_in Tc_out m_cold Cp
        = Raise ZeroDivisionError)
  /\ Solver.C_min 1 1.2 4.18 = 4.18
  /\ (exists e,
        Solver.effectiveness 80 50 1 20 45 1.2 4.18 = Value e
        /\ PyFloat.within e (1 # 2) (1 # 100) = true)
  /\ In (st_success "Effectiveness: 0.50") (fst (run scenario)).
Proof.
  split; [|split; [|split; [|split]]].
  - intros Th_in Th_out m_hot Tc_in Tc_out m_cold Cp H.
    unfold Solver.effectiveness, PyFloat.truediv, Solver.C_min.
    now rewrite H.
  - intros Th_in Th_out m_hot Tc_in Tc_out m_cold Cp H.
    unfold Solver.effectiveness, PyFloat.truediv, Solver.C_min.
    now rewrite H.
  - vm_compute; reflexivity.
  - eexists. split; vm_compute; reflexivity.
  - vm_compute. tauto.
Qed.

Lemma effectiveness_formula_witness :
  Solver.effectiveness 80 50 1 20 45 1.2 4.18
  = Value ((1 * 4.18 * (80 - 50) + 1.2 * 4.18 * (45 - 20)) / 2
           / (PyFloat.min (1 * 4.18) (1.2 * 4.18) * (80 - 20)))
  /\ Solver.effectiveness 25 25 1 25 25 1.2 4.18 = Raise ZeroDivisionError.
Proof.
  split.
  - exact (proj1 effectiveness_formula 80 50 1 20 45 1.2 4.18 eq_refl).
  - exact (proj1 (proj2 effectiveness_formula) 25 25 1 25 25 1.2 4.18
             eq_refl).
Defined.

(** ** The energy balance of the scenario (C7) *)

(** C7: on the scenario the nine fields parse to the stated values and
    the solver computes the hot duty, the cold duty and their mean
    [Q_avg = (Q_hot + Q_cold) / 2], each equal to 125.4 kW within
    [3e-14], and within a relative [1e-15] of the float 125.4 (they are
    the floats 125.39999999999999 and 125.39999999999998, one or two
    units in the last place below it); the heat duty is displayed as
    [125.40 kW]. *)
Theorem scenario_energy_balance :
  normalize PyFloat.of_string scenario
    = complete 80 50 1 20 45 1.2 4.18 500 10
  /\ Solver.Q_hot 80 50 1 4.18 = 125.39999999999999
  /\ Solver.Q_cold 20 45 1.2 4.18 = 125.39999999999998
  /\ Solver.Q_avg 80 50 1 20 45 1.2 4.18
     = (Solver.Q_hot 80 50 1 4.18 + Solver.Q_cold 20 45 1.2 4.18) / 2
  /\ Solver.Q_avg 80 50 1 20 45 1.2 4.18 = 125.39999999999998
  /\ PyFloat.within (Solver.Q_hot 80 50 1 4.18)
       (1254 # 10) (3 # 100000000000000) = true
  /\ PyFloat.within (Solver.Q_cold 20 45 1.2 4.18)
       (1254 # 10) (3 # 100000000000000) = true
  /\ PyFloat.within (Solver.Q_avg 80 50 1 20 45 1.2 4.18)
       (1254 # 10) (3 # 100000000000000) = true
  /\ PyFloat.isclose 1e-15 0 (Solver.Q_hot 80 50 1 4.18) 125.4 = true
  /\ PyFloat.isclose 1e-15 0 (Solver.Q_cold 20 45 1.2 4.18) 125.4 = true
  /\ PyFloat.isclose 1e-15 0 (Solver.Q_avg 80 50 1 20 45 1.2 4.18) 125.4
     = true
  /\ In (st_success "Heat Duty (Avg): 125.40 kW") (fst (run scenario)).
Proof.
  repeat split; try (vm_compute; reflexivity).
  vm_compute. tauto.
Qed.

(** ** The temperature profile (C9) *)

(** C9, as stated, fails: not every complete normalized input gets a
    chart.  The nine fields of the idle exchanger parse, and the run
    raises [ZeroDivisionError] before the chart is built.  With the hot
    inlet at 1e308 and the cold inlet at -1e308 the nine fields parse,
    no divisor is zero and the three result lines are written, and the
    drawing of the chart raises [ValueError]: the page has no chart. *)
Lemma complete_input_without_chart :
  normalize PyFloat.of_string isothermal
    = complete 25 25 1 25 25 1.2 4.18 500 10
  /\ run isothermal = (aborted_page, Raise ZeroDivisionError)
  /\ existsb is_chart (fst (run isothermal)) = false
  /\ normalize PyFloat.of_string overflowing_chart
     = complete 1e308 50 1 (-1e308) 45 1.2 4.18 500 10
  /\ zero_divisor 1e308 50 1 (-1e308) 45 1.2 4.18 = false
  /\ PyPlot.draw (profile Celsius 1e308 50 (-1e308) 45) = Raise ValueError
  /\ snd (run overflowing_chart) = Raise ValueError
  /\ List.length (filter is_result (fst (run overflowing_chart))) = 3%nat
  /\ existsb is_chart (fst (run overflowing_chart)) = false.
Proof. repeat split; vm_compute; reflexivity. Qed.

(** C9, amended: for every complete normalized input the chart handed
    to [st.pyplot] has exactly two samples, in order: position 0 with the
    hot and the cold inlet temperature and position 1 with the hot and
    the cold outlet temperature, as normalized and otherwise unchanged.
    A chart is on the page if and only if no divisor of line 83 or of
    line 86 is zero and the drawing raises nothing; it is then this
    chart, and the only one. *)
Theorem profile_samples
    (float : string -> result PrimFloat.float)
    (np_log : PrimFloat.float -> PrimFloat.float)
    (pyplot : figure -> result unit) (f : form)
    (a b c d e g h i j : PrimFloat.float) :
  normalize float f = complete a b c d e g h i j ->
  samples (profile (unit_temp f) a b d e)
  = [(0%Z, (a, d)); (1%Z, (b, e))]
  /\ (forall fig,
        In (st_pyplot fig) (fst (app float np_log pyplot f)) <->
        fig = profile (unit_temp f) a b d e
        /\ zero_divisor a b c d e g h = false
        /\ pyplot (profile (unit_temp f) a b d e) = Value tt)
  /\ (zero_divisor a b c d e g h = false ->
      pyplot (profile (unit_temp f) a b d e) = Value tt ->
      filter is_chart (fst (app float np_log pyplot f))
      = [st_pyplot (profile (unit_temp f) a b d e)])
  /\ (zero_divisor a b c d e g h = true ->
      existsb is_chart (fst (app float np_log pyplot f)) = false).
Proof.
  intros Hv. split; [reflexivity|].
  destruct (app_cases float np_log pyplot f)
    as [[Hn _] | (a' & b' & c' & d' & e' & g' & h' & i' & j' & Hv' & Hc)].
  { rewrite <- inputs_filled_all_parse, Hv in Hn. discriminate. }
  rewrite Hv in Hv'. apply complete_inj in Hv'.
  destruct Hv' as (<- & <- & <- & <- & <- & <- & <-).
  destruct Hc as [[Hz Hrun] | (Hz & l & y & _ & _ & Hc)].
  - rewrite Hrun, Hz. split; [|split]; try discriminate; [|reflexivity].
    intros fig. split.
    + cbn. intros H.
      repeat (destruct H as [H|H]; try discriminate H). contradiction.
    + intros (_ & H & _). discriminate.
  - rewrite Hz.
    destruct Hc as [(x & Hx & Hrun) | [Hx Hrun]]; rewrite Hrun, Hx.
    + split; [|split]; try discriminate.
      intros fig. split.
      * cbn. intros H.
        repeat (destruct H as [H|H]; try discriminate H). contradiction.
      * intros (_ & _ & H). discriminate.
    + split; [|split]; try discriminate.
      * intros fig. unfold results_page. split.
        -- destruct (download_clicked f); cbn; intros H;
             repeat (destruct H as [H|H]; try discriminate H);
             try contradiction; injection H as <-; now repeat split.
        -- intros (-> & _). destruct (download_clicked f); cbn; tauto.
      * intros _ _. unfold results_page.
        now destruct (download_clicked f).
Qed.

Lemma profile_samples_witness :
  samples (profile Celsius 80 50 20 45)
  = [(0%Z, (80, 20)); (1%Z, (50, 45))]
  /\ In (st_pyplot (profile Celsius 80 50 20 45)) (fst (run scenario)).
Proof.
  pose proof (@profile_samples PyFloat.of_string PyFloat.ln PyPlot.draw
                scenario 80 50 1 20 45 1.2 4.18 500 10
                ltac:(vm_compute; reflexivity)) as H.
  split; [exact (proj1 H)|].
  apply (proj2 (proj1 (proj2 H) (profile Celsius 80 50 20 45))).
  repeat split; vm_compute; reflexivity.
Defined.

(** ** The coefficient and the area (C10) *)

(** C10: the gate passes only if the coefficient and the area parse; and
    two forms that differ only in the texts of these two fields, both
    parsing in both forms, give the same run: the same page, with the
    same result lines and chart, or the same exception. *)
Theorem U_and_A_only_gate
    (float : string -> result PrimFloat.float)
    (np_log : PrimFloat.float -> PrimFloat.float)
    (pyplot : figure -> result unit)
    (f : form) (u a u' a' : string) :
  (inputs_filled (normalize float f) = true ->
   parses float (U_input f) = true /\ parses float (A_input f) = true)
  /\ (parses float u = true -> parses float a = true ->
      parses float u' = true -> parses float a' = true ->
      app float np_log pyplot (with_U_A f u a)
      = app float np_log pyplot (with_U_A f u' a')).
Proof.
  split.
  - rewrite inputs_filled_all_parse. unfold all_parse, text_fields.
    cbn [forallb]. rewrite !andb_true_iff. tauto.
  - unfold parses, app, inputs_filled, normalize, to_float.
    cbn [with_U_A U_input A_input Th_in_input Th_out_input m_hot_input
         Tc_in_input Tc_out_input m_cold_input Cp_input unit_temp unit_mass
         unit_cp download_clicked Th_in Th_out m_hot Tc_in Tc_out m_cold
         Cp U A].
    destruct (float u), (float a), (float u'), (float a');
      try discriminate; reflexivity.
Qed.

Lemma U_and_A_only_gate_witness :
  run (with_U_A scenario "500" "10") = run (with_U_A scenario "1e6" "0.001").
Proof.
  apply (proj2 (U_and_A_only_gate PyFloat.of_string PyFloat.ln PyPlot.draw
                  scenario "500" "10" "1e6" "0.001"));
    vm_compute; reflexivity.
Defined.


(** ** Round trips of the unit conversions (C8): the ends of the range

    The round trips themselves are proved with the accuracy of the
    arithmetic, in the last part. *)








(** * Further properties of the script *)

(** ** The pages of a run (lines 8 to 13 and 71 to 125) *)

(** X1: a run raises exactly when the nine fields parse and either a
    divisor of line 83 or of line 86 is zero on the normalized values,
    or no divisor is zero and the drawing of the chart raises.  In the
    first case the exception is [ZeroDivisionError] and the page is cut
    under the heading of the results; in the second it is the exception
    of [st.pyplot] and the page is cut under the heading of the chart,
    after the three result lines.  A text that does not parse never
    makes the run raise. *)
Theorem run_raises_iff
    (float : string -> result PrimFloat.float)
    (np_log : PrimFloat.float -> PrimFloat.float)
    (pyplot : figure -> result unit) (f : form) (x : exn) :
  (snd (app float np_log pyplot f) = Raise x <->
   exists a b c d e g h i j,
     normalize float f = complete a b c d e g h i j
     /\ ((zero_divisor a b c d e g h = true /\ x = ZeroDivisionError)
         \/ (zero_divisor a b c d e g h = false
             /\ pyplot (profile (unit_temp f) a b d e) = Raise x)))
  /\ (forall a b c d e g h i j,
        normalize float f = complete a b c d e g h i j ->
        (zero_divisor a b c d e g h = true ->
         app float np_log pyplot f = (aborted_page, Raise ZeroDivisionError))
        /\ (zero_divisor a b c d e g h = false ->
            pyplot (profile (unit_temp f) a b d e) = Raise x ->
            exists l y,
              Solver.LMTD np_log a b d e = Value l
              /\ Solver.effectiveness a b c d e g h = Value y
              /\ app float np_log pyplot f
                 = (unplotted_page (Solver.Q_avg a b c d e g h) l y,
                    Raise x)))
  /\ (all_parse float f = false ->
      snd (app float np_log pyplot f) = Value tt).
Proof.
  destruct (app_cases float np_log pyplot f)
    as [[Hp Hrun] | (a & b & c & d & e & g & h & i & j & Hv & Hc)].
  - rewrite Hrun. cbn [fst snd]. split; [split|split].
    + discriminate.
    + intros (a & b & c & d & e & g & h & i & j & Hv & _).
      rewrite <- inputs_filled_all_parse, Hv in Hp. discriminate.
    + intros a b c d e g h i j Hv.
      rewrite <- inputs_filled_all_parse, Hv in Hp. discriminate.
    + reflexivity.
  - assert (Hp : all_parse float f = true).
    { rewrite <- inputs_filled_all_parse, Hv. reflexivity. }
    assert (Hinv : forall a' b' c' d' e' g' h' i' j',
               normalize float f = complete a' b' c' d' e' g' h' i' j' ->
               a' = a /\ b' = b /\ c' = c /\ d' = d /\ e' = e /\ g' = g
               /\ h' = h).
    { intros a' b' c' d' e' g' h' i' j' Hv'. rewrite Hv in Hv'.
      apply complete_inj in Hv'. intuition congruence. }
    split; [|split; [|rewrite Hp; discriminate]].
    + split.
      * intros Hx. exists a, b, c, d, e, g, h, i, j. split; [exact Hv|].
        destruct Hc as [[Hz Hrun] | (Hz & l & y & _ & _ & Hc)].
        -- left. rewrite Hrun in Hx. cbn [snd] in Hx. split; congruence.
        -- right. split; [exact Hz|].
           destruct Hc as [(x' & Hx' & Hrun) | [Hx' Hrun]];
             rewrite Hrun in Hx; cbn [snd] in Hx; congruence.
      * intros (a' & b' & c' & d' & e' & g' & h' & i' & j' & Hv' & Hx).
        destruct (Hinv _ _ _ _ _ _ _ _ _ Hv')
          as (-> & -> & -> & -> & -> & -> & ->).
        destruct Hc as [[Hz Hrun] | (Hz & l & y & _ & _ & Hc)].
        -- rewrite Hrun. cbn [snd].
           destruct Hx as [[_ ->] | [Hz' _]]; congruence.
        -- destruct Hx as [[Hz' _] | [_ Hx]]; [congruence|].
           destruct Hc as [(x' & Hx' & Hrun) | [Hx' Hrun]];
             rewrite Hrun; cbn [snd]; congruence.
    + intros a' b' c' d' e' g' h' i' j' Hv'.
      destruct (Hinv _ _ _ _ _ _ _ _ _ Hv')
        as (-> & -> & -> & -> & -> & -> & ->).
      destruct Hc as [[Hz Hrun] | (Hz & l & y & Hl & Hy & Hc)].
      * split; [intros _; exact Hrun | congruence].
      * split; [congruence|]. intros _ Hx. exists l, y.
        split; [exact Hl|]. split; [exact Hy|].
        destruct Hc as [(x' & Hx' & Hrun) | [Hx' Hrun]]; congruence.
Qed.

Lemma run_raises_iff_witness :
  run zero_hot_flow = (aborted_page, Raise ZeroDivisionError)
  /\ exists l y,
       Solver.LMTD PyFloat.ln 1e308 50 (-1e308) 45 = Value l
       /\ Solver.effectiveness 1e308 50 1 (-1e308) 45 1.2 4.18 = Value y
       /\ run overflowing_chart
          = (unplotted_page
               (Solver.Q_avg 1e308 50 1 (-1e308) 45 1.2 4.18) l y,
             Raise ValueError).
Proof.
  split.
  - apply (proj1 (proj1 (proj2 (run_raises_iff PyFloat.of_string PyFloat.ln
                                  PyPlot.draw zero_hot_flow
                                  ZeroDivisionError))
             80 50 0 20 45 1.2 4.18 500 10
             ltac:(vm_compute; reflexivity))).
    vm_compute; reflexivity.
  - apply (proj2 (proj1 (proj2 (run_raises_iff PyFloat.of_string PyFloat.ln
                                  PyPlot.draw overflowing_chart ValueError))
             1e308 50 1 (-1e308) 45 1.2 4.18 500 10
             ltac:(vm_compute; reflexivity)));
      vm_compute; reflexivity.
Defined.

(** X2: every run ends in one of four pages: the fixed page with the
    informational message, when a field does not parse; the page cut
    under the heading of the results, with [ZeroDivisionError], when a
    divisor is zero; the page cut under the heading of the chart, with
    the exception of [st.pyplot], when the drawing raises; or the full
    page, with the chart and the footer.  On the last two the three
    result lines carry the average duty in kW, the LMTD in °C and the
    effectiveness, whatever units are selected. *)
Theorem four_pages
    (float : string -> result PrimFloat.float)
    (np_log : PrimFloat.float -> PrimFloat.float)
    (pyplot : figure -> result unit) (f : form) :
  (all_parse float f = false
   /\ app float np_log pyplot f = (incomplete_page, Value tt))
  \/ (all_parse float f = true
      /\ app float np_log pyplot f = (aborted_page, Raise ZeroDivisionError))
  \/ (all_parse float f = true
      /\ exists a b c d e g h i j l y,
           normalize float f = complete a b c d e g h i j
           /\ Solver.LMTD np_log a b d e = Value l
           /\ Solver.effectiveness a b c d e g h = Value y
           /\ ((exists x,
                  pyplot (profile (unit_temp f) a b d e) = Raise x
                  /\ app float np_log pyplot f
                     = (unplotted_page (Solver.Q_avg a b c d e g h) l y,
                        Raise x))
               \/ (pyplot (profile (unit_temp f) a b d e) = Value tt
                   /\ app float np_log pyplot f
                      = (results_page (unit_temp f) (download_clicked f)
                           a b d e (Solver.Q_avg a b c d e g h) l y,
                         Value tt)))
           /\ filter is_result (fst (app float np_log pyplot f))
              = [ st_success ("Heat Duty (Avg): "
                    ++ PyFloat.format_2f (Solver.Q_avg a b c d e g h)
                    ++ " kW")%string;
                  st_success ("Log Mean Temperature Difference (LMTD): "
                    ++ PyFloat.format_2f l ++ " °C")%string;
                  st_success ("Effectiveness: "
                    ++ PyFloat.format_2f y)%string ]).
Proof.
  destruct (app_cases float np_log pyplot f)
    as [[Hp Hrun] | (a & b & c & d & e & g & h & i & j & Hv & Hc)].
  - left. now split.
  - assert (Hp : all_parse float f = true).
    { rewrite <- inputs_filled_all_parse, Hv. reflexivity. }
    right. destruct Hc as [[Hz Hrun] | (Hz & l & y & Hl & Hy & Hc)].
    + left. now split.
    + right. split; [exact Hp|].
      exists a, b, c, d, e, g, h, i, j, l, y.
      split; [exact Hv|]. split; [exact Hl|]. split; [exact Hy|].
      split; [exact Hc|].
      destruct Hc as [(x & Hx & Hrun) | [Hx Hrun]]; rewrite Hrun; cbn [fst].
      * reflexivity.
      * unfold results_page. now destruct (download_clicked f).
Qed.

(** X3: the title block opens every page, and the footer closes the page
    exactly when the run raises nothing: an exception in the formulas or
    in the drawing of the chart leaves the page without its footer. *)
Theorem header_and_footer
    (float : string -> result PrimFloat.float)
    (np_log : PrimFloat.float -> PrimFloat.float)
    (pyplot : figure -> result unit) (f : form) :
  (exists rest, fst (app float np_log pyplot f) = page_top ++ rest)
  /\ (snd (app float np_log pyplot f) = Value tt <->
      exists mid,
        fst (app float np_log pyplot f) = page_top ++ mid ++ page_bottom).
Proof.
  destruct (app_cases float np_log pyplot f)
    as [[Hp Hrun] | (a & b & c & d & e & g & h & i & j & Hv & Hc)].
  - rewrite Hrun. cbn [fst snd]. split; [now eexists|].
    split; [|reflexivity]. intros _. now exists [st_info info_message].
  - destruct Hc as [[Hz Hrun] | (Hz & l & y & _ & _ & Hc)].
    + rewrite Hrun; cbn [fst snd].
      split; [now eexists|]. split; [discriminate|].
      intros [mid H]. unfold aborted_page in H.
      apply app_inv_head in H. exfalso.
      destruct mid as [|e1 [|e2 [|e3 mid]]]; cbn [List.app page_bottom] in H;
        injection H; intros; discriminate.
    + destruct Hc as [(x & Hx & Hrun) | [Hx Hrun]]; rewrite Hrun;
        cbn [fst snd].
      * split; [now eexists|]. split; [discriminate|].
        intros [mid H]. unfold unplotted_page in H.
        apply app_inv_head in H. exfalso.
        do 6 (destruct mid as [|? mid];
              [cbn [List.app page_bottom] in H; injection H; intros;
               discriminate|]).
        destruct mid as [|? [|? ?]]; cbn [List.app page_bottom] in H;
          discriminate H.
      * unfold results_page. split; [now eexists|].
        split; [|reflexivity]. intros _. eexists.
        rewrite (app_assoc _ _ page_bottom). reflexivity.
Qed.

Lemma normalize_with_download
    (float : string -> result PrimFloat.float) (f : form) (clicked : bool) :
  normalize float (with_download f clicked) = normalize float f.
Proof. reflexivity. Qed.

Lemma app_with_download
    (float : string -> result PrimFloat.float)
    (np_log : PrimFloat.float -> PrimFloat.float)
    (pyplot : figure -> result unit) (f : form) :
  filter (fun el => negb (is_link el))
    (fst (app float np_log pyplot (with_download f true)))
  = fst (app float np_log pyplot (with_download f false))
  /\ snd (app float np_log pyplot (with_download f true))
     = snd (app float np_log pyplot (with_download f false)).
Proof.
  destruct (app_cases float np_log pyplot f)
    as [[Hp Hrun] | (a & b & c & d & e & g & h & i & j & Hv & Hc)].
  - rewrite <- inputs_filled_all_parse in Hp.
    rewrite !(@app_incomplete float np_log pyplot (with_download f _) Hp).
    split; reflexivity.
  - destruct (zero_divisor_raises_iff np_log a b c d e g h) as [Hr Hn].
    destruct Hc as [[Hz _] | (Hz & _)].
    + rewrite !(@app_raises float np_log pyplot (with_download f _)
                  a b c d e g h i j Hv ZeroDivisionError (Hr Hz)).
      split; reflexivity.
    + destruct (Hn Hz) as (l & y & Hl & Hy).
      destruct (pyplot (profile (unit_temp f) a b d e)) as [[]|x] eqn:Hx.
      * rewrite !(@app_results float np_log pyplot (with_download f _)
                    a b c d e g h i j Hv l y Hl Hy Hx).
        split; reflexivity.
      * rewrite !(@app_unplotted float np_log pyplot (with_download f _)
                    a b c d e g h i j Hv l y x Hl Hy Hx).
        split; reflexivity.
Qed.

(** X4: the download link is on the page exactly when the button is
    pressed and the results are produced; it offers the chart that is
    drawn, under the file name [temperature_profile.png]; and pressing the
    button changes nothing else on the page. *)
Theorem download_link
    (float : string -> result PrimFloat.float)
    (np_log : PrimFloat.float -> PrimFloat.float)
    (pyplot : figure -> result unit) (f : form) :
  (existsb is_link (fst (app float np_log pyplot f)) = true <->
   download_clicked f = true /\ produced (app float np_log pyplot f) = true)
  /\ (forall fig name,
        In (st_png_link fig name) (fst (app float np_log pyplot f)) ->
        name = "temperature_profile.png"%string
        /\ In (st_pyplot fig) (fst (app float np_log pyplot f)))
  /\ filter (fun el => negb (is_link el))
       (fst (app float np_log pyplot (with_download f true)))
     = fst (app float np_log pyplot (with_download f false))
  /\ snd (app float np_log pyplot (with_download f true))
     = snd (app float np_log pyplot (with_download f false)).
Proof.
  split; [|split; [|apply app_with_download]].
  - destruct (app_cases float np_log pyplot f)
      as [[Hp Hrun] | (a & b & c & d & e & g & h & i & j & Hv & Hc)].
    + rewrite Hrun. cbn. split; [discriminate | intros [_ H]; discriminate].
    + destruct Hc as [[Hz Hrun] | (Hz & l & y & _ & _ & Hc)].
      * rewrite Hrun. cbn.
        split; [discriminate | intros [_ H]; discriminate].
      * destruct Hc as [(x & Hx & Hrun) | [Hx Hrun]]; rewrite Hrun.
        -- cbn. split; [discriminate | intros [_ H]; discriminate].
        -- unfold results_page. destruct (download_clicked f); cbn.
           ++ tauto.
           ++ split; [discriminate | intros [H _]; discriminate].
  - intros fig name.
    destruct (app_cases float np_log pyplot f)
      as [[Hp Hrun] | (a & b & c & d & e & g & h & i & j & Hv & Hc)].
    + rewrite Hrun. cbn. intros H.
      repeat (destruct H as [H|H]; try discriminate H). contradiction.
    + destruct Hc as [[Hz Hrun] | (Hz & l & y & _ & _ & Hc)].
      * rewrite Hrun. cbn. intros H.
        repeat (destruct H as [H|H]; try discriminate H). contradiction.
      * destruct Hc as [(x & Hx & Hrun) | [Hx Hrun]]; rewrite Hrun.
        -- cbn. intros H.
           repeat (destruct H as [H|H]; try discriminate H). contradiction.
        -- unfold results_page. destruct (download_clicked f); cbn;
             intros H;
             repeat (destruct H as [H|H]; try discriminate H);
             try contradiction.
           injection H as <- <-. split; [reflexivity|]. tauto.
Qed.

Lemma download_link_witness :
  In (st_pyplot (profile Celsius 80 50 20 45)) (fst (run scenario_clicked)).
Proof.
  apply (proj1 (proj2 (download_link PyFloat.of_string PyFloat.ln
                         PyPlot.draw scenario_clicked))
           (profile Celsius 80 50 20 45) "temperature_profile.png"%string).
  vm_compute. tauto.
Defined.

(** X5: the chart is labelled with the selected temperature unit and
    plots the normalized temperatures: with °F selected the axis reads
    [Temperature (°F)] while the four points are the entries converted to
    °C. *)
Theorem chart_label_and_data
    (float : string -> result PrimFloat.float)
    (np_log : PrimFloat.float -> PrimFloat.float)
    (pyplot : figure -> result unit) (f : form) (fig : figure) :
  In (st_pyplot fig) (fst (app float np_log pyplot f)) ->
  exists a b d e,
    float (Th_in_input f) = Value a /\ float (Th_out_input f) = Value b
    /\ float (Tc_in_input f) = Value d /\ float (Tc_out_input f) = Value e
    /\ T_hot fig = [to_celsius (unit_temp f) a; to_celsius (unit_temp f) b]
    /\ T_cold fig = [to_celsius (unit_temp f) d; to_celsius (unit_temp f) e]
    /\ ylabel fig
       = ("Temperature (" ++ temp_label (unit_temp f) ++ ")")%string.
Proof.
  destruct (app_cases float np_log pyplot f)
    as [[Hp Hrun] | (a & b & c & d & e & g & h & i & j & Hv & Hc)].
  - rewrite Hrun. cbn. intros H.
    repeat (destruct H as [H|H]; try discriminate H). contradiction.
  - assert (Hfig : In (st_pyplot fig) (fst (app float np_log pyplot f)) ->
                   fig = profile (unit_temp f) a b d e).
    { destruct Hc as [[Hz Hrun] | (Hz & l & y & _ & _ & Hc)];
        [|destruct Hc as [(x & Hx & Hrun) | [Hx Hrun]]]; rewrite Hrun.
      - cbn. intros H.
        repeat (destruct H as [H|H]; try discriminate H). contradiction.
      - cbn. intros H.
        repeat (destruct H as [H|H]; try discriminate H). contradiction.
      - unfold results_page.
        destruct (download_clicked f); cbn; intros H;
          repeat (destruct H as [H|H]; try discriminate H);
          try contradiction; now injection H. }
    intros H. rewrite (Hfig H). clear Hfig H Hc.
    unfold normalize, complete, to_float in Hv.
    destruct (float (Th_in_input f)) as [a0|]; [|discriminate Hv].
    destruct (float (Th_out_input f)) as [b0|]; [|discriminate Hv].
    destruct (float (Tc_in_input f)) as [d0|]; [|discriminate Hv].
    destruct (float (Tc_out_input f)) as [e0|]; [|discriminate Hv].
    cbn [option_map] in Hv.
    exists a0, b0, d0, e0. injection Hv as <- <- _ <- <- _ _ _ _.
    now repeat split.
Qed.

Lemma chart_label_and_data_witness :
  exists a b d e,
    PyFloat.of_string (Th_in_input imperial) = Value a
    /\ PyFloat.of_string (Th_out_input imperial) = Value b
    /\ PyFloat.of_string (Tc_in_input imperial) = Value d
    /\ PyFloat.of_string (Tc_out_input imperial) = Value e
    /\ T_hot (profile Fahrenheit 80 50 20 45)
       = [to_celsius Fahrenheit a; to_celsius Fahrenheit b]
    /\ T_cold (profile Fahrenheit 80 50 20 45)
       = [to_celsius Fahrenheit d; to_celsius Fahrenheit e]
    /\ ylabel (profile Fahrenheit 80 50 20 45) = "Temperature (°F)"%string.
Proof.
  apply (@chart_label_and_data PyFloat.of_string PyFloat.ln PyPlot.draw
           imperial (profile Fahrenheit 80 50 20 45)).
  vm_compute. tauto.
Defined.

(** ** The smaller heat-capacity rate (line 85) *)

Lemma SFcompare_antisym (x y : spec_float) :
  SFcompare y x = option_map CompOpp (SFcompare x y).
Proof.
  destruct x as [sx|sx| |sx mx ex], y as [sy|sy| |sy my ey];
    cbn [SFcompare option_map]; try reflexivity;
    try (destruct sx; reflexivity); try (destruct sy; reflexivity);
    try (destruct sx, sy; reflexivity).
  destruct sx, sy; cbn [CompOpp]; try reflexivity;
    rewrite (Z.compare_antisym ex ey); destruct (ex ?= ey)%Z;
    cbn [CompOpp]; try reflexivity;
    rewrite Pos.compare_cont_antisym; cbn [CompOpp];
    now rewrite ?CompOpp_involutive.
Qed.

Lemma SFcompare_refl (x : spec_float) :
  SFcompare x x = match x with S754_nan => None | _ => Some Eq end.
Proof.
  destruct x as [s|s| |s m e]; cbn [SFcompare]; try reflexivity.
  - now destruct s.
  - rewrite Z.compare_refl, Pos.compare_cont_refl. now destruct s.
Qed.

Lemma is_nan_spec (x : PrimFloat.float) :
  is_nan x = match Prim2SF x with S754_nan => true | _ => false end.
Proof.
  unfold is_nan. rewrite FloatAxioms.eqb_spec. unfold SFeqb. rewrite SFcompare_refl.
  now destruct (Prim2SF x).
Qed.

Lemma leb_refl (x : PrimFloat.float) : is_nan x = false -> (x <=? x) = true.
Proof.
  rewrite is_nan_spec, FloatAxioms.leb_spec. unfold SFleb. rewrite SFcompare_refl.
  now destruct (Prim2SF x).
Qed.

Lemma ltb_leb (x y : PrimFloat.float) : (x <? y) = true -> (x <=? y) = true.
Proof.
  rewrite FloatAxioms.ltb_spec, FloatAxioms.leb_spec. unfold SFltb, SFleb.
  now destruct (SFcompare (Prim2SF x) (Prim2SF y)) as [[| |]|].
Qed.

Lemma not_ltb_leb (x y : PrimFloat.float) :
  is_nan x = false -> is_nan y = false ->
  (y <? x) = false -> (x <=? y) = true.
Proof.
  rewrite !is_nan_spec, FloatAxioms.ltb_spec, FloatAxioms.leb_spec. unfold SFltb, SFleb.
  rewrite (SFcompare_antisym (Prim2SF x) (Prim2SF y)).
  destruct (Prim2SF x) as [sx|sx| |sx mx ex] eqn:Ex; try discriminate;
    destruct (Prim2SF y) as [sy|sy| |sy my ey] eqn:Ey; try discriminate;
    intros _ _;
    match goal with
    | |- context [SFcompare ?a ?b] =>
        destruct (SFcompare a b) as [[| |]|] eqn:Hc
    end; cbn [option_map CompOpp]; try discriminate; try reflexivity;
    cbn in Hc; discriminate Hc.
Qed.

Lemma ltb_nan_r (x y : PrimFloat.float) : is_nan y = true -> (x <? y) = false.
Proof.
  rewrite is_nan_spec, FloatAxioms.ltb_spec. unfold SFltb.
  destruct (Prim2SF y); try discriminate.
  now destruct (Prim2SF x).
Qed.

Lemma ltb_nan_l (x y : PrimFloat.float) : is_nan x = true -> (x <? y) = false.
Proof.
  rewrite is_nan_spec, FloatAxioms.ltb_spec. unfold SFltb.
  now destruct (Prim2SF x).
Qed.

(** X6: [C_min] is one of the two heat-capacity rates [m_hot * Cp] and
    [m_cold * Cp]; when neither is a NaN it is at most each of them.  A NaN
    on the hot side makes [C_min] a NaN, whereas a NaN on the cold side is
    passed over and [C_min] is the hot rate: [min] keeps its first
    argument unless the second compares below it. *)
Theorem C_min_is_the_smaller_rate (m_hot m_cold Cp : PrimFloat.float) :
  (Solver.C_min m_hot m_cold Cp = m_hot * Cp
   \/ Solver.C_min m_hot m_cold Cp = m_cold * Cp)
  /\ (is_nan (m_hot * Cp) = false -> is_nan (m_cold * Cp) = false ->
      (Solver.C_min m_hot m_cold Cp <=? m_hot * Cp) = true
      /\ (Solver.C_min m_hot m_cold Cp <=? m_cold * Cp) = true)
  /\ (is_nan (m_hot * Cp) = true ->
      is_nan (Solver.C_min m_hot m_cold Cp) = true)
  /\ (is_nan (m_cold * Cp) = true ->
      Solver.C_min m_hot m_cold Cp = m_hot * Cp).
Proof.
  unfold Solver.C_min, PyFloat.min.
  set (hot := m_hot * Cp). set (cold := m_cold * Cp).
  split; [|split; [|split]].
  - destruct (cold <? hot); tauto.
  - intros Hh Hc. destruct (cold <? hot) eqn:Hlt.
    + split; [now apply ltb_leb | now apply leb_refl].
    + split; [now apply leb_refl | now apply not_ltb_leb].
  - intros Hh. now rewrite (ltb_nan_r cold hot Hh).
  - intros Hc. now rewrite (ltb_nan_l cold hot Hc).
Qed.

Lemma C_min_is_the_smaller_rate_witness :
  (Solver.C_min 1 1.2 4.18 <=? 1 * 4.18) = true
  /\ (Solver.C_min 1 1.2 4.18 <=? 1.2 * 4.18) = true.
Proof.
  apply (proj1 (proj2 (C_min_is_the_smaller_rate 1 1.2 4.18)));
    vm_compute; reflexivity.
Defined.

(** ** Blank fields (lines 52 to 56) *)

(** X7: with the reference [float], a text made of white space only,
    the empty text included, parses to [None]; in any of the nine fields
    it fails the gate, and the run ends on the page with the
    informational message. *)
Theorem blank_field_is_missing
    (np_log : PrimFloat.float -> PrimFloat.float)
    (pyplot : figure -> result unit) (s : string) (f : form) :
  blank s = true ->
  to_float PyFloat.of_string s = None
  /\ (In s (text_fields f) ->
      inputs_filled (normalize PyFloat.of_string f) = false
      /\ app PyFloat.of_string np_log pyplot f = (incomplete_page, Value tt)).
Proof.
  intros H. pose proof (of_string_blank s H) as Hr.
  assert (Hp : parses PyFloat.of_string s = false).
  { unfold parses. now rewrite Hr. }
  split; [exact (@to_float_None PyFloat.of_string s Hp)|].
  intros Hin.
  assert (Hg : inputs_filled (normalize PyFloat.of_string f) = false).
  { rewrite inputs_filled_all_parse.
    exact (@all_parse_In PyFloat.of_string f s Hin Hp). }
  split; [exact Hg|].
  exact (@app_incomplete PyFloat.of_string np_log pyplot f Hg).
Qed.

Lemma blank_field_is_missing_witness :
  to_float PyFloat.of_string "   " = None
  /\ (In "   "%string (text_fields area_spaces) ->
      inputs_filled (normalize PyFloat.of_string area_spaces) = false
      /\ run area_spaces = (incomplete_page, Value tt)).
Proof.
  apply (@blank_field_is_missing PyFloat.ln PyPlot.draw "   "%string
           area_spaces).
  vm_compute; reflexivity.
Defined.

(** * Accuracy of the arithmetic

    The operations on primitive floats are specified by [SpecFloat],
    which rounds to nearest, ties to even.  This part derives the error
    bounds of the four operations over the reals and from them the
    accuracy of the unit conversions and of the heat duties. *)

(** ** Rounding in binary64 *)

Unset Implicit Arguments.

(** Absolute values, for [lra]. *)
Ltac abs_cases :=
  unfold Rabs in *; repeat (destruct Rcase_abs);
  repeat split; try lra.

Section Rounding.

Local Open Scope Z_scope.

Section Digits.

Lemma digits2_pos_size (p : positive) : digits2_pos p = Pos.size p.
Proof. induction p; cbn; congruence. Qed.

(** A positive with [d] binary digits lies in [[2^(d-1), 2^d)]. *)
Lemma digits2_pos_bounds (p : positive) :
  2 ^ (Zpos (digits2_pos p) - 1) <= Zpos p < 2 ^ Zpos (digits2_pos p).
Proof.
  rewrite digits2_pos_size. split.
  - pose proof (Pos.size_le p) as H.
    assert (H' : (2 ^ Zpos (Pos.size p) <= Zpos p~0)).
    { rewrite <- Pos2Z.inj_pow. exact H. }
    replace (Zpos (Pos.size p)) with (Zpos (Pos.size p) - 1 + 1) in H' by lia.
    rewrite Z.pow_add_r in H' by lia. lia.
  - pose proof (Pos.size_gt p) as H.
    rewrite <- Pos2Z.inj_pow. exact H.
Qed.

(** The number of digits is fixed by these bounds. *)
Lemma digits2_pos_unique (p : positive) (d : Z) :
  2 ^ (d - 1) <= Zpos p < 2 ^ d -> Zpos (digits2_pos p) = d.
Proof.
  intros [Hl Hu]. pose proof (digits2_pos_bounds p) as [Hl' Hu'].
  assert (0 < d).
  { destruct (Z.ltb_spec 0 d); [lia|].
    assert (2 ^ d <= 1).
    { destruct (Z.eq_dec d 0) as [->|]; [cbn; lia|].
      rewrite Z.pow_neg_r; lia. }
    lia. }
  destruct (Z.lt_trichotomy (Zpos (digits2_pos p)) d) as [Hlt|[Heq|Hgt]];
    [|exact Heq|].
  - assert (2 ^ Zpos (digits2_pos p) <= 2 ^ (d - 1))
      by (apply Z.pow_le_mono_r; lia). lia.
  - assert (2 ^ d <= 2 ^ (Zpos (digits2_pos p) - 1))
      by (apply Z.pow_le_mono_r; lia). lia.
Qed.

End Digits.

Section Shift.

Lemma nat_iter_add {A} (f : A -> A) (n k : nat) (x : A) :
  nat_iter f (n + k) x = nat_iter f n (nat_iter f k x).
Proof. induction n; cbn; congruence. Qed.

(** [iter_pos] of [SpecFloat] is iteration over a natural number. *)
Lemma iter_pos_nat {A} (f : A -> A) (p : positive) (x : A) :
  SpecFloat.iter_pos f p x = nat_iter f (Pos.to_nat p) x.
Proof.
  revert x. induction p as [p IH|p IH|]; intros x; cbn [SpecFloat.iter_pos].
  - rewrite !IH, Pos2Nat.inj_xI.
    replace (S (2 * Pos.to_nat p)) with (Pos.to_nat p + (Pos.to_nat p + 1))%nat by lia.
    rewrite !nat_iter_add. reflexivity.
  - rewrite !IH, Pos2Nat.inj_xO.
    replace (2 * Pos.to_nat p)%nat with (Pos.to_nat p + Pos.to_nat p)%nat by lia.
    rewrite nat_iter_add. reflexivity.
  - reflexivity.
Qed.

Local Open Scope R_scope.

(** One shift halves the number that the record locates. *)
Lemma shr_1_located (mrs : shr_record) (x : R) :
  located mrs x -> located (shr_1 mrs) (x / 2).
Proof.
  destruct mrs as [m r s]. unfold located. cbn [shr_m shr_r shr_s].
  intros [Hm H].
  destruct m as [|p|p]; [| |lia].
  - destruct r, s; cbv [inbetween shr_1 shr_m shr_r shr_s orb] in *;
      split; try lia; lra.
  - destruct p as [p|p|].
    + assert (E : IZR (Zpos p~1) = 2 * IZR (Zpos p) + 1).
      { rewrite Pos2Z.inj_xI, plus_IZR, mult_IZR. reflexivity. }
      destruct r, s; cbv [inbetween shr_1 shr_m shr_r shr_s orb] in *;
        rewrite E in H; split; try lia; lra.
    + assert (E : IZR (Zpos p~0) = 2 * IZR (Zpos p)).
      { rewrite Pos2Z.inj_xO, mult_IZR. reflexivity. }
      destruct r, s; cbv [inbetween shr_1 shr_m shr_r shr_s orb] in *;
        rewrite E in H; split; try lia; lra.
    + destruct r, s; cbv [inbetween shr_1 shr_m shr_r shr_s orb] in *;
        split; try lia; lra.
Qed.

(** [n] shifts divide it by [2^n]. *)
Lemma shr_located (mrs : shr_record) (x : R) (n : nat) :
  located mrs x ->
  located (nat_iter shr_1 n mrs) (x / 2 ^ n).
Proof.
  intros H. induction n as [|n IH]; cbn [nat_iter pow].
  - now replace (x / 1) with x by field.
  - replace (x / (2 * 2 ^ n)) with (x / 2 ^ n / 2).
    + now apply shr_1_located.
    + field. apply pow_nonzero. lra.
Qed.

(** The mantissa after [n] shifts. *)
Lemma shr_m_iter (mrs : shr_record) (n : nat) :
  (0 <= shr_m mrs)%Z ->
  shr_m (nat_iter shr_1 n mrs) = (shr_m mrs / 2 ^ Z.of_nat n)%Z.
Proof.
  intros Hm. induction n as [|n IH].
  - cbn. now rewrite Z.div_1_r.
  - cbn [nat_iter]. rewrite Nat2Z.inj_succ, Z.pow_succ_r by lia.
    assert (Hp : (0 < 2 ^ Z.of_nat n)%Z) by (apply Z.pow_pos_nonneg; lia).
    rewrite (Z.mul_comm 2), <- Z.div_div by lia. rewrite <- IH.
    assert (H0 : (0 <= shr_m (nat_iter shr_1 n mrs))%Z).
    { rewrite IH. apply Z.div_pos; lia. }
    destruct (nat_iter shr_1 n mrs) as [m r s]. cbn [shr_m] in *.
    destruct m as [|p|p]; [reflexivity| |lia].
    destruct p; cbn [shr_1 shr_m].
    + rewrite Pos2Z.inj_xI. apply Z.div_unique with 1%Z; lia.
    + rewrite Pos2Z.inj_xO. apply Z.div_unique with 0%Z; lia.
    + reflexivity.
Qed.

(** Rounding to nearest, ties to even. *)
Lemma round_nearest_even_located (mrs : shr_record) (x : R) :
  located mrs x ->
  let n := round_nearest_even (shr_m mrs) (loc_of_shr_record mrs) in
  (n = shr_m mrs \/ n = shr_m mrs + 1)%Z /\ Rabs (IZR n - x) <= / 2.
Proof.
  destruct mrs as [m r s]. unfold located. cbn [shr_m shr_r shr_s].
  intros [Hm H].
  destruct r, s; cbn in *.
  - split; [right; reflexivity|]. rewrite plus_IZR.
    apply Rabs_le. lra.
  - destruct (Z.even m); (split; [auto|]).
    + apply Rabs_le. lra.
    + rewrite plus_IZR. apply Rabs_le. lra.
  - split; [left; reflexivity|]. apply Rabs_le. lra.
  - split; [left; reflexivity|]. apply Rabs_le. lra.
Qed.

End Shift.

Section Bpow.
Local Open Scope R_scope.

(** Powers of two. *)
Lemma bpow_add (a b : Z) : bpow (a + b) = bpow a * bpow b.
Proof. apply powerRZ_add. lra. Qed.

Lemma bpow_pos (e : Z) : 0 < bpow e.
Proof. apply powerRZ_lt. lra. Qed.

Lemma bpow_0 : bpow 0 = 1.
Proof. reflexivity. Qed.

Lemma bpow_1 : bpow 1 = 2.
Proof. exact (powerRZ_1 2). Qed.

Lemma bpow_opp (e : Z) : bpow (- e) = / bpow e.
Proof. apply powerRZ_neg'. Qed.

Lemma bpow_succ (e : Z) : bpow (e + 1) = 2 * bpow e.
Proof. rewrite bpow_add, bpow_1. lra. Qed.

Lemma bpow_pred (e : Z) : bpow (e - 1) = bpow e / 2.
Proof.
  replace e with (e - 1 + 1)%Z at 2 by lia. rewrite bpow_succ. lra.
Qed.

Lemma bpow_IZR (z : Z) : (0 <= z)%Z -> IZR (2 ^ z) = bpow z.
Proof.
  intros H. unfold bpow. rewrite <- (Z2Nat.id z) by exact H.
  rewrite <- pow_IZR, pow_powerRZ. reflexivity.
Qed.

Lemma bpow_le (a b : Z) : (a <= b)%Z -> bpow a <= bpow b.
Proof.
  intros H. replace b with (a + (b - a))%Z by lia. rewrite bpow_add.
  assert (1 <= bpow (b - a)).
  { rewrite <- bpow_IZR by lia. apply IZR_le.
    assert (0 < 2 ^ (b - a))%Z by (apply Z.pow_pos_nonneg; lia). lia. }
  pose proof (bpow_pos a). nra.
Qed.

Lemma bpow_lt (a b : Z) : (a < b)%Z -> bpow a < bpow b.
Proof.
  intros H. assert (bpow (a + 1) <= bpow b) by (apply bpow_le; lia).
  rewrite bpow_succ in H0. pose proof (bpow_pos a). lra.
Qed.

End Bpow.

Section Round.
Local Open Scope R_scope.

(** [shr] by [n] places locates [x / 2^n] and raises the exponent by [n]. *)
Lemma shr_correct (mrs : shr_record) (e n : Z) (x : R) :
  located mrs x -> (0 <= n)%Z ->
  located (fst (shr mrs e n)) (x / bpow n)
  /\ snd (shr mrs e n) = (e + n)%Z
  /\ shr_m (fst (shr mrs e n)) = (shr_m mrs / 2 ^ n)%Z.
Proof.
  intros H Hn. destruct n as [|p|p]; [| |lia]; cbn [shr fst snd].
  - rewrite bpow_0, Z.pow_0_r, Z.div_1_r, Z.add_0_r.
    now replace (x / 1) with x by field.
  - rewrite iter_pos_nat. split; [|split; [reflexivity|]].
    + unfold bpow. rewrite <- (positive_nat_Z p), <- pow_powerRZ.
      now apply shr_located.
    + rewrite shr_m_iter by apply H. now rewrite positive_nat_Z.
Qed.

(** In the normal range the exponent leaves 53 bits to the mantissa. *)
Lemma fexp_normal (z : Z) :
  (-1074 <= z - 53)%Z -> fexp prec emax z = (z - 53)%Z.
Proof. unfold fexp, SpecFloat.emin, prec, emax. lia. Qed.

(** Rounding a located number with at least 53 digits, in the normal
    range: the result is a finite float with a 53-bit mantissa and an
    error of at most half a unit in the last place. *)
Lemma binary_round_aux_correct
    (sx : bool) (m : positive) (e : Z) (l : location) (x : R) :
  let d := Zpos (digits2_pos m) in
  located (shr_record_of_loc (Zpos m) l) x ->
  (53 <= d)%Z -> (-1074 <= d + e - 53)%Z -> (d + e <= 1023)%Z ->
  exists m' e',
    binary_round_aux prec emax sx (Zpos m) e l = S754_finite sx m' e'
    /\ Zpos (digits2_pos m') = 53%Z
    /\ (d + e - 53 <= e' <= d + e - 52)%Z
    /\ Rabs (IZR (Zpos m') * bpow e' - x * bpow e) <= bpow (d + e - 54).
Proof.
  intros d Hx Hd Hlo Hhi.
  unfold binary_round_aux, shr_fexp.
  cbn [Zdigits2]. fold d.
  rewrite (fexp_normal (d + e)) by lia.
  set (n := (d + e - 53 - e)%Z).
  assert (Hn : n = (d - 53)%Z) by (unfold n; lia).
  destruct (shr_correct _ e n _ Hx) as (Hloc & He' & Hm1); [lia|].
  destruct (shr (shr_record_of_loc (Zpos m) l) e n) as [mrs' e'].
  cbn [fst snd] in Hloc, He', Hm1.
  assert (Hm0 : shr_m (shr_record_of_loc (Zpos m) l) = Zpos m)
    by (destruct l as [|[]]; reflexivity).
  rewrite Hm0 in Hm1.
  pose proof (digits2_pos_bounds m) as [Hml Hmu]. fold d in Hml, Hmu.
  assert (Hp : (0 < 2 ^ n)%Z) by (apply Z.pow_pos_nonneg; lia).
  assert (Hb1 : (2 ^ 52 <= shr_m mrs')%Z).
  { rewrite Hm1. apply Z.div_le_lower_bound; [lia|].
    rewrite <- Z.pow_add_r by lia. replace (n + 52)%Z with (d - 1)%Z by lia.
    exact Hml. }
  assert (Hb2 : (shr_m mrs' < 2 ^ 53)%Z).
  { rewrite Hm1. apply Z.div_lt_upper_bound; [lia|].
    rewrite <- Z.pow_add_r by lia. replace (n + 53)%Z with d by lia.
    exact Hmu. }
  destruct (round_nearest_even_located _ _ Hloc) as [HN Herr].
  set (N := round_nearest_even (shr_m mrs') (loc_of_shr_record mrs')) in *.
  assert (HNb : (2 ^ 52 <= N <= 2 ^ 53)%Z) by lia.
  assert (Hval : Rabs (IZR N * bpow e' - x * bpow e) <= bpow (d + e - 54)).
  { replace (IZR N * bpow e' - x * bpow e)
      with (bpow e' * (IZR N - x / bpow n)).
    - rewrite Rabs_mult, (Rabs_pos_eq (bpow e')) by (apply Rlt_le, bpow_pos).
      replace (d + e - 54)%Z with (e' - 1)%Z by lia. rewrite bpow_pred.
      pose proof (bpow_pos e'). nra.
    - rewrite He', bpow_add. field. apply Rgt_not_eq, bpow_pos. }
  destruct (Z.eq_dec N (2 ^ 53)) as [HN53 | HN53].
  - (* the mantissa was rounded up to the next power of two *)
    exists (4503599627370496%positive), (e' + 1)%Z.
    rewrite HN53 in *. cbn [Zdigits2 Z.pow Z.pow_pos Pos.iter Z.mul Pos.mul digits2_pos Pos.succ].
    change (Zpos (digits2_pos 9007199254740992)) with 54%Z.
    rewrite (fexp_normal (54 + e')) by lia.
    replace (54 + e' - 53 - e')%Z with 1%Z by lia.
    cbn [shr shr_record_of_loc SpecFloat.iter_pos shr_1 shr_m fst snd].
    replace (e' + 1 <=? emax - prec)%Z with true
      by (symmetry; apply Z.leb_le; unfold emax, prec; lia).
    split; [reflexivity|]. split; [reflexivity|]. split; [lia|].
    replace (IZR (Zpos 4503599627370496) * bpow (e' + 1))
      with (IZR (2 ^ 53) * bpow e'); [exact Hval|].
    rewrite bpow_succ. change (2 ^ 53)%Z with (2 * 4503599627370496)%Z.
    rewrite mult_IZR. lra.
  - destruct N as [|pN|pN] eqn:EN; [cbn in HNb; lia| |lia].
    exists pN, e'.
    assert (HdN : Zpos (digits2_pos pN) = 53%Z)
      by (apply digits2_pos_unique; cbn in *; lia).
    cbn [Zdigits2]. rewrite HdN.
    rewrite (fexp_normal (53 + e')) by lia.
    replace (53 + e' - 53 - e')%Z with 0%Z by lia.
    cbn [shr shr_record_of_loc shr_m fst snd].
    replace (e' <=? emax - prec)%Z with true
      by (symmetry; apply Z.leb_le; unfold emax, prec; lia).
    split; [reflexivity|]. split; [reflexivity|]. split; [lia|]. exact Hval.
Qed.

End Round.

Section Ops.
Local Open Scope R_scope.

Lemma roundoff_pos : 0 < roundoff.
Proof. apply bpow_pos. Qed.

(** The bounds of [digits2_pos], over the reals. *)
Lemma IZR_digits (m : positive) :
  bpow (Zpos (digits2_pos m) - 1) <= IZR (Zpos m) < bpow (Zpos (digits2_pos m)).
Proof.
  pose proof (digits2_pos_bounds m) as [Hl Hu].
  rewrite <- !bpow_IZR by lia. split; [apply IZR_le | apply IZR_lt]; lia.
Qed.

Lemma bpow_lt_inv (a b : Z) : bpow a < bpow b -> (a < b)%Z.
Proof.
  intros H. destruct (Z.ltb_spec a b); [assumption|].
  pose proof (bpow_le b a ltac:(lia)). lra.
Qed.

(** An integer is located by itself, exactly. *)
Lemma located_exact (m : Z) :
  (0 <= m)%Z -> located (shr_record_of_loc m loc_Exact) (IZR m).
Proof. intros H. split; [exact H|reflexivity]. Qed.

Lemma located_ge (m : Z) (l : location) (x : R) :
  located (shr_record_of_loc m l) x -> IZR m <= x.
Proof.
  intros [_ H]. destruct l as [|[]]; cbv [shr_record_of_loc shr_m shr_r shr_s inbetween] in H; lra.
Qed.

(** Rounding with a relative error, from magnitude bounds. *)
Lemma binary_round_aux_relative
    (sx : bool) (m : positive) (e : Z) (l : location) (x : R) :
  located (shr_record_of_loc (Zpos m) l) x ->
  (53 <= Zpos (digits2_pos m))%Z ->
  bpow (-1021) <= x * bpow e < bpow 1023 ->
  x < IZR (Zpos m) + 1 ->
  exists m' e',
    binary_round_aux prec emax sx (Zpos m) e l = S754_finite sx m' e'
    /\ Zpos (digits2_pos m') = 53%Z
    /\ (-1074 <= e' <= 971)%Z
    /\ Rabs (IZR (Zpos m') * bpow e' - x * bpow e) <= roundoff * (x * bpow e).
Proof.
  intros Hx Hd [Hlo Hhi] Hxu.
  pose proof (located_ge _ _ _ Hx) as Hxl.
  pose proof (IZR_digits m) as [Hml Hmu].
  set (d := Zpos (digits2_pos m)) in *.
  pose proof (bpow_pos e) as He.
  assert (H1 : (-1021 < d + e)%Z).
  { apply bpow_lt_inv. rewrite bpow_add.
    assert (IZR (Zpos m) + 1 <= bpow d).
    { rewrite <- bpow_IZR in Hmu |- * by lia. rewrite <- plus_IZR.
      apply IZR_le. apply lt_IZR in Hmu. lia. }
    nra. }
  assert (H2 : (d - 1 + e < 1023)%Z).
  { apply bpow_lt_inv. rewrite bpow_add. nra. }
  destruct (binary_round_aux_correct sx m e l x Hx) as (m' & e' & E & Hd' & He' & Herr);
    fold d; try lia.
  exists m', e'. split; [exact E|]. split; [exact Hd'|]. split; [lia|].
  eapply Rle_trans; [exact Herr|].
  fold d. replace (d + e - 54)%Z with (-53 + (d - 1 + e))%Z by lia.
  rewrite bpow_add. fold roundoff. pose proof roundoff_pos.
  rewrite bpow_add.
  apply Rmult_le_compat_l; [lra|]. apply Rmult_le_compat_r; lra.
Qed.

(** The product of two finite floats with 53-bit mantissas, when the
    exact product is in the normal range. *)
Lemma SFmul_correct (sx sy : bool) (mx my : positive) (ex ey : Z) :
  Zpos (digits2_pos mx) = 53%Z -> Zpos (digits2_pos my) = 53%Z ->
  let P := IZR (Zpos mx) * bpow ex * (IZR (Zpos my) * bpow ey) in
  bpow (-1021) <= P < bpow 1023 ->
  exists m e,
    SFmul prec emax (S754_finite sx mx ex) (S754_finite sy my ey)
    = S754_finite (xorb sx sy) m e
    /\ Zpos (digits2_pos m) = 53%Z
    /\ (-1074 <= e <= 971)%Z
    /\ Rabs (IZR (Zpos m) * bpow e - P) <= roundoff * P.
Proof.
  intros Hx Hy P HP. cbn [SFmul].
  pose proof (IZR_digits mx) as Hbx. pose proof (IZR_digits my) as Hby.
  rewrite Hx in Hbx. rewrite Hy in Hby.
  assert (EP : P = IZR (Zpos (mx * my)) * bpow (ex + ey)).
  { unfold P. rewrite Pos2Z.inj_mul, mult_IZR, bpow_add. ring. }
  rewrite EP in HP |- *.
  apply binary_round_aux_relative.
  - apply located_exact. lia.
  - pose proof (IZR_digits (mx * my)) as [_ Hu].
    rewrite Pos2Z.inj_mul, mult_IZR in Hu.
    assert (bpow 104 < bpow (Zpos (digits2_pos (mx * my)))).
    { replace 104%Z with (52 + 52)%Z by lia. rewrite bpow_add.
      change (53 - 1)%Z with 52%Z in Hbx, Hby. pose proof (bpow_pos 52). nra. }
    apply bpow_lt_inv in H. lia.
  - exact HP.
  - lra.
Qed.

End Ops.

Section Division.
Local Open Scope R_scope.

(** The location that the division derives from a quotient and its
    remainder. *)
Lemma new_location_located (n q r : Z) :
  (0 < n)%Z -> (0 <= r < n)%Z -> (0 <= q)%Z ->
  located (shr_record_of_loc q (new_location n r)) (IZR (q * n + r) / IZR n).
Proof.
  intros Hn Hr Hq. split.
  { destruct (new_location n r) as [|[]]; exact Hq. }
  assert (Hn' : 0 < IZR n) by (apply IZR_lt; lia).
  assert (EX : IZR (q * n + r) / IZR n = IZR q + IZR r / IZR n).
  { rewrite plus_IZR, mult_IZR. field. lra. }
  rewrite EX.
  assert (Hr0 : 0 <= IZR r) by (apply IZR_le; lia).
  assert (Hrn : IZR r < IZR n) by (apply IZR_lt; lia).
  assert (Hhalf : forall c, (2 * r ?= n)%Z = c ->
            match c with
            | Lt => IZR r / IZR n < / 2
            | Eq => IZR r / IZR n = / 2
            | Gt => / 2 < IZR r / IZR n
            end).
  { intros c Hc. destruct c.
    - apply Z.compare_eq in Hc. apply (f_equal IZR) in Hc.
      rewrite mult_IZR in Hc. apply Rmult_eq_reg_r with (IZR n); [|lra].
      unfold Rdiv. rewrite Rmult_assoc, Rinv_l by lra. lra.
    - rewrite Z.compare_lt_iff in Hc. apply IZR_lt in Hc.
      rewrite mult_IZR in Hc. apply Rmult_lt_reg_r with (IZR n); [lra|].
      unfold Rdiv. rewrite Rmult_assoc, Rinv_l by lra. lra.
    - rewrite Z.compare_gt_iff in Hc. apply IZR_lt in Hc.
      rewrite mult_IZR in Hc. apply Rmult_lt_reg_r with (IZR n); [lra|].
      unfold Rdiv. rewrite Rmult_assoc, Rinv_l by lra. lra. }
  assert (Hlt1 : IZR r / IZR n < 1).
  { apply Rmult_lt_reg_r with (IZR n); [lra|].
    unfold Rdiv. rewrite Rmult_assoc, Rinv_l by lra. lra. }
  unfold new_location.
  destruct (Z.even n) eqn:Hev;
    [unfold new_location_even | unfold new_location_odd];
    destruct (r =? 0)%Z eqn:Hr1.
  - apply Z.eqb_eq in Hr1. subst r.
    cbv [shr_record_of_loc shr_m shr_r shr_s inbetween].
    unfold Rdiv; rewrite Rmult_0_l; lra.
  - apply Z.eqb_neq in Hr1.
    assert (Hrpos : 0 < IZR r / IZR n).
    { apply Rdiv_lt_0_compat; [|lra]. apply IZR_lt. lia. }
    pose proof (Hhalf _ eq_refl) as Hh.
    destruct (2 * r ?= n)%Z;
      cbv [shr_record_of_loc shr_m shr_r shr_s inbetween]; lra.
  - apply Z.eqb_eq in Hr1. subst r.
    cbv [shr_record_of_loc shr_m shr_r shr_s inbetween].
    unfold Rdiv; rewrite Rmult_0_l; lra.
  - apply Z.eqb_neq in Hr1.
    assert (Hrpos : 0 < IZR r / IZR n).
    { apply Rdiv_lt_0_compat; [|lra]. apply IZR_lt. lia. }
    assert (Hodd : (2 * r <> n)%Z).
    { intros E. rewrite <- E, Z.even_mul in Hev. discriminate. }
    pose proof (Hhalf _ eq_refl) as Hh.
    destruct (2 * r + 1 ?= n)%Z eqn:Hc.
    + apply Z.compare_eq in Hc.
      assert (Hlt : (2 * r ?= n)%Z = Lt) by (apply Z.compare_lt_iff; lia).
      rewrite Hlt in Hh.
      cbv [shr_record_of_loc shr_m shr_r shr_s inbetween]; lra.
    + rewrite Z.compare_lt_iff in Hc.
      assert (Hlt : (2 * r ?= n)%Z = Lt) by (apply Z.compare_lt_iff; lia).
      rewrite Hlt in Hh.
      cbv [shr_record_of_loc shr_m shr_r shr_s inbetween]; lra.
    + rewrite Z.compare_gt_iff in Hc.
      assert (Hgt : (2 * r ?= n)%Z = Gt) by (apply Z.compare_gt_iff; lia).
      rewrite Hgt in Hh.
      cbv [shr_record_of_loc shr_m shr_r shr_s inbetween]; lra.
Qed.

(** The quotient of two finite floats with 53-bit mantissas, when the
    exact quotient is in the normal range. *)
Lemma SFdiv_correct (sx sy : bool) (mx my : positive) (ex ey : Z) :
  Zpos (digits2_pos mx) = 53%Z -> Zpos (digits2_pos my) = 53%Z ->
  let Q := IZR (Zpos mx) * bpow ex / (IZR (Zpos my) * bpow ey) in
  bpow (-1021) <= Q < bpow 1023 ->
  exists m e,
    SFdiv prec emax (S754_finite sx mx ex) (S754_finite sy my ey)
    = S754_finite (xorb sx sy) m e
    /\ Zpos (digits2_pos m) = 53%Z
    /\ (-1074 <= e <= 971)%Z
    /\ Rabs (IZR (Zpos m) * bpow e - Q) <= roundoff * Q.
Proof.
  intros Hx Hy Q HQ.
  pose proof (IZR_digits mx) as Hbx. pose proof (IZR_digits my) as Hby.
  rewrite Hx in Hbx. rewrite Hy in Hby.
  change (53 - 1)%Z with 52%Z in Hbx, Hby.
  pose proof (bpow_pos ex) as Hex. pose proof (bpow_pos ey) as Hey.
  pose proof (bpow_pos 52) as H52.
  assert (Hmy : 0 < IZR (Zpos my)) by lra.
  assert (EQ : Q = IZR (Zpos mx) / IZR (Zpos my) * bpow (ex - ey)).
  { unfold Q. replace (ex - ey)%Z with (ex + - ey)%Z by lia.
    rewrite bpow_add, bpow_opp. field. split; lra. }
  (* the exponent of the quotient *)
  assert (Hlow : (-1021 <= ex - ey)%Z).
  { assert (Q < bpow (ex - ey + 1)).
    { rewrite EQ, bpow_succ. pose proof (bpow_pos (ex - ey)).
      assert (IZR (Zpos mx) / IZR (Zpos my) < 2); [|nra].
      apply Rmult_lt_reg_r with (IZR (Zpos my)); [lra|].
      unfold Rdiv. rewrite Rmult_assoc, Rinv_l by lra.
      replace (bpow 53) with (2 * bpow 52) in Hbx, Hby
        by (rewrite <- bpow_succ; reflexivity). lra. }
    assert (bpow (-1021) < bpow (ex - ey + 1)) by lra.
    apply bpow_lt_inv in H0. lia. }
  cbn [SFdiv]. unfold SFdiv_core_binary. cbn [Zdigits2]. rewrite Hx, Hy.
  replace (53 + ex - (53 + ey))%Z with (ex - ey)%Z by lia.
  rewrite (fexp_normal (ex - ey)) by lia.
  replace (Z.min (ex - ey - 53) (ex - ey)) with (ex - ey - 53)%Z by lia.
  replace (ex - ey - (ex - ey - 53))%Z with 53%Z by lia.
  rewrite Z.shiftl_mul_pow2 by lia.
  pose proof (Z_div_mod (Zpos mx * 2 ^ 53) (Zpos my) ltac:(lia)) as Hdm.
  destruct (Z.div_eucl (Zpos mx * 2 ^ 53) (Zpos my)) as [q r].
  destruct Hdm as [Eqr Hr].
  (* the quotient has 53 or 54 digits *)
  assert (Hmxl : (2 ^ 52 <= Zpos mx < 2 ^ 53)%Z).
  { pose proof (digits2_pos_bounds mx). rewrite Hx in H. exact H. }
  assert (Hmyl : (2 ^ 52 <= Zpos my < 2 ^ 53)%Z).
  { pose proof (digits2_pos_bounds my). rewrite Hy in H. exact H. }
  assert (Hq : (2 ^ 52 <= q < 2 ^ 54)%Z) by nia.
  destruct q as [|pq|pq]; [lia| |lia].
  set (X := IZR (Zpos mx * 2 ^ 53) / IZR (Zpos my)).
  assert (HX : located (shr_record_of_loc (Zpos pq) (new_location (Zpos my) r)) X).
  { unfold X. rewrite Eqr, (Z.mul_comm (Zpos my)).
    apply new_location_located; lia. }
  assert (EX : X * bpow (ex - ey - 53) = Q).
  { unfold X. rewrite EQ, mult_IZR, bpow_IZR by lia.
    replace (ex - ey - 53)%Z with (ex - ey + - (53))%Z by lia.
    rewrite bpow_add, bpow_opp. field.
    split; [lra | apply Rgt_not_eq, bpow_pos]. }
  rewrite <- EX in HQ |- *.
  apply binary_round_aux_relative.
  - exact HX.
  - pose proof (digits2_pos_bounds pq) as [_ Hu].
    destruct (Z.ltb_spec (Zpos (digits2_pos pq)) 53); [|lia].
    assert (2 ^ Zpos (digits2_pos pq) <= 2 ^ 52)%Z
      by (apply Z.pow_le_mono_r; lia). lia.
  - exact HQ.
  - unfold X. rewrite Eqr, (Z.mul_comm (Zpos my)), plus_IZR, mult_IZR.
    apply Rmult_lt_reg_r with (IZR (Zpos my)); [lra|].
    unfold Rdiv. rewrite Rmult_assoc, Rinv_l by lra.
    assert (IZR r < IZR (Zpos my)) by (apply IZR_lt; lia). lra.
Qed.

End Division.

Section AddSub.
Local Open Scope R_scope.

Lemma iter_xO (m d : positive) :
  Zpos (Pos.iter xO m d) = (Zpos m * 2 ^ Zpos d)%Z.
Proof.
  induction d as [|d IH] using Pos.peano_ind.
  - cbn. lia.
  - rewrite Pos.iter_succ, Pos2Z.inj_xO, IH, Pos2Z.inj_succ, Z.pow_succ_r by lia.
    lia.
Qed.

(** Aligning a mantissa to a lower exponent keeps the value. *)
Lemma shl_align_correct (m : positive) (e e' : Z) :
  Zpos (fst (shl_align m e e')) = (Zpos m * 2 ^ (e - Z.min e e'))%Z
  /\ snd (shl_align m e e') = Z.min e e'.
Proof.
  unfold shl_align. destruct (e' - e)%Z as [|d|d] eqn:E; cbn [fst snd].
  - replace (Z.min e e') with e by lia. rewrite Z.sub_diag. cbn. lia.
  - replace (Z.min e e') with e by lia. rewrite Z.sub_diag. cbn. lia.
  - replace (Z.min e e') with e' by lia. rewrite iter_xO.
    replace (e - e')%Z with (Zpos d) by lia. lia.
Qed.

(** Rounding a signed mantissa with any number of digits. *)
Lemma binary_round_correct (s : bool) (m : positive) (e : Z) :
  let V := IZR (Zpos m) * bpow e in
  bpow (-1021) <= V < bpow 1023 ->
  exists m' e',
    binary_round prec emax s m e = S754_finite s m' e'
    /\ Zpos (digits2_pos m') = 53%Z
    /\ (-1074 <= e' <= 971)%Z
    /\ Rabs (IZR (Zpos m') * bpow e' - V) <= roundoff * V.
Proof.
  intros V HV. unfold binary_round.
  pose proof (IZR_digits m) as [Hml Hmu].
  pose proof (digits2_pos_bounds m) as [Hzl Hzu].
  set (d := Zpos (digits2_pos m)) in *.
  pose proof (bpow_pos e) as He.
  assert (H1 : (-1021 < d + e)%Z).
  { apply bpow_lt_inv. rewrite bpow_add. unfold V in HV. nra. }
  rewrite (fexp_normal (d + e)) by lia.
  pose proof (shl_align_correct m e (d + e - 53)) as [Hmz Hez].
  destruct (shl_align m e (d + e - 53)) as [mz ez]. cbn [fst snd] in Hmz, Hez.
  assert (Hp : (0 < 2 ^ (e - ez))%Z) by (apply Z.pow_pos_nonneg; lia).
  assert (EV : V = IZR (Zpos mz) * bpow ez).
  { unfold V. rewrite Hmz, <- Hez, mult_IZR, bpow_IZR by lia.
    rewrite Rmult_assoc, <- bpow_add. f_equal. f_equal. lia. }
  rewrite EV in HV |- *.
  apply binary_round_aux_relative.
  - apply located_exact. lia.
  - destruct (Z.le_ge_cases 53 d) as [Hd | Hd].
    + replace (Z.min e (d + e - 53)) with e in Hez, Hmz by lia.
      rewrite Z.sub_diag, Z.mul_1_r in Hmz.
      injection Hmz as ->. exact Hd.
    + replace (Z.min e (d + e - 53)) with (d + e - 53)%Z in Hez, Hmz by lia.
      replace (e - (d + e - 53))%Z with (53 - d)%Z in Hmz by lia.
      assert (Zpos (digits2_pos mz) = 53%Z); [|lia].
      apply digits2_pos_unique. rewrite Hmz.
      assert (E1 : (2 ^ (53 - 1) = 2 ^ (d - 1) * 2 ^ (53 - d))%Z).
      { rewrite <- Z.pow_add_r by lia. f_equal. lia. }
      assert (E2 : (2 ^ 53 = 2 ^ d * 2 ^ (53 - d))%Z).
      { rewrite <- Z.pow_add_r by lia. f_equal. lia. }
      rewrite E1, E2.
      assert (0 < 2 ^ (53 - d))%Z by (apply Z.pow_pos_nonneg; lia).
      nia.
  - exact HV.
  - lra.
Qed.

Lemma sg_xorb (a b : bool) : sg (xorb a b) = sg a * sg b.
Proof. destruct a, b; unfold sg; cbn; lra. Qed.

Lemma sg_negb (a : bool) : sg (negb a) = - sg a.
Proof. destruct a; unfold sg; cbn; lra. Qed.

Lemma sg_abs (a : bool) (x : R) : Rabs (sg a * x) = Rabs x.
Proof.
  destruct a; unfold sg.
  - replace (-1 * x) with (- x) by ring. apply Rabs_Ropp.
  - now rewrite Rmult_1_l.
Qed.

Lemma IZR_cond_Zopp (s : bool) (m : Z) : IZR (cond_Zopp s m) = sg s * IZR m.
Proof. destruct s; unfold sg, cond_Zopp; [rewrite opp_IZR|]; ring. Qed.

(** Normalizing an integer mantissa: zero or a rounded float. *)
Lemma binary_normalize_correct (M e : Z) :
  let V := IZR M * bpow e in
  (M = 0%Z -> binary_normalize prec emax M e false = S754_zero false)
  /\ (bpow (-1021) <= Rabs V < bpow 1023 ->
      exists s m' e',
        binary_normalize prec emax M e false = S754_finite s m' e'
        /\ Zpos (digits2_pos m') = 53%Z
        /\ (-1074 <= e' <= 971)%Z
        /\ Rabs (SF2R (S754_finite s m' e') - V) <= roundoff * Rabs V).
Proof.
  intros V. split; [intros ->; reflexivity|].
  intros HV. pose proof (bpow_pos e) as He. pose proof (bpow_pos (-1021)).
  destruct M as [|m|m]; cbn [binary_normalize].
  - unfold V in HV. rewrite Rmult_0_l, Rabs_R0 in HV. lra.
  - assert (HVp : 0 < V).
    { unfold V. apply Rmult_lt_0_compat; [apply IZR_lt; lia | exact He]. }
    rewrite (Rabs_pos_eq V) in HV |- * by lra.
    destruct (binary_round_correct false m e HV) as (m' & e' & E & Hd & Hr & Herr).
    exists false, m', e'. repeat split; try assumption; try lia.
    cbn [SF2R]. unfold sg. rewrite Rmult_1_l. exact Herr.
  - set (W := IZR (Zpos m) * bpow e).
    assert (EV : V = - W).
    { unfold V, W. change (Zneg m) with (- Zpos m)%Z. rewrite opp_IZR. ring. }
    assert (HWp : 0 < W).
    { unfold W. apply Rmult_lt_0_compat; [apply IZR_lt; lia | exact He]. }
    rewrite EV, Rabs_Ropp, (Rabs_pos_eq W) in HV |- * by lra.
    destruct (binary_round_correct true m e HV) as (m' & e' & E & Hd & Hr & Herr).
    exists true, m', e'. repeat split; try assumption; try lia.
    cbn [SF2R]. unfold sg. fold W in Herr.
    replace (-1 * IZR (Zpos m') * bpow e' - - W)
      with (- (IZR (Zpos m') * bpow e' - W)) by ring.
    rewrite Rabs_Ropp. exact Herr.
Qed.

(** The value of a float as a multiple of a lower power of two. *)
Lemma aligned_value (s : bool) (m : positive) (e ez : Z) :
  (ez <= e)%Z ->
  IZR (cond_Zopp s (Zpos (fst (shl_align m e ez)))) * bpow ez
  = SF2R (S754_finite s m e).
Proof.
  intros H. destruct (shl_align_correct m e ez) as [Hm _].
  rewrite IZR_cond_Zopp, Hm. replace (Z.min e ez) with ez by lia.
  rewrite mult_IZR, bpow_IZR by lia. cbn [SF2R].
  replace e with (e - ez + ez)%Z at 2 by lia. rewrite bpow_add. ring.
Qed.

(** The sum of two finite floats: a zero when the exact sum is zero, a
    rounded float when it is in the normal range. *)
Lemma SFadd_correct (sx sy : bool) (mx my : positive) (ex ey : Z) :
  let x := S754_finite sx mx ex in
  let y := S754_finite sy my ey in
  let S := SF2R x + SF2R y in
  (S = 0 -> SFadd prec emax x y = S754_zero false)
  /\ (bpow (-1021) <= Rabs S < bpow 1023 ->
      exists s m e,
        SFadd prec emax x y = S754_finite s m e
        /\ Zpos (digits2_pos m) = 53%Z
        /\ (-1074 <= e <= 971)%Z
        /\ Rabs (SF2R (S754_finite s m e) - S) <= roundoff * Rabs S).
Proof.
  intros x y S. cbn [SFadd x y].
  set (ez := Z.min ex ey).
  set (M := (cond_Zopp sx (Zpos (fst (shl_align mx ex ez)))
             + cond_Zopp sy (Zpos (fst (shl_align my ey ez))))%Z).
  assert (ES : IZR M * bpow ez = S).
  { unfold M, S, x, y. rewrite plus_IZR, Rmult_plus_distr_r.
    rewrite !aligned_value by (unfold ez; lia). reflexivity. }
  destruct (binary_normalize_correct M ez) as [H0 H1].
  rewrite ES in H1. split; [|exact H1].
  intros HS. apply H0. rewrite <- ES in HS.
  pose proof (bpow_pos ez).
  apply eq_IZR_R0. nra.
Qed.

(** The same for the difference. *)
Lemma SFsub_correct (sx sy : bool) (mx my : positive) (ex ey : Z) :
  let x := S754_finite sx mx ex in
  let y := S754_finite sy my ey in
  let D := SF2R x - SF2R y in
  (D = 0 -> SFsub prec emax x y = S754_zero false)
  /\ (bpow (-1021) <= Rabs D < bpow 1023 ->
      exists s m e,
        SFsub prec emax x y = S754_finite s m e
        /\ Zpos (digits2_pos m) = 53%Z
        /\ (-1074 <= e <= 971)%Z
        /\ Rabs (SF2R (S754_finite s m e) - D) <= roundoff * Rabs D).
Proof.
  intros x y D. cbn [SFsub x y].
  set (ez := Z.min ex ey).
  set (M := (cond_Zopp sx (Zpos (fst (shl_align mx ex ez)))
             - cond_Zopp sy (Zpos (fst (shl_align my ey ez))))%Z).
  assert (ES : IZR M * bpow ez = D).
  { unfold M, D, x, y. rewrite minus_IZR, Rmult_minus_distr_r.
    rewrite !aligned_value by (unfold ez; lia). reflexivity. }
  destruct (binary_normalize_correct M ez) as [H0 H1].
  rewrite ES in H1. split; [|exact H1].
  intros HS. apply H0. rewrite <- ES in HS.
  pose proof (bpow_pos ez).
  apply eq_IZR_R0. nra.
Qed.

End AddSub.

Section Model.
Local Open Scope R_scope.

(** Floats and the reals they stand for. *)
Lemma real_zero (x : float) : signed_zero x -> real x = 0.
Proof. intros [s H]. unfold real. now rewrite H. Qed.

Lemma SF2R_abs (s : bool) (m : positive) (e : Z) :
  Rabs (SF2R (S754_finite s m e)) = IZR (Zpos m) * bpow e.
Proof.
  cbn [SF2R]. rewrite Rmult_assoc, sg_abs. apply Rabs_pos_eq.
  apply Rmult_le_pos; [apply IZR_le; lia | apply Rlt_le, bpow_pos].
Qed.

Lemma SF2R_bounds (s : bool) (m : positive) (e : Z) :
  Zpos (digits2_pos m) = 53%Z ->
  bpow (52 + e) <= Rabs (SF2R (S754_finite s m e)) < bpow (53 + e).
Proof.
  intros H. rewrite SF2R_abs. pose proof (IZR_digits m) as Hb.
  rewrite H in Hb. change (53 - 1)%Z with 52%Z in Hb.
  rewrite !bpow_add. pose proof (bpow_pos e). nra.
Qed.

Lemma normal_bounds (x : float) :
  normal x -> bpow (-1022) <= Rabs (real x) < bpow 1024.
Proof.
  intros (s & m & e & E & Hd & He). unfold real. rewrite E.
  pose proof (SF2R_bounds s m e Hd) as [Hl Hu].
  pose proof (bpow_le (-1022) (52 + e) ltac:(lia)).
  pose proof (bpow_le (53 + e) 1024 ltac:(lia)). lra.
Qed.

Lemma normal_nonzero (x : float) : normal x -> real x <> 0.
Proof.
  intros H E. apply normal_bounds in H. rewrite E, Rabs_R0 in H.
  pose proof (bpow_pos (-1022)). lra.
Qed.

(** The standard model of binary64 arithmetic: when the exact result is
    in the normal range, the computed one is normal and within the unit
    roundoff [roundoff = 2^-53] of it. *)

Lemma mul_model (x y : float) :
  normal x -> normal y ->
  bpow (-1021) <= Rabs (real x * real y) < bpow 1023 ->
  normal (x * y)
  /\ Rabs (real (x * y) - real x * real y) <= roundoff * Rabs (real x * real y).
Proof.
  intros (sx & mx & ex & Ex & Hdx & Hex) (sy & my & ey & Ey & Hdy & Hey) HP.
  unfold real in *. rewrite mul_spec, Ex, Ey in *. unfold SF64mul.
  assert (EP : SF2R (S754_finite sx mx ex) * SF2R (S754_finite sy my ey)
               = sg (xorb sx sy)
                 * (IZR (Zpos mx) * bpow ex * (IZR (Zpos my) * bpow ey))).
  { cbn [SF2R]. rewrite sg_xorb. ring. }
  rewrite EP in *. rewrite sg_abs in HP |- *.
  set (P := IZR (Zpos mx) * bpow ex * (IZR (Zpos my) * bpow ey)) in *.
  assert (HPp : 0 <= P).
  { unfold P. repeat apply Rmult_le_pos;
      try (apply IZR_le; lia); apply Rlt_le, bpow_pos. }
  rewrite (Rabs_pos_eq P HPp) in HP |- *.
  destruct (SFmul_correct sx sy mx my ex ey Hdx Hdy HP)
    as (m & e & E & Hd & He & Herr).
  split.
  - exists (xorb sx sy), m, e. rewrite mul_spec, Ex, Ey. now repeat split.
  - rewrite E. cbn [SF2R]. fold P in Herr.
    replace (sg (xorb sx sy) * IZR (Zpos m) * bpow e - sg (xorb sx sy) * P)
      with (sg (xorb sx sy) * (IZR (Zpos m) * bpow e - P)) by ring.
    now rewrite sg_abs.
Qed.

Lemma div_model (x y : float) :
  normal x -> normal y ->
  bpow (-1021) <= Rabs (real x / real y) < bpow 1023 ->
  normal (x / y)
  /\ Rabs (real (x / y) - real x / real y) <= roundoff * Rabs (real x / real y).
Proof.
  intros (sx & mx & ex & Ex & Hdx & Hex) (sy & my & ey & Ey & Hdy & Hey) HP.
  unfold real in *. rewrite div_spec, Ex, Ey in *. unfold SF64div.
  assert (Hny : IZR (Zpos my) * bpow ey <> 0).
  { apply Rgt_not_eq, Rmult_lt_0_compat; [apply IZR_lt; lia | apply bpow_pos]. }
  assert (Hsg : forall b, sg b <> 0) by (intros []; unfold sg; lra).
  assert (EP : SF2R (S754_finite sx mx ex) / SF2R (S754_finite sy my ey)
               = sg (xorb sx sy)
                 * (IZR (Zpos mx) * bpow ex / (IZR (Zpos my) * bpow ey))).
  { cbn [SF2R]. rewrite sg_xorb.
    destruct sx, sy; unfold sg; cbn [xorb]; field;
      (split; [apply Rgt_not_eq, bpow_pos | apply Rgt_not_eq, IZR_lt; lia]). }
  rewrite EP in *. rewrite sg_abs in HP |- *.
  set (Q := IZR (Zpos mx) * bpow ex / (IZR (Zpos my) * bpow ey)) in *.
  assert (HQp : 0 <= Q).
  { unfold Q. apply Rlt_le, Rdiv_lt_0_compat.
    - apply Rmult_lt_0_compat; [apply IZR_lt; lia | apply bpow_pos].
    - apply Rmult_lt_0_compat; [apply IZR_lt; lia | apply bpow_pos]. }
  rewrite (Rabs_pos_eq Q HQp) in HP |- *.
  destruct (SFdiv_correct sx sy mx my ex ey Hdx Hdy HP)
    as (m & e & E & Hd & He & Herr).
  split.
  - exists (xorb sx sy), m, e. rewrite div_spec, Ex, Ey. now repeat split.
  - rewrite E. cbn [SF2R]. fold Q in Herr.
    replace (sg (xorb sx sy) * IZR (Zpos m) * bpow e - sg (xorb sx sy) * Q)
      with (sg (xorb sx sy) * (IZR (Zpos m) * bpow e - Q)) by ring.
    now rewrite sg_abs.
Qed.

Lemma normal_finite (x : float) : normal x -> finite_nonzero x.
Proof. intros (s & m & e & E & _). now exists s, m, e. Qed.

(** Differences and sums: the left operand may be a zero or any finite
    float; an exact result of zero is computed as a zero. *)
Lemma sub_model (x y : float) :
  signed_zero x \/ finite_nonzero x -> normal y ->
  let D := real x - real y in
  (D = 0 -> signed_zero (x - y))
  /\ (bpow (-1021) <= Rabs D < bpow 1023 ->
      normal (x - y) /\ Rabs (real (x - y) - D) <= roundoff * Rabs D).
Proof.
  intros Hx Hy D. pose proof (normal_nonzero y Hy) as Hy0.
  destruct Hy as (sy & my & ey & Ey & Hdy & Hey).
  destruct Hx as [[sx Ex] | (sx & mx & ex & Ex)].
  - assert (E : Prim2SF (x - y) = S754_finite (negb sy) my ey).
    { rewrite sub_spec, Ex, Ey. reflexivity. }
    assert (ED : D = real (x - y)).
    { unfold D, real. rewrite E, Ex, Ey. cbn [SF2R]. rewrite sg_negb. ring. }
    split.
    + intros HD. unfold D, real in HD. rewrite Ex in HD. cbn [SF2R] in HD.
      unfold real in Hy0. lra.
    + intros _. split; [now exists (negb sy), my, ey|].
      rewrite <- ED. replace (D - D) with 0 by ring. rewrite Rabs_R0.
      apply Rmult_le_pos; [apply Rlt_le, roundoff_pos | apply Rabs_pos].
  - pose proof (SFsub_correct sx sy mx my ex ey) as [H0 H1].
    cbv zeta in H0, H1.
    assert (ED : D = SF2R (S754_finite sx mx ex) - SF2R (S754_finite sy my ey)).
    { unfold D, real. now rewrite Ex, Ey. }
    rewrite <- ED in H0, H1. split.
    + intros HD. exists false. rewrite sub_spec, Ex, Ey. now apply H0.
    + intros HD. destruct (H1 HD) as (s & m & e & E & Hd & He & Herr).
      assert (E' : Prim2SF (x - y) = S754_finite s m e)
        by (rewrite sub_spec, Ex, Ey; exact E).
      split; [now exists s, m, e|]. unfold real at 1. now rewrite E'.
Qed.

Lemma add_model (x y : float) :
  signed_zero x \/ finite_nonzero x -> normal y ->
  let S := real x + real y in
  (S = 0 -> signed_zero (x + y))
  /\ (bpow (-1021) <= Rabs S < bpow 1023 ->
      normal (x + y) /\ Rabs (real (x + y) - S) <= roundoff * Rabs S).
Proof.
  intros Hx Hy S. pose proof (normal_nonzero y Hy) as Hy0.
  destruct Hy as (sy & my & ey & Ey & Hdy & Hey).
  destruct Hx as [[sx Ex] | (sx & mx & ex & Ex)].
  - assert (E : Prim2SF (x + y) = S754_finite sy my ey).
    { rewrite add_spec, Ex, Ey. reflexivity. }
    assert (ED : S = real (x + y)).
    { unfold S, real. rewrite E, Ex, Ey. cbn [SF2R]. ring. }
    split.
    + intros HD. unfold S, real in HD. rewrite Ex in HD. cbn [SF2R] in HD.
      unfold real in Hy0. lra.
    + intros _. split; [now exists sy, my, ey|].
      rewrite <- ED. replace (S - S) with 0 by ring. rewrite Rabs_R0.
      apply Rmult_le_pos; [apply Rlt_le, roundoff_pos | apply Rabs_pos].
  - pose proof (SFadd_correct sx sy mx my ex ey) as [H0 H1].
    cbv zeta in H0, H1.
    assert (ED : S = SF2R (S754_finite sx mx ex) + SF2R (S754_finite sy my ey)).
    { unfold S, real. now rewrite Ex, Ey. }
    rewrite <- ED in H0, H1. split.
    + intros HD. exists false. rewrite add_spec, Ex, Ey. now apply H0.
    + intros HD. destruct (H1 HD) as (s & m & e & E & Hd & He & Herr).
      assert (E' : Prim2SF (x + y) = S754_finite s m e)
        by (rewrite add_spec, Ex, Ey; exact E).
      split; [now exists s, m, e|]. unfold real at 1. now rewrite E'.
Qed.

(** A zero scaled by a normal float is a zero. *)
Lemma mul_zero (x y : float) : signed_zero x -> normal y -> signed_zero (x * y).
Proof.
  intros [sx Ex] (sy & my & ey & Ey & _).
  exists (xorb sx sy). now rewrite mul_spec, Ex, Ey.
Qed.

Lemma div_zero (x y : float) : signed_zero x -> normal y -> signed_zero (x / y).
Proof.
  intros [sx Ex] (sy & my & ey & Ey & _).
  exists (xorb sx sy). now rewrite div_spec, Ex, Ey.
Qed.

End Model.

Section Rng.

Local Open Scope R_scope.

(** The mantissa and the exponent of a finite float are those of the
    binary64 format. *)
Lemma finite_valid (x : float) (s : bool) (m : positive) (e : Z) :
  Prim2SF x = S754_finite s m e ->
  (Zpos (digits2_pos m) <= 53)%Z /\ (-1074 <= e <= 971)%Z
  /\ ((-1074 < e)%Z -> Zpos (digits2_pos m) = 53%Z).
Proof.
  intros E. pose proof (Prim2SF_valid x) as H. rewrite E in H.
  cbn [valid_binary] in H. unfold bounded, canonical_mantissa in H.
  apply andb_prop in H. destruct H as [H1 H2].
  apply Z.eqb_eq in H1. apply Z.leb_le in H2.
  unfold fexp, SpecFloat.emin, prec, emax in *. lia.
Qed.

(** A magnitude compared, in floating point, with a power of two. *)
Lemma abs_le_real (v c : float) (ec : Z) :
  Prim2SF c = S754_finite false two52 ec ->
  (abs v <=? c)%float = true ->
  (signed_zero v \/ finite_nonzero v) /\ Rabs (real v) <= bpow (52 + ec).
Proof.
  intros Ec H. rewrite leb_spec, abs_spec, Ec in H.
  unfold real. destruct (Prim2SF v) as [s|s| |s m e] eqn:Ev;
    cbn [SFabs] in H.
  - split; [left; now exists s|]. cbn [SF2R]. rewrite Rabs_R0.
    apply Rlt_le, bpow_pos.
  - discriminate.
  - discriminate.
  - split; [right; now exists s, m, e|].
    destruct (finite_valid v s m e Ev) as (Hd & He & _).
    rewrite SF2R_abs.
    pose proof (IZR_digits m) as [_ Hu]. pose proof (bpow_pos e) as Hpe.
    assert (Hm53 : IZR (Zpos m) < bpow 53).
    { eapply Rlt_le_trans; [exact Hu|]. apply bpow_le. lia. }
    unfold SFleb, SFcompare in H.
    destruct (Z.compare_spec e ec) as [Heq | Hlt | Hgt].
    + subst ec. rewrite bpow_add.
      assert (IZR (Zpos m) <= bpow 52); [|nra].
      rewrite <- bpow_IZR by lia. apply IZR_le.
      destruct (Pos.compare_cont Eq m two52) eqn:Hc; try discriminate.
      * apply Pos.compare_eq in Hc. subst m. reflexivity.
      * assert (Hc' : (m ?= two52)%positive = Lt) by exact Hc.
        change (2 ^ 52)%Z with (Zpos two52).
        apply Z.lt_le_incl. exact Hc'.
    + apply Rle_trans with (bpow (53 + e)).
      * rewrite bpow_add. nra.
      * apply bpow_le. lia.
    + discriminate.
Qed.

Lemma abs_range_normal (v lo hi : float) (el eh : Z) :
  Prim2SF lo = S754_finite false two52 el ->
  Prim2SF hi = S754_finite false two52 eh ->
  (-1074 < el)%Z ->
  (lo <=? abs v)%float = true -> (abs v <=? hi)%float = true ->
  normal v /\ bpow (52 + el) <= Rabs (real v) <= bpow (52 + eh).
Proof.
  intros El Eh Hel Hlo Hhi.
  destruct (abs_le_real v hi eh Eh Hhi) as [Hf Hub].
  rewrite leb_spec, abs_spec, El in Hlo.
  destruct Hf as [[s Ev] | (s & m & e & Ev)]; rewrite Ev in Hlo.
  - discriminate.
  - cbn [SFabs] in Hlo. unfold SFleb, SFcompare in Hlo.
    destruct (finite_valid v s m e Ev) as (Hd & He & Hn).
    assert (Hee : (el <= e)%Z).
    { destruct (Z.compare_spec el e); try lia; discriminate. }
    specialize (Hn ltac:(lia)).
    split; [now exists s, m, e|]. split; [|exact Hub].
    unfold real. rewrite Ev.
    pose proof (SF2R_bounds s m e Hn) as [Hl _].
    eapply Rle_trans; [|exact Hl]. apply bpow_le. lia.
Qed.

End Rng.

End Rounding.

(** ** Scaling by a constant and back *)

Section Conversions.

Local Open Scope R_scope.

Lemma roundoff_val : roundoff = / 9007199254740992.
Proof.
  unfold roundoff. change (-53)%Z with (- (53))%Z. rewrite bpow_opp, <- bpow_IZR by lia.
  reflexivity.
Qed.

Lemma bpow_m51 : bpow (-51) = 4 * roundoff.
Proof.
  unfold roundoff. replace (-51)%Z with (-53 + 1 + 1)%Z by lia.
  rewrite !bpow_succ. ring.
Qed.

Lemma bpow_double_le (a b : Z) : (a < b)%Z -> 2 * bpow a <= bpow b.
Proof. intros H. rewrite <- bpow_succ. apply bpow_le. lia. Qed.

Lemma abs_mul_range (x y : R) (a b c d : Z) :
  bpow a <= Rabs x <= bpow b -> bpow c <= Rabs y <= bpow d ->
  bpow (a + c) <= Rabs (x * y) <= bpow (b + d).
Proof.
  intros [Hxl Hxu] [Hyl Hyu]. rewrite Rabs_mult, !bpow_add.
  pose proof (bpow_pos a). pose proof (bpow_pos c).
  split; apply Rmult_le_compat; lra.
Qed.

(** Multiplying by a constant and dividing by it again: two roundings. *)
Lemma mul_div_round_trip (v c : float) :
  normal v -> normal c ->
  bpow (-1000) <= Rabs (real v) <= bpow 1000 ->
  bpow (-16) <= Rabs (real c) <= bpow 16 ->
  normal (v * c / c)
  /\ Rabs (real (v * c / c) - real v) <= bpow (-51) * Rabs (real v).
Proof.
  intros Hv Hc HV HC.
  set (V := real v) in *. set (C := real c) in *.
  assert (HC0 : C <> 0) by (apply normal_nonzero; exact Hc).
  assert (HCp : 0 < Rabs C) by (apply Rabs_pos_lt; exact HC0).
  pose proof roundoff_val as Hu. pose proof roundoff_pos as Hup.
  (* the product *)
  pose proof (abs_mul_range V C _ _ _ _ HV HC) as HP.
  change (-1000 + -16)%Z with (-1016)%Z in HP.
  change (1000 + 16)%Z with 1016%Z in HP.
  pose proof (bpow_le (-1021) (-1016) ltac:(lia)).
  pose proof (bpow_lt 1016 1023 ltac:(lia)).
  destruct (mul_model v c Hv Hc) as [Hy Hye]; [fold V C; lra|].
  fold V C in Hye. set (Y := real (v * c)) in *.
  (* the quotient *)
  set (Qv := Y / C) in *.
  assert (HQe : Rabs (Qv - V) <= roundoff * Rabs V).
  { unfold Qv. replace (Y / C - V) with ((Y - V * C) / C) by (field; exact HC0).
    unfold Rdiv at 1. rewrite Rabs_mult, Rabs_inv.
    apply Rmult_le_reg_r with (Rabs C); [exact HCp|].
    rewrite Rmult_assoc, Rinv_l by lra. rewrite Rmult_1_r.
    rewrite Rabs_mult in Hye. lra. }
  pose proof (bpow_double_le (-1021) (-1000) ltac:(lia)).
  pose proof (bpow_double_le 1000 1023 ltac:(lia)).
  pose proof (bpow_pos (-1021)).
  assert (HQr : bpow (-1021) <= Rabs Qv < bpow 1023).
  { clear Hye HP. clearbody Qv. rewrite Hu in HQe. abs_cases. }
  destruct (div_model (v * c) c Hy Hc) as [Hz Hze]; [exact HQr|].
  fold Y C Qv in Hze. split; [exact Hz|].
  rewrite bpow_m51. set (Z := real (v * c / c)) in *.
  clear Hye HP HQr. clearbody Qv Z V. rewrite Hu in *. abs_cases.
Qed.

Lemma abs_div_range (x y : R) (a b c d : Z) :
  bpow a <= Rabs x <= bpow b -> bpow c <= Rabs y <= bpow d ->
  bpow (a - d) <= Rabs (x / y) <= bpow (b - c).
Proof.
  intros Hx [Hyl Hyu]. pose proof (bpow_pos c).
  unfold Rdiv, Z.sub.
  apply abs_mul_range; [exact Hx|].
  rewrite Rabs_inv, !bpow_opp.
  pose proof (bpow_pos d).
  split; apply Rinv_le_contravar; lra.
Qed.

(** Dividing by a constant and multiplying by it again. *)
Lemma div_mul_round_trip (v c : float) :
  normal v -> normal c ->
  bpow (-1000) <= Rabs (real v) <= bpow 1000 ->
  bpow (-16) <= Rabs (real c) <= bpow 16 ->
  normal (v / c * c)
  /\ Rabs (real (v / c * c) - real v) <= bpow (-51) * Rabs (real v).
Proof.
  intros Hv Hc HV HC.
  set (V := real v) in *. set (C := real c) in *.
  assert (HC0 : C <> 0) by (apply normal_nonzero; exact Hc).
  assert (HCp : 0 < Rabs C) by (apply Rabs_pos_lt; exact HC0).
  pose proof roundoff_val as Hu. pose proof roundoff_pos as Hup.
  pose proof (abs_div_range V C _ _ _ _ HV HC) as HQ.
  change (-1000 - 16)%Z with (-1016)%Z in HQ.
  change (1000 - -16)%Z with 1016%Z in HQ.
  pose proof (bpow_le (-1021) (-1016) ltac:(lia)).
  pose proof (bpow_lt 1016 1023 ltac:(lia)).
  destruct (div_model v c Hv Hc) as [Hy Hye]; [fold V C; lra|].
  fold V C in Hye. set (Y := real (v / c)) in *.
  set (Pv := Y * C) in *.
  assert (HPe : Rabs (Pv - V) <= roundoff * Rabs V).
  { unfold Pv. replace (Y * C - V) with ((Y - V / C) * C) by (field; exact HC0).
    rewrite Rabs_mult.
    replace (Rabs V) with (Rabs (V / C) * Rabs C).
    - rewrite <- Rmult_assoc. apply Rmult_le_compat_r; [lra | exact Hye].
    - rewrite <- Rabs_mult. f_equal. field. exact HC0. }
  pose proof (bpow_double_le (-1021) (-1000) ltac:(lia)).
  pose proof (bpow_double_le 1000 1023 ltac:(lia)).
  pose proof (bpow_pos (-1021)).
  assert (HPr : bpow (-1021) <= Rabs Pv < bpow 1023).
  { clear Hye HQ. clearbody Pv. rewrite Hu in HPe. abs_cases. }
  destruct (mul_model (v / c) c Hy Hc) as [Hz Hze]; [exact HPr|].
  fold Y C Pv in Hze. split; [exact Hz|].
  rewrite bpow_m51. set (Z := real (v / c * c)) in *.
  clear Hye HQ HPr. clearbody Pv Z V. rewrite Hu in *. abs_cases.
Qed.

(** Differences and sums of two floats are multiples of a power of two. *)
Lemma add_sub_grid (sx sy : bool) (mx my : positive) (ex ey : Z) :
  let X := SF2R (S754_finite sx mx ex) in
  let Y := SF2R (S754_finite sy my ey) in
  (X - Y <> 0 -> bpow (Z.min ex ey) <= Rabs (X - Y))
  /\ (X + Y <> 0 -> bpow (Z.min ex ey) <= Rabs (X + Y)).
Proof.
  intros X Y. set (ez := Z.min ex ey).
  pose proof (aligned_value sx mx ex ez ltac:(unfold ez; lia)) as Hx.
  pose proof (aligned_value sy my ey ez ltac:(unfold ez; lia)) as Hy.
  fold X in Hx. fold Y in Hy. rewrite <- Hx, <- Hy.
  set (a := cond_Zopp sx (Zpos (fst (shl_align mx ex ez)))).
  set (b := cond_Zopp sy (Zpos (fst (shl_align my ey ez)))).
  pose proof (bpow_pos ez) as Hp.
  assert (G : forall k : Z, IZR k * bpow ez <> 0 ->
                            bpow ez <= Rabs (IZR k * bpow ez)).
  { intros k Hk. rewrite Rabs_mult, (Rabs_pos_eq (bpow ez)) by lra.
    assert (k <> 0%Z) by (intros ->; apply Hk; ring).
    assert (1 <= Rabs (IZR k)).
    { rewrite <- abs_IZR. apply IZR_le. lia. }
    nra. }
  split; intros H.
  - rewrite <- Rmult_minus_distr_r, <- minus_IZR in H |- *. now apply G.
  - rewrite <- Rmult_plus_distr_r, <- plus_IZR in H |- *. now apply G.
Qed.

(** The constants of the conversions. *)
Lemma normal_intro (c : float) (s : bool) (m : positive) (e : Z) :
  Prim2SF c = S754_finite s m e -> Zpos (digits2_pos m) = 53%Z ->
  (-1074 <= e <= 971)%Z -> normal c.
Proof. intros. now exists s, m, e. Qed.

Lemma real_intro (c : float) (s : bool) (m : positive) (e : Z) :
  Prim2SF c = S754_finite s m e -> real c = sg s * IZR (Zpos m) * bpow e.
Proof. intros H. unfold real. now rewrite H. Qed.

Lemma bpow_neg_val (p : positive) : bpow (Zneg p) = / IZR (2 ^ Zpos p).
Proof.
  change (Zneg p) with (- Zpos p)%Z. rewrite bpow_opp, bpow_IZR by lia.
  reflexivity.
Qed.

Lemma normal_32 : normal 32%float.
Proof. eapply normal_intro; [vm_compute; reflexivity | reflexivity | lia]. Qed.
Lemma normal_5 : normal 5%float.
Proof. eapply normal_intro; [vm_compute; reflexivity | reflexivity | lia]. Qed.
Lemma normal_9 : normal 9%float.
Proof. eapply normal_intro; [vm_compute; reflexivity | reflexivity | lia]. Qed.

Lemma real_32 : real 32%float = 32.
Proof.
  rewrite (real_intro 32%float false 4503599627370496 (-47)) by (vm_compute; reflexivity).
  rewrite (bpow_neg_val 47). unfold sg.
  change (2 ^ 47)%Z with 140737488355328%Z. lra.
Qed.
Lemma real_5 : real 5%float = 5.
Proof.
  rewrite (real_intro 5%float false 5629499534213120 (-50)) by (vm_compute; reflexivity).
  rewrite (bpow_neg_val 50). unfold sg.
  change (2 ^ 50)%Z with 1125899906842624%Z. lra.
Qed.
Lemma real_9 : real 9%float = 9.
Proof.
  rewrite (real_intro 9%float false 5066549580791808 (-49)) by (vm_compute; reflexivity).
  rewrite (bpow_neg_val 49). unfold sg.
  change (2 ^ 49)%Z with 562949953421312%Z. lra.
Qed.

Lemma bpow_5 : bpow 5 = 32.
Proof. rewrite <- bpow_IZR by lia. reflexivity. Qed.
Lemma bpow_4 : bpow 4 = 16.
Proof. rewrite <- bpow_IZR by lia. reflexivity. Qed.

(** A float shifted by 32 is zero or at least [2^-48] in magnitude. *)
Lemma offset_range (x : float) (k : Z) :
  (5 <= k)%Z ->
  signed_zero x \/ finite_nonzero x -> Rabs (real x) <= bpow k ->
  (real x - 32 <> 0 -> bpow (-48) <= Rabs (real x - 32) <= bpow (k + 1))
  /\ (real x + 32 <> 0 -> bpow (-48) <= Rabs (real x + 32) <= bpow (k + 1)).
Proof.
  intros Hk Hx Hub.
  pose proof (bpow_le (-48) 0 ltac:(lia)) as H48. rewrite bpow_0 in H48.
  pose proof (bpow_le 5 k ltac:(lia)) as H5. rewrite bpow_5 in H5.
  pose proof (bpow_succ k) as H1001.
  pose proof (bpow_pos (-48)) as Hp48.
  assert (Hup : Rabs (real x - 32) <= bpow (k + 1) /\ Rabs (real x + 32) <= bpow (k + 1)).
  { clear Hx. abs_cases. }
  destruct Hup as [Hu1 Hu2].
  destruct Hx as [Hz | (s & m & e & E)].
  - rewrite (real_zero x Hz) in *. clear Hz.
    split; intros _; (split; [|assumption]); clear Hu1 Hu2 Hub; abs_cases.
  - destruct (finite_valid x s m e E) as (Hd & He & _).
    assert (E32 : Prim2SF 32%float = S754_finite false two52 (-47))
      by (vm_compute; reflexivity).
    pose proof real_32 as R32. unfold real in R32. rewrite E32 in R32.
    unfold real in *. rewrite E in *.
    destruct (Z.le_gt_cases (-48) e) as [Hge | Hlt].
    + destruct (add_sub_grid s false m two52 e (-47)) as [G1 G2].
      cbv zeta in G1, G2. rewrite R32 in G1, G2.
      pose proof (bpow_le (-48) (Z.min e (-47)) ltac:(lia)).
      split; intros H0; (split; [|assumption]).
      * specialize (G1 H0). lra.
      * specialize (G2 H0). lra.
    + assert (Hs : Rabs (SF2R (S754_finite s m e)) < 16).
      { rewrite SF2R_abs. pose proof (IZR_digits m) as [_ Hm].
        pose proof (bpow_le (Zpos (digits2_pos m)) 53 ltac:(lia)).
        pose proof (bpow_le (53 + e) 4 ltac:(lia)) as H4.
        rewrite bpow_4, bpow_add in H4. pose proof (bpow_pos e). nra. }
      split; intros _; (split; [|assumption]);
        clear Hub Hu1 Hu2 R32; abs_cases.
Qed.

Lemma bpow_scale (k : Z) (a : Z) :
  (0 <= k)%Z -> IZR (2 ^ k) * bpow a = bpow (a + k).
Proof. intros H. rewrite bpow_IZR, bpow_add by lia. ring. Qed.


(** The six operations of the conversion from °F and back, each within
    the unit roundoff of the exact result: the Celsius value and the
    value that comes back, with their error bounds. *)
Lemma celsius_chain (v : float) :
  signed_zero v \/ finite_nonzero v -> Rabs (real v) <= bpow 1000 ->
  let c := to_celsius Fahrenheit v in
  let w := fahrenheit_of_celsius c in
  (signed_zero c \/ normal c)
  /\ Rabs (real c - (real v - 32) * 5 / 9)
     <= bpow (-51) * Rabs ((real v - 32) * 5 / 9)
  /\ (signed_zero w \/ normal w)
  /\ Rabs (real w - real v) <= bpow (-50) * (Rabs (real v) + 32).
Proof.
  intros Hv HV c w. unfold w, c, fahrenheit_of_celsius, to_celsius.
  set (V := real v) in *.
  pose proof roundoff_val as Hu. pose proof bpow_m51 as H51.
  assert (H50 : bpow (-50) = 8 * roundoff).
  { replace (-50)%Z with (-51 + 1)%Z by lia. rewrite bpow_succ, H51. ring. }
  rewrite H51, H50, Hu. clear H51 H50.
  destruct (sub_model v 32%float Hv normal_32) as [S0 S1].
  cbv zeta in S0, S1. fold V in S0, S1. rewrite real_32 in S0, S1.
  set (D := V - 32) in *.
  pose proof normal_5 as N5. pose proof normal_9 as N9.
  pose proof normal_32 as N32.
  destruct (Req_dec D 0) as [HD0 | HD0].
  - (* the temperature is exactly 32: every intermediate value is a zero *)
    pose proof (S0 HD0) as Z1.
    pose proof (mul_zero _ _ Z1 N5) as Z2.
    pose proof (div_zero _ _ Z2 N9) as Z3.
    pose proof (mul_zero _ _ Z3 N9) as Z4.
    pose proof (div_zero _ _ Z4 N5) as Z5.
    destruct (add_model _ 32%float (or_introl Z5) N32) as [_ A1].
    cbv zeta in A1. rewrite (real_zero _ Z5), real_32 in A1.
    replace (0 + 32) with 32 in A1 by ring.
    pose proof (bpow_le (-1021) 0 ltac:(lia)) as Hl. rewrite bpow_0 in Hl.
    pose proof (bpow_le 5 1023 ltac:(lia)) as Hh. rewrite bpow_5 in Hh.
    pose proof (bpow_lt 5 1023 ltac:(lia)) as Hh'. rewrite bpow_5 in Hh'.
    destruct A1 as [Nw Ew]; [rewrite Rabs_pos_eq; lra|].
    rewrite (real_zero _ Z3). rewrite Hu in Ew.
    split; [now left|]. split.
    + rewrite HD0. replace (0 * 5 / 9) with 0 by field.
      replace (0 - 0) with 0 by ring. rewrite Rabs_R0. lra.
    + split; [now right|].
      assert (EV : V = 32) by (unfold D in HD0; lra).
      rewrite EV. clear - Ew. abs_cases.
  - (* the general case *)
    destruct (offset_range v 1000 ltac:(lia) Hv HV) as [OR _].
    fold V D in OR. specialize (OR HD0). destruct OR as [DL DH].
    change (1000 + 1)%Z with 1001%Z in DH.
    pose proof (bpow_scale 10 (-1021) ltac:(lia)) as L1.
    change (-1021 + 10)%Z with (-1011)%Z in L1.
    pose proof (bpow_le (-1011) (-48) ltac:(lia)) as L2.
    pose proof (bpow_scale 10 1001 ltac:(lia)) as U1.
    change (1001 + 10)%Z with 1011%Z in U1.
    pose proof (bpow_lt 1011 1023 ltac:(lia)) as U2.
    change (2 ^ 10)%Z with 1024%Z in L1, U1.
    pose proof (bpow_pos (-1021)) as Hlo.
    set (lo := bpow (-1021)) in *. set (hi := bpow 1023) in *.
    set (L := bpow (-48)) in *. set (H := bpow 1001) in *.
    assert (RD : 1024 * lo <= Rabs D /\ 1024 * Rabs D < hi) by lra.
    clear L1 L2 U1 U2 DL DH.
    (* t1 = v - 32 *)
    destruct S1 as [N1 E1]; [clear - RD Hlo; abs_cases|].
    set (t1 := (v - 32)%float) in *. set (T1 := real t1) in *.
    rewrite Hu in E1.
    (* t2 = t1 * 5 *)
    destruct (mul_model t1 5%float N1 N5) as [N2 E2].
    { rewrite real_5. fold T1 lo hi. clear - RD Hlo E1. abs_cases. }
    rewrite real_5 in E2. fold T1 in E2.
    set (t2 := (t1 * 5)%float) in *. set (T2 := real t2) in *.
    rewrite Hu in E2.
    assert (A2 : Rabs (T2 - 5 * D) <= 2002 / 1000 * / 9007199254740992 * (5 * Rabs D)).
    { clear - E1 E2. abs_cases. }
    clear E1 E2.
    (* t3 = t2 / 9 *)
    destruct (div_model t2 9%float N2 N9) as [N3 E3].
    { rewrite real_9. fold T2 lo hi. clear - RD Hlo A2. abs_cases. }
    rewrite real_9 in E3. fold T2 in E3.
    set (t3 := (t2 / 9)%float) in *. set (T3 := real t3) in *.
    rewrite Hu in E3.
    assert (A3 : Rabs (T3 - 5 / 9 * D) <= 3003 / 1000 * / 9007199254740992 * (5 / 9 * Rabs D)).
    { clear - A2 E3. abs_cases. }
    clear E3 A2.
    (* t4 = t3 * 9 *)
    destruct (mul_model t3 9%float N3 N9) as [N4 E4].
    { rewrite real_9. fold T3 lo hi. clear - RD Hlo A3. abs_cases. }
    rewrite real_9 in E4. fold T3 in E4.
    set (t4 := (t3 * 9)%float) in *. set (T4 := real t4) in *.
    rewrite Hu in E4.
    assert (A4 : Rabs (T4 - 5 * D) <= 4004 / 1000 * / 9007199254740992 * (5 * Rabs D)).
    { clear - A3 E4. abs_cases. }
    clear E4.
    (* t5 = t4 / 5 *)
    destruct (div_model t4 5%float N4 N5) as [N5' E5].
    { rewrite real_5. fold T4 lo hi. clear - RD Hlo A4. abs_cases. }
    rewrite real_5 in E5. fold T4 in E5.
    set (t5 := (t4 / 5)%float) in *. set (T5 := real t5) in *.
    rewrite Hu in E5.
    assert (A5 : Rabs (T5 - D) <= 5005 / 1000 * / 9007199254740992 * Rabs D).
    { clear - A4 E5. abs_cases. }
    clear E5 A4.
    split; [now right|]. split.
    { replace ((V - 32) * 5 / 9) with (5 / 9 * D) by (unfold D; field).
      clear - A3. abs_cases. }
    (* w = t5 + 32 *)
    destruct (add_model t5 32%float (or_intror (normal_finite _ N5')) N32)
      as [W0 W1].
    cbv zeta in W0, W1. fold T5 in W0, W1. rewrite real_32 in W0, W1.
    set (wf := (t5 + 32)%float) in *.
    assert (HT5 : Rabs T5 <= bpow 1002).
    { pose proof (bpow_succ 1001) as Hs. change (1001 + 1)%Z with 1002%Z in Hs.
      fold H in Hs. assert (Rabs D <= H).
      { unfold H. unfold D. apply Rle_trans with (Rabs V + 32).
        - clear. abs_cases.
        - pose proof (bpow_le 5 1000 ltac:(lia)) as H5. rewrite bpow_5 in H5.
          pose proof (bpow_succ 1000) as Hs'.
          change (1000 + 1)%Z with 1001%Z in Hs'. lra. }
      clear - A5 Hs H0. abs_cases. }
    destruct (Req_dec (T5 + 32) 0) as [HS0 | HS0].
    + pose proof (W0 HS0) as Zw. split; [now left|].
      rewrite (real_zero _ Zw).
      assert (EV : V = D + 32) by (unfold D; ring).
      clear - A5 HS0 EV. abs_cases.
    + destruct (offset_range t5 1002 ltac:(lia)
                  (or_intror (normal_finite _ N5')) HT5) as [_ OR].
      fold T5 in OR. specialize (OR HS0). destruct OR as [SL SH].
      change (1002 + 1)%Z with 1003%Z in SH.
      pose proof (bpow_le (-1021) (-48) ltac:(lia)) as L2.
      pose proof (bpow_lt 1003 1023 ltac:(lia)) as U2.
      destruct W1 as [Nw Ew]; [fold lo hi in L2, U2 |- *; lra|].
      split; [now right|].
      rewrite Hu in Ew. fold wf.
      assert (EV : V = D + 32) by (unfold D; ring).
      set (W := real wf) in *.
      clear - A5 Ew EV. abs_cases.
Qed.

Lemma normal_lb : normal 0.453592%float.
Proof. eapply normal_intro; [vm_compute; reflexivity | reflexivity | lia]. Qed.
Lemma normal_1000 : normal 1000%float.
Proof. eapply normal_intro; [vm_compute; reflexivity | reflexivity | lia]. Qed.
Lemma normal_BTU : normal 4.1868%float.
Proof. eapply normal_intro; [vm_compute; reflexivity | reflexivity | lia]. Qed.

Lemma real_lb : real 0.453592%float = 8171187048712952 / 18014398509481984.
Proof.
  rewrite (real_intro 0.453592%float false 8171187048712952 (-54))
    by (vm_compute; reflexivity).
  rewrite (bpow_neg_val 54). unfold sg.
  change (2 ^ 54)%Z with 18014398509481984%Z. lra.
Qed.
Lemma real_1000 : real 1000%float = 1000.
Proof.
  rewrite (real_intro 1000%float false 8796093022208000 (-43))
    by (vm_compute; reflexivity).
  rewrite (bpow_neg_val 43). unfold sg.
  change (2 ^ 43)%Z with 8796093022208%Z. lra.
Qed.
Lemma real_BTU : real 4.1868%float = 4713917729968698 / 1125899906842624.
Proof.
  rewrite (real_intro 4.1868%float false 4713917729968698 (-50))
    by (vm_compute; reflexivity).
  rewrite (bpow_neg_val 50). unfold sg.
  change (2 ^ 50)%Z with 1125899906842624%Z. lra.
Qed.

Lemma bpow_16 : bpow 16 = 65536.
Proof. rewrite <- bpow_IZR by lia. reflexivity. Qed.
Lemma bpow_m16 : bpow (-16) = / 65536.
Proof. rewrite (bpow_neg_val 16). reflexivity. Qed.

(** The ranges of the statements below, read off the float
    comparisons. *)
Lemma working_range (v : float) :
  (0x1p-1000 <=? abs v)%float = true -> (abs v <=? 0x1p1000)%float = true ->
  normal v /\ bpow (-1000) <= Rabs (real v) <= bpow 1000.
Proof.
  intros Hlo Hhi.
  apply (abs_range_normal v 0x1p-1000%float 0x1p1000%float (-1052) 948);
    try assumption; vm_compute; reflexivity.
Qed.

Lemma below_ceiling (v : float) :
  (abs v <=? 0x1p1000)%float = true ->
  (signed_zero v \/ finite_nonzero v) /\ Rabs (real v) <= bpow 1000.
Proof.
  intros Hhi.
  apply (abs_le_real v 0x1p1000%float 948); [vm_compute; reflexivity | exact Hhi].
Qed.

Lemma range_lb : bpow (-16) <= Rabs (real 0.453592%float) <= bpow 16.
Proof. rewrite real_lb, bpow_16, bpow_m16. abs_cases. Qed.
Lemma range_1000 : bpow (-16) <= Rabs (real 1000%float) <= bpow 16.
Proof. rewrite real_1000, bpow_16, bpow_m16. abs_cases. Qed.
Lemma range_BTU : bpow (-16) <= Rabs (real 4.1868%float) <= bpow 16.
Proof. rewrite real_BTU, bpow_16, bpow_m16. abs_cases. Qed.

(** A value of the working range scaled by a constant of moderate size
    stays in the normal range. *)
Lemma scaling_range (V C : R) :
  bpow (-1000) <= Rabs V <= bpow 1000 -> bpow (-16) <= Rabs C <= bpow 16 ->
  C <> 0 ->
  (bpow (-1021) <= Rabs (V * C) < bpow 1023)
  /\ (bpow (-1021) <= Rabs (V / C) < bpow 1023).
Proof.
  intros HV HC HC0.
  pose proof (bpow_le (-1021) (-1016) ltac:(lia)).
  pose proof (bpow_lt 1016 1023 ltac:(lia)).
  split.
  - pose proof (abs_mul_range V C _ _ _ _ HV HC) as HP.
    change (-1000 + -16)%Z with (-1016)%Z in HP.
    change (1000 + 16)%Z with 1016%Z in HP. lra.
  - assert (HI : bpow (-16) <= Rabs (/ C) <= bpow 16).
    { rewrite Rabs_inv. pose proof (bpow_pos (-16)) as Hp.
      assert (HCp : 0 < Rabs C) by lra.
      pose proof (bpow_opp 16) as Ho. change (- (16))%Z with (-16)%Z in Ho.
      split.
      - rewrite Ho. apply Rinv_le_contravar; lra.
      - replace (bpow 16) with (/ bpow (-16)).
        + apply Rinv_le_contravar; lra.
        + rewrite Ho, Rinv_inv. reflexivity. }
    pose proof (abs_mul_range V (/ C) _ _ _ _ HV HI) as HP.
    change (-1000 + -16)%Z with (-1016)%Z in HP.
    change (1000 + 16)%Z with 1016%Z in HP. unfold Rdiv. lra.
Qed.

(** ** Accuracy and round trips of the unit conversions (lines 22 to 33)

    Temperatures are taken up to [2^1000] in magnitude, flows and
    specific heats between [2^-1000] and [2^1000]: in these ranges no
    intermediate result overflows or is subnormal. *)

Lemma scaling_accuracy (v c : float) (C : R) :
  normal v -> normal c ->
  bpow (-1000) <= Rabs (real v) <= bpow 1000 ->
  bpow (-16) <= Rabs (real c) <= bpow 16 ->
  Rabs (real c - C) <= roundoff * Rabs C ->
  Rabs (real (v * c) - real v * C) <= bpow (-51) * Rabs (real v * C).
Proof.
  intros Hv Hc HV HC HCe.
  pose proof (normal_nonzero c Hc) as HC0.
  destruct (scaling_range (real v) (real c) HV HC HC0) as [HP _].
  destruct (mul_model v c Hv Hc HP) as [_ He].
  pose proof roundoff_val as Hu. pose proof roundoff_pos as Hup.
  rewrite bpow_m51.
  set (V := real v) in *. set (K := real c) in *. set (P := real (v * c)) in *.
  assert (H1 : Rabs (V * K - V * C) <= roundoff * Rabs (V * C)).
  { rewrite <- Rmult_minus_distr_l, !Rabs_mult.
    rewrite (Rmult_comm roundoff), Rmult_assoc.
    apply Rmult_le_compat_l; [apply Rabs_pos|]. lra. }
  assert (H2 : Rabs (V * K) <= (1 + roundoff) * Rabs (V * C)).
  { replace (V * K) with (V * C + (V * K - V * C)) by ring.
    eapply Rle_trans; [apply Rabs_triang|]. lra. }
  assert (H3 : roundoff * Rabs (V * K) <= 2 * roundoff * Rabs (V * C)).
  { pose proof (Rabs_pos (V * C)).
    apply Rle_trans with (roundoff * ((1 + roundoff) * Rabs (V * C))).
    - apply Rmult_le_compat_l; lra.
    - rewrite Hu. rewrite Hu in Hup. lra. }
  replace (P - V * C) with ((P - V * K) + (V * K - V * C)) by ring.
  eapply Rle_trans; [apply Rabs_triang|].
  assert (0 <= roundoff * Rabs (V * C))
    by (apply Rmult_le_pos; [lra | apply Rabs_pos]).
  lra.
Qed.

Lemma decimal_lb :
  Rabs (real 0.453592%float - 453592 / 1000000)
  <= roundoff * Rabs (453592 / 1000000).
Proof. rewrite real_lb, roundoff_val. abs_cases. Qed.

Lemma decimal_BTU :
  Rabs (real 4.1868%float - 41868 / 10000) <= roundoff * Rabs (41868 / 10000).
Proof. rewrite real_BTU, roundoff_val. abs_cases. Qed.

(** X8: a temperature in °F of magnitude up to [2^1000] is converted to
    °C with a relative error of at most [2^-51]: the result is within
    that fraction of the exact [(v - 32) * 5 / 9], and it is a zero or a
    normal float, never an infinity or a NaN. *)
Theorem to_celsius_accuracy (v : float) :
  (abs v <=? 0x1p1000)%float = true ->
  (signed_zero (to_celsius Fahrenheit v) \/ normal (to_celsius Fahrenheit v))
  /\ Rabs (real (to_celsius Fahrenheit v) - (real v - 32) * 5 / 9)
     <= bpow (-51) * Rabs ((real v - 32) * 5 / 9).
Proof.
  intros H. destruct (below_ceiling v H) as [Hf Hb].
  destruct (celsius_chain v Hf Hb) as (H1 & H2 & _). now split.
Qed.

Lemma to_celsius_accuracy_witness :
  (signed_zero (to_celsius Fahrenheit 176) \/ normal (to_celsius Fahrenheit 176))
  /\ Rabs (real (to_celsius Fahrenheit 176) - (real 176 - 32) * 5 / 9)
     <= bpow (-51) * Rabs ((real 176 - 32) * 5 / 9).
Proof. apply (to_celsius_accuracy 176%float). vm_compute; reflexivity. Defined.

(** X9: for every temperature in °F of magnitude up to [2^1000], the
    conversion to °C followed by the inverse formula returns a float
    within [2^-50 * (|v| + 32)] of the original. *)
Theorem fahrenheit_round_trip (v : float) :
  (abs v <=? 0x1p1000)%float = true ->
  (signed_zero (round_trip_F v) \/ normal (round_trip_F v))
  /\ Rabs (real (round_trip_F v) - real v)
     <= bpow (-50) * (Rabs (real v) + 32).
Proof.
  intros H. destruct (below_ceiling v H) as [Hf Hb].
  destruct (celsius_chain v Hf Hb) as (_ & _ & H3 & H4). now split.
Qed.

Lemma fahrenheit_round_trip_witness :
  (signed_zero (round_trip_F 98.6) \/ normal (round_trip_F 98.6))
  /\ Rabs (real (round_trip_F 98.6) - real 98.6)
     <= bpow (-50) * (Rabs (real 98.6) + 32).
Proof. apply (fahrenheit_round_trip 98.6%float). vm_compute; reflexivity. Defined.

(** X10: for every flow or specific heat of magnitude between [2^-1000]
    and [2^1000], each scaling conversion (lb/s to kg/s, J/kg°C and
    BTU/lb°F to kJ/kg°C) followed by its inverse formula returns a normal
    float within a relative [2^-51] of the original. *)
Theorem scalings_round_trip (v : float) :
  (0x1p-1000 <=? abs v)%float = true -> (abs v <=? 0x1p1000)%float = true ->
  (normal (round_trip_lb v)
   /\ Rabs (real (round_trip_lb v) - real v) <= bpow (-51) * Rabs (real v))
  /\ (normal (round_trip_J v)
      /\ Rabs (real (round_trip_J v) - real v) <= bpow (-51) * Rabs (real v))
  /\ (normal (round_trip_BTU v)
      /\ Rabs (real (round_trip_BTU v) - real v) <= bpow (-51) * Rabs (real v)).
Proof.
  intros Hlo Hhi. destruct (working_range v Hlo Hhi) as [Hn Hr].
  split; [|split].
  - exact (mul_div_round_trip v 0.453592%float Hn normal_lb Hr range_lb).
  - exact (div_mul_round_trip v 1000%float Hn normal_1000 Hr range_1000).
  - exact (mul_div_round_trip v 4.1868%float Hn normal_BTU Hr range_BTU).
Qed.

Lemma scalings_round_trip_witness :
  (normal (round_trip_lb 2.2)
   /\ Rabs (real (round_trip_lb 2.2) - real 2.2) <= bpow (-51) * Rabs (real 2.2))
  /\ (normal (round_trip_J 2.2)
      /\ Rabs (real (round_trip_J 2.2) - real 2.2) <= bpow (-51) * Rabs (real 2.2))
  /\ (normal (round_trip_BTU 2.2)
      /\ Rabs (real (round_trip_BTU 2.2) - real 2.2)
         <= bpow (-51) * Rabs (real 2.2)).
Proof. apply (scalings_round_trip 2.2%float); vm_compute; reflexivity. Defined.

(** X11: for every flow or specific heat of magnitude between [2^-1000]
    and [2^1000], the converted value is within a relative [2^-51] of the
    exact product by 0.453592 (lb/s) or by 4.1868 (BTU/lb°F), and within
    a relative [2^-53] of the exact quotient by 1000 (J/kg°C). *)
Theorem scalings_accuracy (v : float) :
  (0x1p-1000 <=? abs v)%float = true -> (abs v <=? 0x1p1000)%float = true ->
  Rabs (real (to_kg lb_per_s v) - real v * (453592 / 1000000))
  <= bpow (-51) * Rabs (real v * (453592 / 1000000))
  /\ Rabs (real (to_kj_per_kgC J_per_kgC v) - real v / 1000)
     <= bpow (-53) * Rabs (real v / 1000)
  /\ Rabs (real (to_kj_per_kgC BTU_per_lbF v) - real v * (41868 / 10000))
     <= bpow (-51) * Rabs (real v * (41868 / 10000)).
Proof.
  intros Hlo Hhi. destruct (working_range v Hlo Hhi) as [Hn Hr].
  split; [|split].
  - exact (scaling_accuracy v 0.453592%float _ Hn normal_lb Hr range_lb
             decimal_lb).
  - pose proof (normal_nonzero _ normal_1000) as H0.
    destruct (scaling_range (real v) (real 1000%float) Hr range_1000 H0)
      as [_ HQ].
    destruct (div_model v 1000%float Hn normal_1000 HQ) as [_ He].
    rewrite real_1000 in He. exact He.
  - exact (scaling_accuracy v 4.1868%float _ Hn normal_BTU Hr range_BTU
             decimal_BTU).
Qed.

Lemma scalings_accuracy_witness :
  Rabs (real (to_kg lb_per_s 2.2) - real 2.2 * (453592 / 1000000))
  <= bpow (-51) * Rabs (real 2.2 * (453592 / 1000000))
  /\ Rabs (real (to_kj_per_kgC J_per_kgC 2.2) - real 2.2 / 1000)
     <= bpow (-53) * Rabs (real 2.2 / 1000)
  /\ Rabs (real (to_kj_per_kgC BTU_per_lbF 2.2) - real 2.2 * (41868 / 10000))
     <= bpow (-51) * Rabs (real 2.2 * (41868 / 10000)).
Proof. apply (scalings_accuracy 2.2%float); vm_compute; reflexivity. Defined.

(** X12: for every temperature in °F of magnitude up to [2^1000], the
    converted temperature has the sign of the exact one: it is below zero
    exactly for entries below 32 °F, zero exactly at 32 °F and above zero
    exactly for entries above 32 °F. *)
Theorem to_celsius_sign (v : float) :
  (abs v <=? 0x1p1000)%float = true ->
  (real (to_celsius Fahrenheit v) < 0 <-> real v < 32)
  /\ (real (to_celsius Fahrenheit v) = 0 <-> real v = 32)
  /\ (0 < real (to_celsius Fahrenheit v) <-> 32 < real v).
Proof.
  intros H. destruct (below_ceiling v H) as [Hf Hb].
  destruct (celsius_chain v Hf Hb) as (_ & He & _). cbv zeta in He.
  rewrite bpow_m51, roundoff_val in He. clear H Hf Hb.
  set (c := real (to_celsius Fahrenheit v)) in *.
  set (V := real v) in *. clearbody c V.
  abs_cases.
Qed.

Lemma to_celsius_sign_witness :
  (real (to_celsius Fahrenheit 14) < 0 <-> real 14 < 32)
  /\ (real (to_celsius Fahrenheit 14) = 0 <-> real 14 = 32)
  /\ (0 < real (to_celsius Fahrenheit 14) <-> 32 < real 14).
Proof. apply (to_celsius_sign 14%float). vm_compute; reflexivity. Defined.

(** ** Accuracy of the heat duties (lines 77 to 79) *)

Lemma moderate_range (v : float) :
  moderate v = true ->
  normal v /\ bpow (-300) <= Rabs (real v) <= bpow 300.
Proof.
  unfold moderate. intros H. apply andb_prop in H. destruct H as [Hlo Hhi].
  apply (abs_range_normal v 0x1p-300%float 0x1p300%float (-352) 248);
    try assumption; vm_compute; reflexivity.
Qed.

Lemma eqb_zero (v : float) : (v =? 0)%float = true -> signed_zero v.
Proof.
  rewrite FloatAxioms.eqb_spec.
  change (Prim2SF 0%float) with (S754_zero false).
  unfold SFeqb, SFcompare.
  destruct (Prim2SF v) as [s|s| |s m e] eqn:E; try discriminate.
  - intros _. now exists s.
  - now destruct s.
  - now destruct s.
Qed.

Lemma moderate_or_zero_graded (v : float) :
  moderate_or_zero v = true -> graded (-300) 300 v.
Proof.
  unfold moderate_or_zero. intros H. apply orb_prop in H.
  destruct H as [H | H].
  - left. now apply eqb_zero.
  - right. now apply moderate_range.
Qed.

Lemma graded_finite (lo hi : Z) (x : float) :
  graded lo hi x -> signed_zero x \/ finite_nonzero x.
Proof. intros [H | [H _]]; [now left | right; now apply normal_finite]. Qed.

Lemma normal_exponent (s : bool) (m : positive) (e lo : Z) :
  Zpos (digits2_pos m) = 53%Z ->
  bpow lo <= Rabs (SF2R (S754_finite s m e)) -> (lo - 52 <= e)%Z.
Proof.
  intros Hd H. pose proof (SF2R_bounds s m e Hd) as [_ Hu].
  assert (Hlt : bpow lo < bpow (53 + e)) by lra.
  apply bpow_lt_inv in Hlt. lia.
Qed.

Lemma range_widen (lo hi : Z) (X : R) :
  bpow lo <= Rabs X <= bpow hi ->
  bpow (lo - 53) <= Rabs X <= bpow (hi + 2).
Proof.
  intros [H1 H2]. pose proof (bpow_le (lo - 53) lo ltac:(lia)).
  pose proof (bpow_le hi (hi + 2) ltac:(lia)). lra.
Qed.

Lemma rounded_range (lo hi : Z) (r D : R) :
  bpow (lo - 52) <= Rabs D -> Rabs D <= bpow (hi + 1) ->
  Rabs (r - D) <= roundoff * Rabs D ->
  bpow (lo - 53) <= Rabs r <= bpow (hi + 2).
Proof.
  intros Hl Hu He. rewrite roundoff_val in He.
  pose proof (bpow_succ (lo - 53)) as H1.
  replace (lo - 53 + 1)%Z with (lo - 52)%Z in H1 by lia.
  pose proof (bpow_succ (hi + 1)) as H2.
  replace (hi + 1 + 1)%Z with (hi + 2)%Z in H2 by lia.
  pose proof (bpow_pos (lo - 53)). pose proof (bpow_pos (hi + 1)).
  set (a := bpow (lo - 53)) in *. set (b := bpow (hi + 1)) in *.
  set (a' := bpow (lo - 52)) in *. set (b' := bpow (hi + 2)) in *.
  clearbody a b a' b'. abs_cases.
Qed.

(** The difference of two graded floats: a zero when the exact
    difference is zero, a normal float within the unit roundoff of it
    otherwise. *)
Lemma difference_model (x y : float) (lo hi : Z) :
  (-960 <= lo)%Z -> (lo <= hi)%Z -> (hi <= 1000)%Z ->
  graded lo hi x -> graded lo hi y ->
  let D := real x - real y in
  (D = 0 /\ signed_zero (x - y))
  \/ (normal (x - y)
      /\ Rabs (real (x - y) - D) <= roundoff * Rabs D
      /\ bpow (lo - 53) <= Rabs (real (x - y)) <= bpow (hi + 2)).
Proof.
  intros Hlo Hlh Hhi Hx Hy D.
  pose proof (graded_finite lo hi x Hx) as Hfx.
  destruct Hy as [[sy Ey] | [Hy Ry]].
  - (* nothing is taken away *)
    destruct Hx as [[sx Ex] | [Hx Rx]].
    + left. split.
      * unfold D, real. rewrite Ex, Ey. cbn [SF2R]. ring.
      * assert (E : Prim2SF (x - y)
                    = SFsub prec emax (S754_zero sx) (S754_zero sy)).
        { rewrite sub_spec, Ex, Ey. reflexivity. }
        destruct sx, sy; cbn in E; eexists; exact E.
    + right. destruct Hx as (s & m & e & Ex & Hd & He).
      assert (E : Prim2SF (x - y) = S754_finite s m e).
      { rewrite sub_spec, Ex, Ey. reflexivity. }
      assert (ER : real (x - y) = real x).
      { unfold real. now rewrite E, Ex. }
      assert (ED : D = real x).
      { unfold D. unfold real at 2. rewrite Ey. cbn [SF2R]. ring. }
      split; [now exists s, m, e|]. rewrite ER, ED. split.
      * replace (real x - real x) with 0 by ring. rewrite Rabs_R0.
        apply Rmult_le_pos; [apply Rlt_le, roundoff_pos | apply Rabs_pos].
      * now apply range_widen.
  - destruct (sub_model x y Hfx Hy) as [H0 H1]. cbv zeta in H0, H1.
    fold D in H0, H1.
    destruct (Req_dec D 0) as [HD | HD]; [left; split; [exact HD | exact (H0 HD)]|].
    right.
    assert (Hup : Rabs D <= bpow (hi + 1)).
    { rewrite bpow_succ. destruct Ry as [_ Ryu].
      assert (Rabs (real x) <= bpow hi).
      { destruct Hx as [Hz | [_ [_ Hxu]]]; [|exact Hxu].
        rewrite (real_zero x Hz), Rabs_R0. apply Rlt_le, bpow_pos. }
      unfold D. clear - H Ryu. abs_cases. }
    assert (Hdn : bpow (lo - 52) <= Rabs D).
    { destruct Hx as [Hz | [Hx Rx]].
      - unfold D. rewrite (real_zero x Hz).
        pose proof (bpow_le (lo - 52) lo ltac:(lia)).
        destruct Ry as [Ryl _]. clear - H Ryl. abs_cases.
      - destruct Hx as (sx & mx & ex & Ex & Hdx & Hex).
        destruct Hy as (sy & my & ey & Ey & Hdy & Hey).
        unfold D, real in *. rewrite Ex, Ey in *.
        pose proof (normal_exponent sx mx ex lo Hdx (proj1 Rx)).
        pose proof (normal_exponent sy my ey lo Hdy (proj1 Ry)).
        destruct (add_sub_grid sx sy mx my ex ey) as [G _]. cbv zeta in G.
        specialize (G HD).
        pose proof (bpow_le (lo - 52) (Z.min ex ey) ltac:(lia)). lra. }
    destruct H1 as [Hn He].
    { pose proof (bpow_le (-1021) (lo - 52) ltac:(lia)).
      pose proof (bpow_lt (hi + 1) 1023 ltac:(lia)). lra. }
    split; [exact Hn|]. split; [exact He|].
    exact (rounded_range lo hi _ D Hdn Hup He).
Qed.
(** The same for the sum. *)
Lemma sum_model (x y : float) (lo hi : Z) :
  (-960 <= lo)%Z -> (lo <= hi)%Z -> (hi <= 1000)%Z ->
  graded lo hi x -> graded lo hi y ->
  let D := real x + real y in
  (D = 0 /\ signed_zero (x + y))
  \/ (normal (x + y)
      /\ Rabs (real (x + y) - D) <= roundoff * Rabs D
      /\ bpow (lo - 53) <= Rabs (real (x + y)) <= bpow (hi + 2)).
Proof.
  intros Hlo Hlh Hhi Hx Hy D.
  pose proof (graded_finite lo hi x Hx) as Hfx.
  destruct Hy as [[sy Ey] | [Hy Ry]].
  - (* nothing is added *)
    destruct Hx as [[sx Ex] | [Hx Rx]].
    + left. split.
      * unfold D, real. rewrite Ex, Ey. cbn [SF2R]. ring.
      * assert (E : Prim2SF (x + y)
                    = SFadd prec emax (S754_zero sx) (S754_zero sy)).
        { rewrite add_spec, Ex, Ey. reflexivity. }
        destruct sx, sy; cbn in E; eexists; exact E.
    + right. destruct Hx as (s & m & e & Ex & Hd & He).
      assert (E : Prim2SF (x + y) = S754_finite s m e).
      { rewrite add_spec, Ex, Ey. reflexivity. }
      assert (ER : real (x + y) = real x).
      { unfold real. now rewrite E, Ex. }
      assert (ED : D = real x).
      { unfold D. unfold real at 2. rewrite Ey. cbn [SF2R]. ring. }
      split; [now exists s, m, e|]. rewrite ER, ED. split.
      * replace (real x - real x) with 0 by ring. rewrite Rabs_R0.
        apply Rmult_le_pos; [apply Rlt_le, roundoff_pos | apply Rabs_pos].
      * now apply range_widen.
  - destruct (add_model x y Hfx Hy) as [H0 H1]. cbv zeta in H0, H1.
    fold D in H0, H1.
    destruct (Req_dec D 0) as [HD | HD]; [left; split; [exact HD | exact (H0 HD)]|].
    right.
    assert (Hup : Rabs D <= bpow (hi + 1)).
    { rewrite bpow_succ. destruct Ry as [_ Ryu].
      assert (Rabs (real x) <= bpow hi).
      { destruct Hx as [Hz | [_ [_ Hxu]]]; [|exact Hxu].
        rewrite (real_zero x Hz), Rabs_R0. apply Rlt_le, bpow_pos. }
      unfold D. clear - H Ryu. abs_cases. }
    assert (Hdn : bpow (lo - 52) <= Rabs D).
    { destruct Hx as [Hz | [Hx Rx]].
      - unfold D. rewrite (real_zero x Hz).
        pose proof (bpow_le (lo - 52) lo ltac:(lia)).
        destruct Ry as [Ryl _]. clear - H Ryl. abs_cases.
      - destruct Hx as (sx & mx & ex & Ex & Hdx & Hex).
        destruct Hy as (sy & my & ey & Ey & Hdy & Hey).
        unfold D, real in *. rewrite Ex, Ey in *.
        pose proof (normal_exponent sx mx ex lo Hdx (proj1 Rx)).
        pose proof (normal_exponent sy my ey lo Hdy (proj1 Ry)).
        destruct (add_sub_grid sx sy mx my ex ey) as [_ G]. cbv zeta in G.
        specialize (G HD).
        pose proof (bpow_le (lo - 52) (Z.min ex ey) ltac:(lia)). lra. }
    destruct H1 as [Hn He].
    { pose proof (bpow_le (-1021) (lo - 52) ltac:(lia)).
      pose proof (bpow_lt (hi + 1) 1023 ltac:(lia)). lra. }
    split; [exact Hn|]. split; [exact He|].
    exact (rounded_range lo hi _ D Hdn Hup He).
Qed.

Lemma mul_zero_r (x y : float) :
  normal x -> signed_zero y -> signed_zero (x * y).
Proof.
  intros (sx & mx & ex & Ex & _) [sy Ey].
  exists (xorb sx sy). now rewrite mul_spec, Ex, Ey.
Qed.

(** The product of two normal floats of bounded magnitude. *)
Lemma product_model (x y : float) (a b c d : Z) :
  normal x -> normal y ->
  bpow a <= Rabs (real x) <= bpow b -> bpow c <= Rabs (real y) <= bpow d ->
  (-1021 <= a + c)%Z -> (b + d < 1023)%Z ->
  normal (x * y)
  /\ Rabs (real (x * y) - real x * real y)
     <= roundoff * Rabs (real x * real y)
  /\ bpow (a + c - 1) <= Rabs (real (x * y)) <= bpow (b + d + 1).
Proof.
  intros Hx Hy Rx Ry Hl Hu.
  pose proof (abs_mul_range _ _ _ _ _ _ Rx Ry) as RP.
  pose proof (bpow_le (-1021) (a + c) Hl).
  pose proof (bpow_lt (b + d) 1023 Hu).
  destruct (mul_model x y Hx Hy) as [Hn He]; [lra|].
  split; [exact Hn|]. split; [exact He|].
  rewrite roundoff_val in He.
  pose proof (bpow_succ (a + c - 1)) as H1.
  replace (a + c - 1 + 1)%Z with (a + c)%Z in H1 by lia.
  pose proof (bpow_succ (b + d)) as H2.
  pose proof (bpow_pos (a + c - 1)). pose proof (bpow_pos (b + d)).
  set (P := real x * real y) in *. set (p := real (x * y)) in *.
  clear - RP He H1 H2 H3 H4. abs_cases.
Qed.

(** Relative errors of a product of two approximations, and of a
    rounded approximation. *)
Lemma relative_product (a A b B ea eb : R) :
  0 <= ea -> 0 <= eb ->
  Rabs (a - A) <= ea * Rabs A -> Rabs (b - B) <= eb * Rabs B ->
  Rabs (a * b - A * B) <= (ea + eb + ea * eb) * Rabs (A * B).
Proof.
  intros Ha Hb HA HB.
  replace (a * b - A * B) with ((a - A) * b + A * (b - B)) by ring.
  eapply Rle_trans; [apply Rabs_triang|]. rewrite !Rabs_mult.
  assert (Hb' : Rabs b <= (1 + eb) * Rabs B).
  { replace b with (B + (b - B)) at 1 by ring.
    eapply Rle_trans; [apply Rabs_triang|]. lra. }
  pose proof (Rabs_pos A). pose proof (Rabs_pos B).
  pose proof (Rabs_pos (a - A)). pose proof (Rabs_pos (b - B)).
  pose proof (Rabs_pos b).
  apply Rle_trans with (ea * Rabs A * ((1 + eb) * Rabs B)
                        + Rabs A * (eb * Rabs B)).
  - apply Rplus_le_compat.
    + apply Rmult_le_compat; lra.
    + apply Rmult_le_compat_l; lra.
  - right. ring.
Qed.

Lemma relative_rounding (q p P e : R) :
  0 <= e ->
  Rabs (q - p) <= roundoff * Rabs p -> Rabs (p - P) <= e * Rabs P ->
  Rabs (q - P) <= (roundoff + e + roundoff * e) * Rabs P.
Proof.
  intros He Hq Hp. pose proof roundoff_pos as Hu.
  assert (Hp' : Rabs p <= (1 + e) * Rabs P).
  { replace p with (P + (p - P)) at 1 by ring.
    eapply Rle_trans; [apply Rabs_triang|]. lra. }
  replace (q - P) with ((q - p) + (p - P)) by ring.
  eapply Rle_trans; [apply Rabs_triang|].
  pose proof (Rabs_pos P).
  apply Rle_trans with (roundoff * ((1 + e) * Rabs P) + e * Rabs P).
  - apply Rplus_le_compat; [|exact Hp].
    eapply Rle_trans; [exact Hq|]. apply Rmult_le_compat_l; lra.
  - right. ring.
Qed.

(** A heat duty [m * cp * (t1 - t2)]: a zero when the two temperatures
    are equal, and otherwise a normal float within a relative [2^-51] of
    the exact duty. *)
Lemma duty_model (m cp t1 t2 : float) :
  moderate m = true -> moderate cp = true ->
  moderate_or_zero t1 = true -> moderate_or_zero t2 = true ->
  let Q := real m * real cp * (real t1 - real t2) in
  Rabs (real (m * cp * (t1 - t2)) - Q) <= bpow (-51) * Rabs Q
  /\ graded (-955) 904 (m * cp * (t1 - t2)).
Proof.
  intros Hm Hc H1 H2 Q.
  destruct (moderate_range m Hm) as [Nm Rm].
  destruct (moderate_range cp Hc) as [Nc Rc].
  apply moderate_or_zero_graded in H1, H2.
  destruct (product_model m cp (-300) 300 (-300) 300 Nm Nc Rm Rc
              ltac:(lia) ltac:(lia)) as (Np & Ep & Rp).
  change (-300 + -300 - 1)%Z with (-601)%Z in Rp.
  change (300 + 300 + 1)%Z with 601%Z in Rp.
  destruct (difference_model t1 t2 (-300) 300
              ltac:(lia) ltac:(lia) ltac:(lia) H1 H2) as [[D0 Dz] | (Nd & Ed & Rd)].
  - (* equal temperatures *)
    pose proof (mul_zero_r _ _ Np Dz) as Z.
    split; [|now left].
    rewrite (real_zero _ Z). unfold Q. rewrite D0.
    replace (real m * real cp * 0) with 0 by ring.
    replace (0 - 0) with 0 by ring.
    rewrite Rabs_R0, Rmult_0_r. apply Rle_refl.
  - change (-300 - 53)%Z with (-353)%Z in Rd.
    change (300 + 2)%Z with 302%Z in Rd.
    destruct (product_model (m * cp) (t1 - t2) (-601) 601 (-353) 302
                Np Nd Rp Rd ltac:(lia) ltac:(lia)) as (Nq & Eq & Rq).
    change (-601 + -353 - 1)%Z with (-955)%Z in Rq.
    change (601 + 302 + 1)%Z with 904%Z in Rq.
    split; [|right; now split].
    pose proof roundoff_pos as Hu.
    pose proof (relative_product _ _ _ _ roundoff roundoff
                  ltac:(lra) ltac:(lra) Ep Ed) as E2.
    assert (He : 0 <= roundoff + roundoff + roundoff * roundoff) by nra.
    pose proof (relative_rounding _ _ _ _ He Eq E2) as E3.
    fold Q in E3. eapply Rle_trans; [exact E3|].
    apply Rmult_le_compat_r; [apply Rabs_pos|].
    rewrite bpow_m51, roundoff_val. lra.
Qed.

Lemma normal_2 : normal 2%float.
Proof. eapply normal_intro; [vm_compute; reflexivity | reflexivity | lia]. Qed.

Lemma real_2 : real 2%float = 2.
Proof.
  rewrite (real_intro 2%float false 4503599627370496 (-51))
    by (vm_compute; reflexivity).
  rewrite (bpow_neg_val 51). unfold sg.
  change (2 ^ 51)%Z with 2251799813685248%Z. lra.
Qed.

(** The mean of two computed duties against the mean of the exact
    ones. *)
Lemma mean_model (qh qc : float) (QH QC : R) :
  graded (-955) 904 qh -> graded (-955) 904 qc ->
  Rabs (real qh - QH) <= bpow (-51) * Rabs QH ->
  Rabs (real qc - QC) <= bpow (-51) * Rabs QC ->
  Rabs (real ((qh + qc) / 2) - (QH + QC) / 2)
  <= bpow (-50) * ((Rabs QH + Rabs QC) / 2).
Proof.
  intros Gh Gc Eh Ec.
  assert (H50 : bpow (-50) = 8 * roundoff).
  { replace (-50)%Z with (-51 + 1)%Z by lia. rewrite bpow_succ, bpow_m51. ring. }
  rewrite bpow_m51, roundoff_val in Eh, Ec. rewrite H50, roundoff_val.
  set (W := Rabs QH + Rabs QC).
  assert (HW : 0 <= W).
  { unfold W. pose proof (Rabs_pos QH). pose proof (Rabs_pos QC). lra. }
  assert (HT : Rabs (QH + QC) <= W) by apply Rabs_triang.
  set (S := real qh + real qc).
  assert (A1 : Rabs (S - (QH + QC)) <= 4 * / 9007199254740992 * W).
  { unfold S, W. clear - Eh Ec. abs_cases. }
  destruct (sum_model qh qc (-955) 904 ltac:(lia) ltac:(lia) ltac:(lia) Gh Gc)
    as [[S0 Sz] | (Ns & Es & Rs)]; fold S in S0 || fold S in Es.
  - pose proof (div_zero _ _ Sz normal_2) as Z.
    rewrite (real_zero _ Z). rewrite S0 in A1.
    clearbody W. clear - A1 HW. abs_cases.
  - change (-955 - 53)%Z with (-1008)%Z in Rs.
    change (904 + 2)%Z with 906%Z in Rs.
    set (s := real (qh + qc)) in *.
    destruct (div_model (qh + qc) 2%float Ns normal_2) as [_ Ea].
    { fold s. rewrite real_2.
      pose proof (bpow_succ (-1009)) as H1.
      change (-1009 + 1)%Z with (-1008)%Z in H1.
      pose proof (bpow_le (-1021) (-1009) ltac:(lia)).
      pose proof (bpow_lt 906 1023 ltac:(lia)).
      pose proof (bpow_pos (-1009)).
      clear - Rs H1 H H0 H2. abs_cases. }
    fold s in Ea. rewrite real_2, roundoff_val in Ea.
    rewrite roundoff_val in Es.
    set (a := real ((qh + qc) / 2)) in *.
    assert (A2 : Rabs S <= (1 + 4 * / 9007199254740992) * W).
    { clearbody W S. clear - A1 HW HT. abs_cases. }
    assert (A3 : Rabs (s - (QH + QC)) <= 6 * / 9007199254740992 * W).
    { clearbody W S s. clear - A1 A2 Es HW. abs_cases. }
    clearbody W S s a. clear - A3 Ea HW HT. abs_cases.
Qed.

(** X13: for flows and a specific heat of magnitude between [2^-300]
    and [2^300] and temperatures that are zero or of such a magnitude,
    the hot and the cold duty are each within a relative [2^-51] of the
    exact product [m * Cp * dT], and the average duty is within
    [2^-50] times the mean magnitude of the two exact duties of their
    exact mean. *)
Theorem heat_duty_accuracy
    (Th_in Th_out m_hot Tc_in Tc_out m_cold Cp : float) :
  moderate m_hot = true -> moderate m_cold = true -> moderate Cp = true ->
  moderate_or_zero Th_in = true -> moderate_or_zero Th_out = true ->
  moderate_or_zero Tc_in = true -> moderate_or_zero Tc_out = true ->
  let QH := real m_hot * real Cp * (real Th_in - real Th_out) in
  let QC := real m_cold * real Cp * (real Tc_out - real Tc_in) in
  Rabs (real (Solver.Q_hot Th_in Th_out m_hot Cp) - QH)
  <= bpow (-51) * Rabs QH
  /\ Rabs (real (Solver.Q_cold Tc_in Tc_out m_cold Cp) - QC)
     <= bpow (-51) * Rabs QC
  /\ Rabs (real (Solver.Q_avg Th_in Th_out m_hot Tc_in Tc_out m_cold Cp)
           - (QH + QC) / 2)
     <= bpow (-50) * ((Rabs QH + Rabs QC) / 2).
Proof.
  intros Hmh Hmc Hcp H1 H2 H3 H4 QH QC.
  destruct (duty_model m_hot Cp Th_in Th_out Hmh Hcp H1 H2) as [Eh Gh].
  destruct (duty_model m_cold Cp Tc_out Tc_in Hmc Hcp H4 H3) as [Ec Gc].
  cbv zeta in Eh, Ec. fold QH in Eh. fold QC in Ec.
  split; [exact Eh|]. split; [exact Ec|].
  unfold Solver.Q_avg.
  exact (mean_model _ _ QH QC Gh Gc Eh Ec).
Qed.

Lemma heat_duty_accuracy_witness :
  let QH := real 1 * real 4.18 * (real 80 - real 50) in
  let QC := real 1.2 * real 4.18 * (real 45 - real 20) in
  Rabs (real (Solver.Q_hot 80 50 1 4.18) - QH) <= bpow (-51) * Rabs QH
  /\ Rabs (real (Solver.Q_cold 20 45 1.2 4.18) - QC) <= bpow (-51) * Rabs QC
  /\ Rabs (real (Solver.Q_avg 80 50 1 20 45 1.2 4.18) - (QH + QC) / 2)
     <= bpow (-50) * ((Rabs QH + Rabs QC) / 2).
Proof.
  apply (heat_duty_accuracy 80 50 1 20 45 1.2 4.18)%float;
    vm_compute; reflexivity.
Defined.

(** ** Round trips of the unit conversions (C8) *)



End Conversions.
